(** * firebase-token-helper: a shallow embedding of [index.js]

    The program is a sequential command-line tool: it gathers a uid, a
    service-account path and a Web API key from flags, environment, a local
    cache file and prompts; initialises the administrative SDK; mints a custom
    token; exchanges it over HTTPS; prints the result and writes the cache.

    The embedding has three layers.
    - JavaScript values of the JSON fragment, with the platform functions the
      program calls on them ([JSON.stringify], [JSON.parse], base64 through
      [Buffer], [trim], [endsWith], [encodeURIComponent]).
    - The effects of the program as a state-and-exception monad over an
      explicit file system, an append-only trace of observable events and the
      mutable pieces of process state ([admin.apps], [argv.projectId]).
    - The functions of [index.js], under their own names.

    Strings are byte strings that hold UTF-8 text. *)

From Stdlib Require Import ZArith List String Ascii Bool Lia Decimal DecimalString DecimalZ DecimalPos DecimalFacts.
Import ListNotations.
Local Open Scope string_scope.

(** ** Characters that cannot be written inside a literal *)

Definition dquote : ascii := "034"%char.
Definition backslash : ascii := "092"%char.
Definition esc : ascii := "027"%char.

Definition str1 (c : ascii) : string := String c EmptyString.

(** ** JavaScript values

    The JSON-representable fragment together with [undefined].  A number is
    an IEEE 754 double: [VNum z] is the integer [z] of the safe range (below
    [2^53] in absolute value), which a double holds exactly and which is all
    the program itself computes (the millisecond timestamp); [VDouble d] is
    any other number that a JSON text can denote: [m * 2^e], negated or not,
    or an infinity.  An object lists its properties in enumeration order. *)

Inductive double : Type :=
| Finite (neg : bool) (m : positive) (e : Z)
| Infinite (neg : bool).

#[local] Unset Elimination Schemes.
Inductive value : Type :=
| VUndefined
| VNull
| VBool (b : bool)
| VNum (z : Z)
| VDouble (d : double)
| VStr (s : string)
| VArr (elems : list value)
| VObj (props : list (string * value)).
#[local] Set Elimination Schemes.

(** Truthiness, as used by [if], [!], [&&], [||] and [?:]. *)
Definition truthy (v : value) : bool :=
  match v with
  | VUndefined | VNull => false
  | VBool b => b
  | VNum z => negb (z =? 0)%Z
  | VDouble _ => true
  | VStr s => negb (s =? "")
  | VArr _ | VObj _ => true
  end.

(** [a || b] and [a && b] on values. *)
Definition js_or (a b : value) : value := if truthy a then a else b.
Definition js_and (a b : value) : value := if truthy a then b else a.

(** Own-property lookup in a property list; an absent property reads as
    [undefined]. *)
Fixpoint lookup (k : string) (ps : list (string * value)) : value :=
  match ps with
  | [] => VUndefined
  | (k', v) :: rest => if k' =? k then v else lookup k rest
  end.

(** [delete o.k]. *)
Fixpoint delete_prop (k : string) (ps : list (string * value)) : list (string * value) :=
  match ps with
  | [] => []
  | (k', v) :: rest => if k' =? k then delete_prop k rest else (k', v) :: delete_prop k rest
  end.

(** ** Strings *)

Fixpoint join (sep : string) (l : list string) : string :=
  match l with
  | [] => ""
  | [x] => x
  | x :: rest => x ++ sep ++ join sep rest
  end.

Fixpoint string_rev (s : string) : string :=
  match s with
  | EmptyString => EmptyString
  | String c r => string_rev r ++ str1 c
  end.

(** [String.prototype.endsWith]. *)
Definition endsWith (s suffix : string) : bool :=
  prefix (string_rev suffix) (string_rev s).

(** [String.prototype.toLowerCase] on the ASCII letters. *)
Definition lower_char (c : ascii) : ascii :=
  let n := nat_of_ascii c in
  if (65 <=? n)%nat && (n <=? 90)%nat then ascii_of_nat (n + 32) else c.

Fixpoint toLowerCase (s : string) : string :=
  match s with
  | EmptyString => EmptyString
  | String c r => String (lower_char c) (toLowerCase r)
  end.

(** *** [String.prototype.trim]

    The white space and line terminators of ECMAScript, as UTF-8 byte
    sequences: TAB, LF, VT, FF, CR, SP; U+00A0; U+1680; U+2000 to U+200A,
    U+2028, U+2029, U+202F, U+205F; U+3000; U+FEFF. *)

Definition ws1 (a : ascii) : bool :=
  let n := nat_of_ascii a in
  ((9 <=? n)%nat && (n <=? 13)%nat) || (n =? 32)%nat.

Definition ws2 (a b : ascii) : bool :=
  (nat_of_ascii a =? 194)%nat && (nat_of_ascii b =? 160)%nat.

Definition ws3 (a b c : ascii) : bool :=
  let x := nat_of_ascii a in
  let y := nat_of_ascii b in
  let z := nat_of_ascii c in
  ((x =? 225)%nat && (y =? 154)%nat && (z =? 128)%nat)
  || ((x =? 226)%nat && (y =? 128)%nat && (((128 <=? z)%nat && (z <=? 138)%nat) || (z =? 168)%nat || (z =? 169)%nat || (z =? 175)%nat))
  || ((x =? 226)%nat && (y =? 129)%nat && (z =? 159)%nat)
  || ((x =? 227)%nat && (y =? 128)%nat && (z =? 128)%nat)
  || ((x =? 239)%nat && (y =? 187)%nat && (z =? 191)%nat).

Fixpoint trimStart (s : string) : string :=
  match s with
  | EmptyString => EmptyString
  | String a r1 =>
      if ws1 a then trimStart r1
      else match r1 with
           | String b r2 =>
               if ws2 a b then trimStart r2
               else match r2 with
                    | String c r3 => if ws3 a b c then trimStart r3 else s
                    | EmptyString => s
                    end
           | EmptyString => s
           end
  end.

(** The same scan over the reversed string: the bytes of a code point arrive
    last byte first. *)
Fixpoint trimStart_rev (s : string) : string :=
  match s with
  | EmptyString => EmptyString
  | String a r1 =>
      if ws1 a then trimStart_rev r1
      else match r1 with
           | String b r2 =>
               if ws2 b a then trimStart_rev r2
               else match r2 with
                    | String c r3 => if ws3 c b a then trimStart_rev r3 else s
                    | EmptyString => s
                    end
           | EmptyString => s
           end
  end.

Definition trimEnd (s : string) : string := string_rev (trimStart_rev (string_rev s)).

Definition trim (s : string) : string := trimEnd (trimStart s).

(** *** Decimal numerals *)

Definition string_of_Z (z : Z) : string := NilZero.string_of_int (Z.to_int z).

(** *** Doubles, in exact integer arithmetic

    A positive rational is given as a fraction [num / den]. *)

(** The double nearest to [num / den], a tie going to the even mantissa.
    [Some (m, e)] stands for [m * 2^e], where [2^52 <= m < 2^53], or
    [e = -1074] and [m] is smaller (a subnormal, or zero); [None] stands for
    an overflow. *)
Definition nearest_double (num den : Z) : option (Z * Z) :=
  let l := (Z.log2 num - Z.log2 den)%Z in
  let reached := if (0 <=? l)%Z then (den * 2 ^ l <=? num)%Z else (den <=? num * 2 ^ (- l))%Z in
  let e := Z.max ((if reached then l else l - 1) - 52) (-1074) in
  let a := if (0 <=? e)%Z then num else (num * 2 ^ (- e))%Z in
  let b := if (0 <=? e)%Z then (den * 2 ^ e)%Z else den in
  let q := (a / b)%Z in
  let r := (a mod b)%Z in
  let m := if (b <? 2 * r)%Z then (q + 1)%Z
           else if (2 * r =? b)%Z then (if Z.even q then q else (q + 1)%Z)
           else q in
  let e' := if (m =? 2 ^ 53)%Z then (e + 1)%Z else e in
  if (971 <? e')%Z then None
  else Some (if (m =? 2 ^ 53)%Z then (2 ^ 52)%Z else m, e').

(** Whether the decimal [s * 10^p] denotes the double [x]. *)
Definition rounds_to (x : option (Z * Z)) (s p : Z) : bool :=
  match x, (if (0 <=? p)%Z then nearest_double (s * 10 ^ p) 1 else nearest_double s (10 ^ (- p))) with
  | Some (m, e), Some (m', e') => (m =? m')%Z && (e =? e')%Z
  | None, None => true
  | _, _ => false
  end.

Definition below_power_of_ten (num den n : Z) : bool :=
  if (0 <=? n)%Z then (num <? den * 10 ^ n)%Z else (num * 10 ^ (- n) <? den)%Z.

Fixpoint decimal_exponent_from (fuel : nat) (n num den : Z) : Z :=
  match fuel with
  | O => n
  | S f => if below_power_of_ten num den n then n
           else decimal_exponent_from f (n + 1)%Z num den
  end.

(** The [n] with [10^(n-1) <= num / den < 10^n]: searched upward from a
    lower estimate, which the binary logarithms give. *)
Definition decimal_exponent (num den : Z) : Z :=
  let t := (Z.log2 num - Z.log2 den - 1)%Z in
  let below := if (0 <=? t)%Z then (t * 30102 / 100000)%Z else (t * 30103 / 100000)%Z in
  decimal_exponent_from 64 (below + 1)%Z num den.

(** The shortest decimal that denotes the double [x], whose exact value is
    [num / den]: the digits [s] and the exponent [n] of [0.s * 10^n].  With
    [k] digits the two decimals around the exact value are tried; of two that
    both denote [x] the nearer is taken, and the even one on a tie. *)
Fixpoint shortest_decimal (fuel : nat) (k : Z) (x : option (Z * Z)) (num den n : Z) : Z * Z :=
  match fuel with
  | O => (0%Z, n)
  | S f =>
      let p := (n - k)%Z in
      let a := if (0 <=? p)%Z then num else (num * 10 ^ (- p))%Z in
      let b := if (0 <=? p)%Z then (den * 10 ^ p)%Z else den in
      let lo := (a / b)%Z in
      let r := (a mod b)%Z in
      let low := rounds_to x lo p in
      let high := rounds_to x (lo + 1) p in
      let up := if low
                then if high then (b <? 2 * r)%Z || ((2 * r =? b)%Z && Z.odd lo) else false
                else true in
      if low || high then
        if up then (if (lo + 1 =? 10 ^ k)%Z then (1%Z, (n + 1)%Z) else ((lo + 1)%Z, n))
        else (lo, n)
      else shortest_decimal f (k + 1)%Z x num den n
  end.

Fixpoint zeros (n : nat) : string :=
  match n with
  | O => EmptyString
  | S m => String "0" (zeros m)
  end.

(** The notation of [Number::toString] for the digits [s] and the exponent
    [n]: plain up to [10^21] and down to [10^-6], scientific beyond. *)
Definition decimal_text (s n : Z) : string :=
  let digits := string_of_Z s in
  let k := Z.of_nat (length digits) in
  if (k <=? n)%Z && (n <=? 21)%Z then digits ++ zeros (Z.to_nat (n - k))
  else if (0 <? n)%Z && (n <=? 21)%Z then
    substring 0 (Z.to_nat n) digits ++ "."
    ++ substring (Z.to_nat n) (length digits - Z.to_nat n) digits
  else if (-6 <? n)%Z && (n <=? 0)%Z then "0." ++ zeros (Z.to_nat (- n)) ++ digits
  else
    match digits with
    | String c (String c' r) => String c (String "." (String c' r))
    | _ => digits
    end
    ++ "e" ++ (if (1 <=? n)%Z then "+" else "-") ++ string_of_Z (Z.abs (n - 1)).

(** [Number::toString] of a number that is no safe integer. *)
Definition number_to_string (d : double) : string :=
  match d with
  | Infinite neg => if neg then "-Infinity" else "Infinity"
  | Finite neg m e =>
      let num := if (0 <=? e)%Z then (Z.pos m * 2 ^ e)%Z else Z.pos m in
      let den := if (0 <=? e)%Z then 1%Z else (2 ^ (- e))%Z in
      let (s, n) := shortest_decimal 17 1 (nearest_double num den) num den
                      (decimal_exponent num den) in
      (if neg then "-" else "") ++ decimal_text s n
  end.

Definition signed (neg : bool) (z : Z) : Z := if neg then (- z)%Z else z.

(** The number a double is: a safe integer where it is one. *)
Definition number_of_double (neg : bool) (x : option (Z * Z)) : value :=
  match x with
  | None => VDouble (Infinite neg)
  | Some (m, e) =>
      if (m =? 0)%Z then VNum 0
      else if (0 <=? e)%Z then
        if (e =? 0)%Z then VNum (signed neg m) else VDouble (Finite neg (Z.to_pos m) e)
      else if (m mod 2 ^ (- e) =? 0)%Z then VNum (signed neg (m / 2 ^ (- e)))
      else VDouble (Finite neg (Z.to_pos m) e)
  end.

(** [d * 10^k] when it is an integer below [2^53]. *)
Definition safe_integer (d k : Z) : option Z :=
  if (0 <=? k)%Z then
    if (k <=? 16)%Z then
      if (d * 10 ^ k <? 2 ^ 53)%Z then Some (d * 10 ^ k)%Z else None
    else None
  else None.

(** The number that the decimal [d * 10^k] denotes, [d] having at most
    [digits] digits: the nearest double.  Beyond [10^310] lies only the
    infinity, below [10^-330] only zero; a negative zero prints and tests as
    zero. *)
Definition number_of_decimal (neg : bool) (d k digits : Z) : value :=
  if (d =? 0)%Z then VNum 0
  else match safe_integer d k with
       | Some z => VNum (signed neg z)
       | None =>
           if (310 <? k)%Z then VDouble (Infinite neg)
           else if (k + digits <? -330)%Z then VNum 0
           else number_of_double neg
                  (if (0 <=? k)%Z then nearest_double (d * 10 ^ k) 1
                   else nearest_double d (10 ^ (- k)))
       end.

(** *** [encodeURIComponent]: every byte but the unreserved ones becomes
    [%XX]. *)

Definition hex_upper (n : nat) : ascii :=
  match get n "0123456789ABCDEF" with Some c => c | None => "0"%char end.

Definition hex_lower (n : nat) : ascii :=
  match get n "0123456789abcdef" with Some c => c | None => "0"%char end.

Definition uri_unreserved (c : ascii) : bool :=
  let n := nat_of_ascii c in
  ((65 <=? n)%nat && (n <=? 90)%nat) || ((97 <=? n)%nat && (n <=? 122)%nat) || ((48 <=? n)%nat && (n <=? 57)%nat)
  || (n =? 45)%nat || (n =? 95)%nat || (n =? 46)%nat || (n =? 33)%nat || (n =? 126)%nat
  || (n =? 42)%nat || (n =? 39)%nat || (n =? 40)%nat || (n =? 41)%nat.

Fixpoint encodeURIComponent (s : string) : string :=
  match s with
  | EmptyString => EmptyString
  | String c r =>
      (if uri_unreserved c then str1 c
       else String "%" (String (hex_upper (nat_of_ascii c / 16))
                               (str1 (hex_upper (nat_of_ascii c mod 16)))))
      ++ encodeURIComponent r
  end.

(** ** [JSON.stringify]

    [None] stands for the result [undefined].  A property whose value
    serialises to [undefined] is left out; such an array element is written
    [null], and so is an infinite number. *)

Definition escape_char (c : ascii) : string :=
  let n := nat_of_ascii c in
  if (c =? dquote)%char then String backslash (str1 dquote)
  else if (c =? backslash)%char then String backslash (str1 backslash)
  else if (n =? 8)%nat then String backslash "b"
  else if (n =? 9)%nat then String backslash "t"
  else if (n =? 10)%nat then String backslash "n"
  else if (n =? 12)%nat then String backslash "f"
  else if (n =? 13)%nat then String backslash "r"
  else if (n <? 32)%nat then
    String backslash (String "u" (String "0" (String "0"
      (String (hex_lower (n / 16)) (str1 (hex_lower (n mod 16)))))))
  else str1 c.

Fixpoint quote_body (s : string) : string :=
  match s with
  | EmptyString => EmptyString
  | String c r => escape_char c ++ quote_body r
  end.

Definition json_quote (s : string) : string :=
  String dquote (quote_body s ++ str1 dquote).

Fixpoint stringify (v : value) : option string :=
  match v with
  | VUndefined => None
  | VNull => Some "null"
  | VBool true => Some "true"
  | VBool false => Some "false"
  | VNum z => Some (string_of_Z z)
  | VDouble (Infinite _) => Some "null"
  | VDouble d => Some (number_to_string d)
  | VStr s => Some (json_quote s)
  | VArr l =>
      Some ("[" ++ join ","
              (map (fun e => match stringify e with Some t => t | None => "null" end) l)
            ++ "]")
  | VObj ps =>
      Some ("{" ++ join ","
              (flat_map (fun kv => match stringify (snd kv) with
                                   | Some t => [json_quote (fst kv) ++ ":" ++ t]
                                   | None => []
                                   end) ps)
            ++ "}")
  end.

Definition nl : string := str1 (ascii_of_nat 10).

(** [JSON.stringify(v, null, 2)]: the same text, one member per line,
    indented by two spaces per level; [ind] is the indentation reached. *)
Fixpoint stringify_indent (ind : string) (v : value) : option string :=
  match v with
  | VUndefined => None
  | VNull => Some "null"
  | VBool true => Some "true"
  | VBool false => Some "false"
  | VNum z => Some (string_of_Z z)
  | VDouble (Infinite _) => Some "null"
  | VDouble d => Some (number_to_string d)
  | VStr s => Some (json_quote s)
  | VArr l =>
      match map (fun e => match stringify_indent (ind ++ "  ") e with
                          | Some t => t
                          | None => "null"
                          end) l with
      | [] => Some "[]"
      | items =>
          Some ("[" ++ nl ++ ind ++ "  " ++ join ("," ++ nl ++ ind ++ "  ") items
                ++ nl ++ ind ++ "]")
      end
  | VObj ps =>
      match flat_map (fun kv => match stringify_indent (ind ++ "  ") (snd kv) with
                                | Some t => [json_quote (fst kv) ++ ": " ++ t]
                                | None => []
                                end) ps with
      | [] => Some "{}"
      | items =>
          Some ("{" ++ nl ++ ind ++ "  " ++ join ("," ++ nl ++ ind ++ "  ") items
                ++ nl ++ ind ++ "}")
      end
  end.

(** The value [JSON.stringify] returns: a string or [undefined]. *)
Definition stringify_pretty (ind : string) (v : value) : value :=
  match stringify_indent ind v with
  | Some text => VStr text
  | None => VUndefined
  end.

(** ** [JSON.parse]

    A recursive-descent parser of the JSON grammar; [None] stands for the
    [SyntaxError] that [JSON.parse] throws. *)

Definition json_ws (c : ascii) : bool :=
  let n := nat_of_ascii c in
  (n =? 32)%nat || (n =? 9)%nat || (n =? 10)%nat || (n =? 13)%nat.

Fixpoint skip_ws (s : string) : string :=
  match s with
  | String c r => if json_ws c then skip_ws r else s
  | EmptyString => EmptyString
  end.

Definition digit_cons (c : ascii) : option (uint -> uint) :=
  match nat_of_ascii c - 48, (48 <=? nat_of_ascii c)%nat with
  | 0, true => Some D0
  | 1, _ => Some D1
  | 2, _ => Some D2
  | 3, _ => Some D3
  | 4, _ => Some D4
  | 5, _ => Some D5
  | 6, _ => Some D6
  | 7, _ => Some D7
  | 8, _ => Some D8
  | 9, _ => Some D9
  | _, _ => None
  end.

Fixpoint read_digits (s : string) : uint * string :=
  match s with
  | String c r =>
      match digit_cons c with
      | Some k => let (d, r') := read_digits r in (k d, r')
      | None => (Nil, s)
      end
  | EmptyString => (Nil, EmptyString)
  end.

(** The fraction of a number literal: a point and at least one digit. *)
Definition read_fraction (s : string) : option (uint * string) :=
  match s with
  | String "." r =>
      match read_digits r with
      | (Nil, _) => None
      | (f, rest) => Some (f, rest)
      end
  | _ => Some (Nil, s)
  end.

(** Its exponent: [e] or [E], a sign or none, and at least one digit. *)
Definition read_exponent (s : string) : option (Z * string) :=
  match s with
  | String c r =>
      if (c =? "e")%char || (c =? "E")%char then
        let (neg, r1) := match r with
                         | String "-" r' => (true, r')
                         | String "+" r' => (false, r')
                         | _ => (false, r)
                         end in
        match read_digits r1 with
        | (Nil, _) => None
        | (x, rest) => Some (signed neg (Z.of_uint x), rest)
        end
      else Some (0%Z, s)
  | EmptyString => Some (0%Z, s)
  end.

(** A number literal: a sign or none, an integer part without a leading
    zero, a fraction or none, an exponent or none. *)
Definition parse_number (s : string) : option (value * string) :=
  let (neg, s1) := match s with
                   | String "-" r => (true, r)
                   | _ => (false, s)
                   end in
  let (d, rest) := read_digits s1 in
  match d with
  | Nil => None
  | D0 (D0 _ | D1 _ | D2 _ | D3 _ | D4 _ | D5 _ | D6 _ | D7 _ | D8 _ | D9 _) => None
  | _ =>
      match read_fraction rest with
      | None => None
      | Some (f, rest1) =>
          match read_exponent rest1 with
          | None => None
          | Some (x, rest2) =>
              let places := Z.of_nat (nb_digits f) in
              Some (number_of_decimal neg
                      (Z.of_uint d * 10 ^ places + Z.of_uint f)%Z
                      (x - places)%Z
                      (Z.of_nat (nb_digits d) + places)%Z,
                    rest2)
          end
      end
  end.

Definition hex_val (c : ascii) : option N :=
  let n := N_of_ascii c in
  if (48 <=? n)%N && (n <=? 57)%N then Some (n - 48)%N
  else if (97 <=? n)%N && (n <=? 102)%N then Some (n - 87)%N
  else if (65 <=? n)%N && (n <=? 70)%N then Some (n - 55)%N
  else None.

Definition hex4 (a b c d : ascii) : option N :=
  match hex_val a, hex_val b, hex_val c, hex_val d with
  | Some x, Some y, Some z, Some w => Some (((x * 16 + y) * 16 + z) * 16 + w)%N
  | _, _, _, _ => None
  end.

(** UTF-8 bytes of a code point (a lone surrogate keeps its three-byte
    form). *)
Definition utf8 (cp : N) : string :=
  if (cp <? 128)%N then str1 (ascii_of_N cp)
  else if (cp <? 2048)%N then
    String (ascii_of_N (192 + cp / 64)%N) (str1 (ascii_of_N (128 + cp mod 64)%N))
  else if (cp <? 65536)%N then
    String (ascii_of_N (224 + cp / 4096)%N)
      (String (ascii_of_N (128 + (cp / 64) mod 64)%N) (str1 (ascii_of_N (128 + cp mod 64)%N)))
  else
    String (ascii_of_N (240 + cp / 262144)%N)
      (String (ascii_of_N (128 + (cp / 4096) mod 64)%N)
         (String (ascii_of_N (128 + (cp / 64) mod 64)%N) (str1 (ascii_of_N (128 + cp mod 64)%N)))).

Definition is_high_surrogate (cp : N) : bool := (55296 <=? cp)%N && (cp <=? 56319)%N.
Definition is_low_surrogate (cp : N) : bool := (56320 <=? cp)%N && (cp <=? 57343)%N.

(** The low surrogate that follows a high one, if any. *)
Definition low_surrogate_ahead (s : string) : option N :=
  match s with
  | String b (String u (String h1 (String h2 (String h3 (String h4 _))))) =>
      if (b =? backslash)%char && (u =? "u")%char then
        match hex4 h1 h2 h3 h4 with
        | Some lo => if is_low_surrogate lo then Some lo else None
        | None => None
        end
      else None
  | _ => None
  end.

Definition simple_escape (e : ascii) : option ascii :=
  if (e =? dquote)%char then Some dquote
  else if (e =? backslash)%char then Some backslash
  else if (e =? "/")%char then Some "/"%char
  else if (e =? "b")%char then Some (ascii_of_nat 8)
  else if (e =? "f")%char then Some (ascii_of_nat 12)
  else if (e =? "n")%char then Some (ascii_of_nat 10)
  else if (e =? "r")%char then Some (ascii_of_nat 13)
  else if (e =? "t")%char then Some (ascii_of_nat 9)
  else None.

(** The characters of a string literal after its opening quote, up to and
    including the closing quote. *)
Fixpoint parse_string_body (s : string) : option (string * string) :=
  match s with
  | EmptyString => None
  | String c r =>
      if (c =? dquote)%char then Some (EmptyString, r)
      else if (c =? backslash)%char then
        match r with
        | String e r1 =>
            if (e =? "u")%char then
              match r1 with
              | String h1 (String h2 (String h3 (String h4 r2))) =>
                  match hex4 h1 h2 h3 h4 with
                  | Some cp =>
                      match (if is_high_surrogate cp then low_surrogate_ahead r2 else None), r2 with
                      | Some lo, String _ (String _ (String _ (String _ (String _ (String _ r3))))) =>
                          match parse_string_body r3 with
                          | Some (t, rest) =>
                              Some (utf8 (65536 + (cp - 55296) * 1024 + (lo - 56320))%N ++ t, rest)
                          | None => None
                          end
                      | _, _ =>
                          match parse_string_body r2 with
                          | Some (t, rest) => Some (utf8 cp ++ t, rest)
                          | None => None
                          end
                      end
                  | None => None
                  end
              | _ => None
              end
            else
              match simple_escape e with
              | Some x =>
                  match parse_string_body r1 with
                  | Some (t, rest) => Some (String x t, rest)
                  | None => None
                  end
              | None => None
              end
        | EmptyString => None
        end
      else if (nat_of_ascii c <? 32)%nat then None
      else
        match parse_string_body r with
        | Some (t, rest) => Some (String c t, rest)
        | None => None
        end
  end.

Fixpoint strip_prefix (p s : string) : option string :=
  match p with
  | EmptyString => Some s
  | String a p' =>
      match s with
      | String b s' => if (a =? b)%char then strip_prefix p' s' else None
      | EmptyString => None
      end
  end.

(** An array index: the canonical numeral of an integer below [2^32 - 1]. *)
Definition array_index (k : string) : option N :=
  match read_digits k with
  | (d, EmptyString) =>
      match d with
      | Nil => None
      | D0 Nil => Some 0%N
      | D0 _ => None
      | _ => if (N.of_uint d <? 4294967295)%N then Some (N.of_uint d) else None
      end
  | _ => None
  end.

(** The enumeration order of own properties: the array indices first, in
    ascending order, then the other names in the order of their creation.
    [precedes k k']: a new property [k] goes before the existing [k']. *)
Definition precedes (k k' : string) : bool :=
  match array_index k, array_index k' with
  | Some i, Some j => (i <? j)%N
  | Some _, None => true
  | None, _ => false
  end.

(** [o.k = v] on an ordinary object: an existing property keeps its place, a
    new one takes its place in the enumeration order. *)
Fixpoint set_prop (k : string) (v : value) (ps : list (string * value)) : list (string * value) :=
  match ps with
  | [] => [(k, v)]
  | (k', v') :: rest =>
      if k' =? k then (k, v) :: rest
      else if precedes k k' then (k, v) :: ps
      else (k', v') :: set_prop k v rest
  end.

(** A later member with the same key replaces an earlier one, in the place of
    the earlier one. *)
Definition members_to_props (ps : list (string * value)) : list (string * value) :=
  fold_left (fun acc kv => set_prop (fst kv) (snd kv) acc) ps [].

(** [parse_value] reads one value, [parse_elements] the elements of an array
    after its bracket, [parse_members] the members of an object after its
    brace.  The fuel bounds the number of nested calls. *)
Fixpoint parse_value (fuel : nat) (s : string) : option (value * string) :=
  match fuel with
  | O => None
  | S f =>
      match skip_ws s with
      | EmptyString => None
      | String c r =>
          if (c =? "n")%char then
            match strip_prefix "ull" r with Some rest => Some (VNull, rest) | None => None end
          else if (c =? "t")%char then
            match strip_prefix "rue" r with Some rest => Some (VBool true, rest) | None => None end
          else if (c =? "f")%char then
            match strip_prefix "alse" r with Some rest => Some (VBool false, rest) | None => None end
          else if (c =? dquote)%char then
            match parse_string_body r with
            | Some (t, rest) => Some (VStr t, rest)
            | None => None
            end
          else if (c =? "[")%char then
            match skip_ws r with
            | String "]" rest => Some (VArr [], rest)
            | _ => match parse_elements f r with
                   | Some (l, rest) => Some (VArr l, rest)
                   | None => None
                   end
            end
          else if (c =? "{")%char then
            match skip_ws r with
            | String "}" rest => Some (VObj [], rest)
            | _ => match parse_members f r with
                   | Some (ps, rest) => Some (VObj (members_to_props ps), rest)
                   | None => None
                   end
            end
          else parse_number (String c r)
      end
  end
with parse_elements (fuel : nat) (s : string) : option (list value * string) :=
  match fuel with
  | O => None
  | S f =>
      match parse_value f s with
      | Some (v, r) =>
          match skip_ws r with
          | String "," r' =>
              match parse_elements f r' with
              | Some (l, rest) => Some (v :: l, rest)
              | None => None
              end
          | String "]" rest => Some ([v], rest)
          | _ => None
          end
      | None => None
      end
  end
with parse_members (fuel : nat) (s : string) : option (list (string * value) * string) :=
  match fuel with
  | O => None
  | S f =>
      match skip_ws s with
      | String c r =>
          if (c =? dquote)%char then
            match parse_string_body r with
            | Some (k, r1) =>
                match skip_ws r1 with
                | String ":" r2 =>
                    match parse_value f r2 with
                    | Some (v, r3) =>
                        match skip_ws r3 with
                        | String "," r4 =>
                            match parse_members f r4 with
                            | Some (ps, rest) => Some ((k, v) :: ps, rest)
                            | None => None
                            end
                        | String "}" rest => Some ([(k, v)], rest)
                        | _ => None
                        end
                    | None => None
                    end
                | _ => None
                end
            | None => None
            end
          else None
      | EmptyString => None
      end
  end.

(** [JSON.parse(text)]: one value, then nothing but white space. *)
Definition json_parse (text : string) : option value :=
  match parse_value (2 * length text + 2) text with
  | Some (v, rest) => match skip_ws rest with
                      | EmptyString => Some v
                      | String _ _ => None
                      end
  | None => None
  end.

(** ** Base64, as [Buffer] does it

    Encoding uses the standard alphabet with padding.  Decoding is Node's
    lenient one: both alphabets are accepted, a byte outside them is skipped,
    and decoding stops at the first [=]. *)

Definition b64_char (n : nat) : ascii :=
  match get n "ABCDEFGHIJKLMNOPQRSTUVWXYZabcdefghijklmnopqrstuvwxyz0123456789+/" with
  | Some c => c
  | None => "="%char
  end.

Definition unbase64 (c : ascii) : option nat :=
  let n := nat_of_ascii c in
  if (65 <=? n)%nat && (n <=? 90)%nat then Some (n - 65)
  else if (97 <=? n)%nat && (n <=? 122)%nat then Some (n - 71)
  else if (48 <=? n)%nat && (n <=? 57)%nat then Some (n + 4)
  else if (n =? 43)%nat || (n =? 45)%nat then Some 62
  else if (n =? 47)%nat || (n =? 95)%nat then Some 63
  else None.

Fixpoint base64_encode (bytes : string) : string :=
  match bytes with
  | EmptyString => EmptyString
  | String a EmptyString =>
      let x := nat_of_ascii a in
      String (b64_char (x / 4)) (String (b64_char (x mod 4 * 16)) "==")
  | String a (String b EmptyString) =>
      let x := nat_of_ascii a in
      let y := nat_of_ascii b in
      String (b64_char (x / 4))
        (String (b64_char (x mod 4 * 16 + y / 16))
           (String (b64_char (y mod 16 * 4)) "="))
  | String a (String b (String c rest)) =>
      let x := nat_of_ascii a in
      let y := nat_of_ascii b in
      let z := nat_of_ascii c in
      String (b64_char (x / 4))
        (String (b64_char (x mod 4 * 16 + y / 16))
           (String (b64_char (y mod 16 * 4 + z / 64))
              (String (b64_char (z mod 64)) (base64_encode rest))))
  end.

Fixpoint sextets (s : string) : list nat :=
  match s with
  | EmptyString => []
  | String c r =>
      match unbase64 c with
      | Some n => n :: sextets r
      | None => if (c =? "=")%char then [] else sextets r
      end
  end.

Fixpoint bytes_of_sextets (l : list nat) : string :=
  match l with
  | p :: q :: r :: s :: rest =>
      String (ascii_of_nat (p * 4 + q / 16))
        (String (ascii_of_nat (q mod 16 * 16 + r / 4))
           (String (ascii_of_nat (r mod 4 * 64 + s)) (bytes_of_sextets rest)))
  | [p; q; r] =>
      String (ascii_of_nat (p * 4 + q / 16)) (str1 (ascii_of_nat (q mod 16 * 16 + r / 4)))
  | [p; q] => str1 (ascii_of_nat (p * 4 + q / 16))
  | _ => EmptyString
  end.

Definition base64_decode (s : string) : string := bytes_of_sextets (sextets s).

(** ** Conversions to string *)

(** [String(v)], as a template literal applies it. *)
Fixpoint to_string (v : value) : string :=
  match v with
  | VUndefined => "undefined"
  | VNull => "null"
  | VBool true => "true"
  | VBool false => "false"
  | VNum z => string_of_Z z
  | VDouble d => number_to_string d
  | VStr s => s
  | VArr l =>
      join "," (map (fun e => match e with
                              | VUndefined | VNull => EmptyString
                              | _ => to_string e
                              end) l)
  | VObj _ => "[object Object]"
  end.

(** [v.k] on a value that is neither [null] nor [undefined]; none of the
    property names of the program is inherited from a prototype. *)
Definition get_prop (v : value) (k : string) : value :=
  match v with
  | VObj ps => lookup k ps
  | _ => VUndefined
  end.

(** ** Errors, events, the world and the state *)

Record error : Type := mk_error { err_name : string; err_message : string }.

Definition Error (m : string) : error := mk_error "Error" m.
Definition TypeError (m : string) : error := mk_error "TypeError" m.
Definition SyntaxError (m : string) : error := mk_error "SyntaxError" m.

(** [String(err)]. *)
Definition error_to_string (e : error) : string :=
  if (err_message e =? "")%string then err_name e else err_name e ++ ": " ++ err_message e.

Inductive node : Type :=
| File (content : string)
| Dir (entries : list string).

(** [admin.credential.cert(sa)] and [admin.credential.applicationDefault()]. *)
Inductive credential : Type :=
| Cert (sa : value)
| ApplicationDefault.

Record options : Type := mk_options {
  opt_credential : credential;
  opt_projectId : value
}.

Record response : Type := mk_response {
  res_ok : bool;
  res_body : string
}.

(** What the program does to the outside, in the order it does it. *)
Inductive event : Type :=
| Log (args : list string)
| LogError (args : list string)
| Question (text : string)
| ExistsSync (p : string)
| StatSync (p : string)
| ReaddirSync (p : string)
| ReadFileSync (p : string)
| WriteFileSync (p content : string) (mode : N)
| Require (p : string)
| CredentialCert (sa : value)
| CredentialApplicationDefault
| InitializeApp (o : options)
| CreateCustomToken (uid : value)
| ImportFetch
| Fetch (url method : string) (headers : list (string * string)) (body : string).

(** What a run is given: command line, environment, disk, the operator's
    answers and the behaviour of the platform, of the administrative SDK and of
    the network.
    - [argv_*]: the four string options of yargs, [undefined] when absent.
    - [env k]: [process.env[k]], after [dotenv]; [undefined] when unset.
    - [path_resolve p]: [path.resolve(p)], which is [path.resolve(process.cwd(), p)];
      [path_join]: [path.join]; [path_basename]: [path.basename].
    - [disk], [read_denied], [write_denied]: the files and directories at
      start, and the paths the process may not read or write.
    - [answers n]: the line the operator types at the n-th question.
    - [readline_promises]: whether [require('readline/promises')] succeeds.
    - [toLocaleString v]: [new Date(v).toLocaleString()]; [now]: [Date.now()].
    - [load_module]: what [require] makes of the content of a file that is
      not JSON; [load_package]: what it makes of a directory.
    - [credential_cert], [credential_applicationDefault], [initializeApp],
      [auth_createCustomToken]: the error each SDK call throws, if any, and
      the token the minting call returns.
    - [import_node_fetch]: the error of [import('node-fetch')], if any;
      [node_fetch url body]: the response to the POST, or the error thrown. *)
Record world : Type := mk_world {
  argv_uid : value;
  argv_serviceAccount : value;
  argv_apiKey : value;
  argv_projectId : value;
  env : string -> value;
  path_resolve : string -> string;
  path_join : string -> string -> string;
  path_basename : string -> string;
  disk : string -> option node;
  read_denied : string -> bool;
  write_denied : string -> bool;
  answers : nat -> string;
  readline_promises : bool;
  toLocaleString : value -> string;
  now : Z;
  load_module : string -> value + error;
  load_package : string -> value + error;
  credential_cert : value -> option error;
  credential_applicationDefault : option error;
  initializeApp : options -> option error;
  auth_createCustomToken : value -> string + error;
  import_node_fetch : option error;
  node_fetch : string -> string -> response + error
}.

(** The mutable part of a run: the disk, the trace so far, the number of
    questions asked, [admin.apps.length] and [argv.projectId] (assigned on
    line 194). *)
Record state : Type := mk_state {
  st_fs : string -> option node;
  st_trace : list event;
  st_asked : nat;
  st_apps : nat;
  st_projectId : value
}.

Definition initial_state (w : world) : state :=
  mk_state (disk w) [] 0 0 (argv_projectId w).

(** ** The monad: state, exceptions and [process.exit] *)

Inductive outcome (A : Type) : Type :=
| Ret (a : A)
| Throw (e : error)
| Exit (code : Z).
Arguments Ret {A} a.
Arguments Throw {A} e.
Arguments Exit {A} code.

Definition M (A : Type) : Type := state -> outcome A * state.

Definition ret {A} (a : A) : M A := fun st => (Ret a, st).

Definition bind {A B} (m : M A) (k : A -> M B) : M B :=
  fun st =>
    match m st with
    | (Ret a, st') => k a st'
    | (Throw e, st') => (Throw e, st')
    | (Exit c, st') => (Exit c, st')
    end.

Definition throw {A} (e : error) : M A := fun st => (Throw e, st).

Definition process_exit {A} (code : Z) : M A := fun st => (Exit code, st).

(** [try { m } catch (e) { h e }]; an exit is not caught. *)
Definition try_catch {A} (m : M A) (h : error -> M A) : M A :=
  fun st =>
    match m st with
    | (Throw e, st') => h e st'
    | r => r
    end.

Declare Scope monad_scope.
Delimit Scope monad_scope with monad.
Notation "x <- m ;; k" := (bind m (fun x => k))
  (at level 61, m at next level, right associativity) : monad_scope.
Notation "m ;; k" := (bind m (fun _ => k))
  (at level 61, right associativity) : monad_scope.
Local Open Scope monad_scope.

Definition emit (e : event) : M unit :=
  fun st => (Ret tt, mk_state (st_fs st) (st_trace st ++ [e]) (st_asked st) (st_apps st) (st_projectId st)).

Definition lift_sum {A} (r : A + error) : M A :=
  match r with
  | inl a => ret a
  | inr e => throw e
  end.

Definition lift_check (r : option error) : M unit :=
  match r with
  | None => ret tt
  | Some e => throw e
  end.

(** ** The program *)

Section Program.

Variable w : world.

(** *** The [fs] module *)

Definition existsSync (p : string) : M bool :=
  emit (ExistsSync p) ;;
  fun st => (Ret (match st_fs st p with Some _ => true | None => false end), st).

(** [fs.statSync(p).isDirectory()]. *)
Definition statSync_isDirectory (p : string) : M bool :=
  emit (StatSync p) ;;
  fun st =>
    match st_fs st p with
    | Some (Dir _) => (Ret true, st)
    | Some (File _) => (Ret false, st)
    | None => (Throw (Error ("ENOENT: no such file or directory, stat " ++ p)), st)
    end.

Definition readdirSync (p : string) : M (list string) :=
  emit (ReaddirSync p) ;;
  fun st =>
    match st_fs st p with
    | Some (Dir names) =>
        if read_denied w p then (Throw (Error ("EACCES: permission denied, scandir " ++ p)), st)
        else (Ret names, st)
    | Some (File _) => (Throw (Error ("ENOTDIR: not a directory, scandir " ++ p)), st)
    | None => (Throw (Error ("ENOENT: no such file or directory, scandir " ++ p)), st)
    end.

Definition readFileSync (p : string) : M string :=
  emit (ReadFileSync p) ;;
  fun st =>
    match st_fs st p with
    | Some (File content) =>
        if read_denied w p then (Throw (Error ("EACCES: permission denied, open " ++ p)), st)
        else (Ret content, st)
    | Some (Dir _) => (Throw (Error "EISDIR: illegal operation on a directory, read"), st)
    | None => (Throw (Error ("ENOENT: no such file or directory, open " ++ p)), st)
    end.

Definition writeFileSync (p content : string) (mode : N) : M unit :=
  emit (WriteFileSync p content mode) ;;
  fun st =>
    match st_fs st p with
    | Some (Dir _) => (Throw (Error ("EISDIR: illegal operation on a directory, open " ++ p)), st)
    | _ =>
        if write_denied w p then (Throw (Error ("EACCES: permission denied, open " ++ p)), st)
        else (Ret tt,
              mk_state (fun q => if (q =? p)%string then Some (File content) else st_fs st q)
                (st_trace st) (st_asked st) (st_apps st) (st_projectId st))
    end.

Definition stripBOM (s : string) : string :=
  match s with
  | String a (String b (String c r)) =>
      if ((nat_of_ascii a =? 239) && (nat_of_ascii b =? 187) && (nat_of_ascii c =? 191))%nat
      then r else s
  | _ => s
  end.

(** The loader goes by the extension of the base name, and a dot that
    begins the name begins no extension: a file named [.json] is not taken
    for JSON. *)
Definition json_extension (name : string) : bool :=
  endsWith name ".json" && negb (name =? ".json")%string.

(** [require(p)] of an absolute path: a file with the extension [.json] is
    read and parsed, any other file is loaded as a module by the platform,
    and so is a directory. *)
Definition require (p : string) : M value :=
  emit (Require p) ;;
  fun st =>
    match st_fs st p with
    | Some (File content) =>
        if read_denied w p then (Throw (Error ("EACCES: permission denied, open " ++ p)), st)
        else if json_extension (path_basename w p) then
          match json_parse (stripBOM content) with
          | Some v => (Ret v, st)
          | None => (Throw (SyntaxError (p ++ ": Unexpected token in JSON")), st)
          end
        else lift_sum (load_module w content) st
    | Some (Dir _) => lift_sum (load_package w p) st
    | None => (Throw (Error ("Cannot find module " ++ p)), st)
    end.

(** [path.resolve(p)]: a [TypeError] unless [p] is a string. *)
Definition path_resolve_value (p : value) : M string :=
  match p with
  | VStr s => ret (path_resolve w s)
  | _ => throw (TypeError "The paths[0] argument must be of type string")
  end.

(** *** Lines 19-32: colours *)

Definition colors_reset : string := String esc "[0m".
Definition colors_bold : string := String esc "[1m".
Definition colors_dim : string := String esc "[2m".
Definition colors_red : string := String esc "[31m".
Definition colors_green : string := String esc "[32m".
Definition colors_yellow : string := String esc "[33m".
Definition colors_cyan : string := String esc "[36m".

Definition colorText (text col : string) : string := col ++ text ++ colors_reset.

Definition console_log (args : list string) : M unit := emit (Log args).
Definition console_error (args : list string) : M unit := emit (LogError args).

(** *** Lines 43-80: the setup cache *)

Definition CACHE_FILE : string := path_resolve w ".token-helper-cache".

(** [Buffer.from(JSON.stringify(obj), 'utf8').toString('base64')];
    [Buffer.from(undefined)] throws. *)
Definition encodeSafe (obj : value) : M string :=
  match stringify obj with
  | Some text => ret (base64_encode text)
  | None => throw (TypeError "The first argument must be of type string or an instance of Buffer")
  end.

Definition decodeSafe (str : string) : M value :=
  try_catch
    (match json_parse (base64_decode str) with
     | Some v => ret v
     | None => throw (SyntaxError "Unexpected token in JSON")
     end)
    (fun _ => ret VNull).

Definition readCache : M value :=
  try_catch
    (ex <- existsSync CACHE_FILE ;;
     if negb ex then ret VNull
     else
       content <- readFileSync CACHE_FILE ;;
       let raw := trim content in
       if (raw =? "")%string then ret VNull
       else decodeSafe raw)
    (fun _ => ret VNull).

(** [Object.assign({}, obj)]: the own enumerable properties of [obj], set one
    after the other on a fresh object.  Setting [__proto__] runs the setter
    that the fresh object inherits, which creates no property.  An array
    spreads into its indices, a string into its characters (one per byte:
    exact for ASCII text). *)
Fixpoint indexed (i : nat) (l : list value) : list (string * value) :=
  match l with
  | [] => []
  | v :: rest => (NilZero.string_of_uint (Nat.to_uint i), v) :: indexed (S i) rest
  end.

Definition object_assign_empty (obj : value) : list (string * value) :=
  match obj with
  | VObj ps => members_to_props (filter (fun kv => negb (fst kv =? "__proto__")%string) ps)
  | VArr l => indexed 0 l
  | VStr s => indexed 0 (map (fun c => VStr (str1 c)) (list_ascii_of_string s))
  | _ => []
  end.

Definition writeCache (obj : value) : M unit :=
  try_catch
    (let safe := object_assign_empty obj in
     let safe := delete_prop "idToken" safe in
     let safe := delete_prop "refreshToken" safe in
     out <- encodeSafe (VObj safe) ;;
     writeFileSync CACHE_FILE out 384%N)
    (fun _ => ret tt).

(** *** Lines 82-98: the prompt

    [answers w n] is the line typed at the n-th question of the run.  The
    operator is taken to answer: a run whose input ends while a question is
    open stops there, and the statements that depend on an answer name it. *)

Definition question (text : string) : M string :=
  emit (Question text) ;;
  fun st => (Ret (answers w (st_asked st)),
             mk_state (st_fs st) (st_trace st) (S (st_asked st)) (st_apps st) (st_projectId st)).

Definition prompt (q : string) : M string :=
  try_catch
    (if readline_promises w then
       answer <- question (colorText q colors_cyan) ;;
       ret (trim answer)
     else throw (Error "Cannot find module 'readline/promises'"))
    (fun _ =>
       ans <- question (colorText q colors_cyan) ;;
       ret (trim ans)).

(** *** Lines 113-130 and 214-226: the scan of [.firebase/]

    The loop body: read and parse the file; [content.client_email] throws on
    [null]; every exception is swallowed. *)
Definition looks_like_service_account (full : string) : M bool :=
  try_catch
    (text <- readFileSync full ;;
     match json_parse text with
     | None => throw (SyntaxError "Unexpected token in JSON")
     | Some VNull => throw (TypeError "Cannot read properties of null (reading 'client_email')")
     | Some content =>
         ret (truthy (js_and (get_prop content "client_email") (get_prop content "private_key")))
     end)
    (fun _ => ret false).

(** [for (const f of files) { ... picked = full; break; ... }]. *)
Fixpoint pick_service_account (candidateDir : string) (files : list string) : M (option string) :=
  match files with
  | [] => ret None
  | f :: rest =>
      let full := path_join w candidateDir f in
      found <- looks_like_service_account full ;;
      if found then ret (Some full) else pick_service_account candidateDir rest
  end.

(** *** Lines 100-148: [initAdmin] *)

Definition admin_credential_cert (sa : value) : M credential :=
  emit (CredentialCert sa) ;;
  lift_check (credential_cert w sa) ;;
  ret (Cert sa).

Definition admin_credential_applicationDefault : M credential :=
  emit CredentialApplicationDefault ;;
  lift_check (credential_applicationDefault w) ;;
  ret ApplicationDefault.

Definition admin_initializeApp (o : options) : M unit :=
  emit (InitializeApp o) ;;
  lift_check (initializeApp w o) ;;
  fun st => (Ret tt, mk_state (st_fs st) (st_trace st) (st_asked st) (S (st_apps st)) (st_projectId st)).

Definition get_apps : M nat := fun st => (Ret (st_apps st), st).
Definition get_projectId : M value := fun st => (Ret (st_projectId st), st).
Definition set_projectId (v : value) : M unit :=
  fun st => (Ret tt, mk_state (st_fs st) (st_trace st) (st_asked st) (st_apps st) v).

(** Lines 103-141: the credential, by explicit path, by environment or by
    the scan. *)
Definition initAdmin_credential (serviceAccountPath : value) : M credential :=
  if truthy serviceAccountPath then
    full <- path_resolve_value serviceAccountPath ;;
    ex <- existsSync full ;;
    if negb ex then throw (Error ("Service account file not found: " ++ full))
    else
      sa <- require full ;;
      admin_credential_cert sa
  else if truthy (env w "GOOGLE_APPLICATION_CREDENTIALS") then
    admin_credential_applicationDefault
  else
    let candidateDir := path_resolve w ".firebase" in
    ex <- existsSync candidateDir ;;
    isdir <- (if ex then statSync_isDirectory candidateDir else ret false) ;;
    if isdir then
      names <- readdirSync candidateDir ;;
      let files := filter (fun f => endsWith f ".json") names in
      picked <- pick_service_account candidateDir files ;;
      match picked with
      | Some p =>
          sa <- require p ;;
          admin_credential_cert sa
      | None =>
          throw (Error "No service account found. Place a service account JSON in .firebase/ or pass --serviceAccount or set GOOGLE_APPLICATION_CREDENTIALS env var.")
      end
    else
      throw (Error "No service account provided. Pass --serviceAccount or set GOOGLE_APPLICATION_CREDENTIALS env var, or put a service account JSON into .firebase/").

Definition initAdmin (serviceAccountPath : value) : M unit :=
  n <- get_apps ;;
  if (0 <? n)%nat then ret tt
  else
    cred <- initAdmin_credential serviceAccountPath ;;
    projectId <- get_projectId ;;
    let chosen := js_or projectId (env w "FIREBASE_PROJECT_ID") in
    admin_initializeApp
      (mk_options cred (if truthy chosen then chosen else VUndefined)).

(** *** Lines 150-152 *)

Definition createCustomToken (uid : value) : M string :=
  emit (CreateCustomToken uid) ;;
  lift_sum (auth_createCustomToken w uid).

(** *** Lines 6-14 and 154-176 *)

Definition loadFetch : M unit :=
  emit ImportFetch ;;
  lift_check (import_node_fetch w).

Definition exchange_url (apiKey : value) : string :=
  "https://identitytoolkit.googleapis.com/v1/accounts:signInWithCustomToken?key="
  ++ encodeURIComponent (to_string apiKey).

Definition exchange_body (customToken : string) : string :=
  match stringify (VObj [("token", VStr customToken); ("returnSecureToken", VBool true)]) with
  | Some text => text
  | None => ""
  end.

(** [res.json()]. *)
Definition res_json (res : response) : M value :=
  match json_parse (res_body res) with
  | Some v => ret v
  | None => throw (SyntaxError "invalid json response body")
  end.

(** [data && data.error && data.error.message ? data.error.message
    : JSON.stringify(data)]. *)
Definition exchange_error_detail (data : value) : value :=
  if truthy (js_and (js_and data (get_prop data "error"))
                    (get_prop (get_prop data "error") "message"))
  then get_prop (get_prop data "error") "message"
  else match stringify data with
       | Some text => VStr text
       | None => VUndefined
       end.

Definition exchangeCustomTokenForIdToken (customToken : string) (apiKey : value) : M value :=
  if negb (truthy apiKey) then
    throw (Error "Need Firebase Web API key to exchange custom token for ID token (FIREBASE_API_KEY or --apiKey)")
  else
    let url := exchange_url apiKey in
    loadFetch ;;
    emit (Fetch url "POST" [("Content-Type", "application/json")] (exchange_body customToken)) ;;
    res <- lift_sum (node_fetch w url (exchange_body customToken)) ;;
    data <- res_json res ;;
    if negb (res_ok res) then
      throw (Error ("Failed to exchange custom token: " ++ to_string (exchange_error_detail data)))
    else ret data.

(** *** Lines 178-258: [main], step by step *)

(** Lines 184-198. *)
Definition main_load_cache (uid serviceAccount apiKey : value) : M (value * value * value) :=
  cache <- readCache ;;
  if truthy cache then
    projectId <- get_projectId ;;
    let anyFlag :=
      js_or (js_or (js_or (argv_uid w) (argv_serviceAccount w)) (argv_apiKey w)) projectId in
    if negb (truthy anyFlag) then
      load <- prompt ("Found saved setup from " ++ toLocaleString w (get_prop cache "timestamp")
                      ++ ". Load it? (y/N): ") ;;
      if (toLowerCase load =? "y")%string || (toLowerCase load =? "yes")%string then
        set_projectId (js_or projectId (get_prop cache "projectId")) ;;
        console_log [colorText "Loaded cached setup." colors_dim] ;;
        ret (js_or uid (get_prop cache "uid"),
             js_or serviceAccount (get_prop cache "serviceAccount"),
             js_or apiKey (get_prop cache "apiKey"))
      else ret (uid, serviceAccount, apiKey)
    else ret (uid, serviceAccount, apiKey)
  else ret (uid, serviceAccount, apiKey).

(** Lines 200-206. *)
Definition main_resolve_uid (uid : value) : M value :=
  if negb (truthy uid) then
    answer <- prompt "Enter UID to mint token for: " ;;
    if negb (truthy (VStr answer)) then
      console_error ["No UID provided, aborting."] ;;
      process_exit 1
    else ret (VStr answer)
  else ret uid.

(** Lines 208-211. *)
Definition main_resolve_apiKey (apiKey : value) : M value :=
  if negb (truthy apiKey) then
    maybe <- prompt "Enter Firebase Web API key (or press Enter to leave empty): " ;;
    if truthy (VStr maybe) then ret (VStr maybe) else ret apiKey
  else ret apiKey.

(** Lines 213-234. *)
Definition main_resolve_serviceAccount (serviceAccount : value) : M value :=
  if negb (truthy serviceAccount) then
    let candidateDir := path_resolve w ".firebase" in
    ex <- existsSync candidateDir ;;
    isdir <- (if ex then statSync_isDirectory candidateDir else ret false) ;;
    picked <- (if isdir then
                 names <- readdirSync candidateDir ;;
                 pick_service_account candidateDir (filter (fun f => endsWith f ".json") names)
               else ret None) ;;
    match picked with
    | Some p =>
        console_log [colorText "Auto-detected service account:" colors_dim;
                     colorText p colors_yellow] ;;
        ret (VStr p)
    | None =>
        ans <- prompt "Service account path not found. Enter path to service account JSON (or press Enter to abort): " ;;
        if truthy (VStr ans) then ret (VStr ans) else ret serviceAccount
    end
  else ret serviceAccount.

(** Lines 236-241. *)
Definition main_init (serviceAccount : value) : M unit :=
  try_catch
    (initAdmin serviceAccount)
    (fun err =>
       console_error ["Failed to initialize Firebase Admin:"; err_message err] ;;
       process_exit 2).

(** [err.message || err], as [colorText] prints it. *)
Definition error_text (err : error) : string :=
  if negb (err_message err =? "")%string then err_message err else error_to_string err.

(** Lines 243-257. *)
Definition main_tokens (uid serviceAccount apiKey : value) : M unit :=
  try_catch
    (customToken <- createCustomToken uid ;;
     console_log [colorText (nl ++ "Custom token created:") colors_green;
                  colorText customToken colors_dim] ;;
     exchanged <- exchangeCustomTokenForIdToken customToken apiKey ;;
     console_log [colorText (nl ++ "Exchanged token result:") colors_green] ;;
     console_log [colorText (to_string (stringify_pretty "" exchanged)) colors_yellow] ;;
     projectId <- get_projectId ;;
     try_catch
       (writeCache (VObj [("uid", uid);
                          ("serviceAccount", serviceAccount);
                          ("apiKey", apiKey);
                          ("projectId", js_or projectId (env w "FIREBASE_PROJECT_ID"));
                          ("timestamp", VNum (now w))]))
       (fun _ => ret tt))
    (fun err =>
       console_error [colorText "Error:" colors_red; colorText (error_text err) colors_red] ;;
       process_exit 3).

(** Lines 179-234: the three inputs of the run. *)
Definition main_inputs : M (value * value * value) :=
  let uid := argv_uid w in
  let serviceAccount := js_or (argv_serviceAccount w) (env w "GOOGLE_APPLICATION_CREDENTIALS") in
  let apiKey := js_or (argv_apiKey w) (env w "FIREBASE_API_KEY") in
  loaded <- main_load_cache uid serviceAccount apiKey ;;
  let '(uid, serviceAccount, apiKey) := loaded in
  uid <- main_resolve_uid uid ;;
  apiKey <- main_resolve_apiKey apiKey ;;
  serviceAccount <- main_resolve_serviceAccount serviceAccount ;;
  ret (uid, serviceAccount, apiKey).

Definition main : M unit :=
  inputs <- main_inputs ;;
  let '(uid, serviceAccount, apiKey) := inputs in
  main_init serviceAccount ;;
  main_tokens uid serviceAccount apiKey.

End Program.

(** A whole run, from a fresh process. *)
Definition run (w : world) : outcome unit * state := main w (initial_state w).

(** ** Vocabulary of the statements *)

(** UTF-8 encodings of the white space and line terminator code points. *)
Definition bytes (l : list nat) : string := string_of_list_ascii (map ascii_of_nat l).

Definition white_space_code_points : list string :=
  map bytes
    [[9]; [10]; [11]; [12]; [13]; [32]; [194; 160]; [225; 154; 128];
     [226; 128; 128]; [226; 128; 129]; [226; 128; 130]; [226; 128; 131];
     [226; 128; 132]; [226; 128; 133]; [226; 128; 134]; [226; 128; 135];
     [226; 128; 136]; [226; 128; 137]; [226; 128; 138]; [226; 128; 168];
     [226; 128; 169]; [226; 128; 175]; [226; 129; 159]; [227; 128; 128];
     [239; 187; 191]].

(** The calls that leave the machine: the HTTPS request of the exchange and
    the minting call of the administrative SDK. *)
Definition network_call (e : event) : bool :=
  match e with
  | Fetch _ _ _ _ | CreateCustomToken _ => true
  | _ => false
  end.

Definition is_fetch (e : event) : bool :=
  match e with
  | Fetch _ _ _ _ | ImportFetch => true
  | _ => false
  end.

(** The cache file as [readCache] sees it. *)
Definition cache_content (w : world) (st : state) : option string :=
  match st_fs st (CACHE_FILE w) with
  | Some (File c) => if read_denied w (CACHE_FILE w) then None else Some c
  | _ => None
  end.

(** ** Sample worlds

    A POSIX machine whose working directory is [/work]. *)

(** [path.resolve] for an absolute path and for a relative one that starts
    with a name or with [./]. *)
Definition posix_resolve (p : string) : string :=
  if prefix "/" p then p
  else match strip_prefix "./" p with
       | Some rest => "/work/" ++ rest
       | None => "/work/" ++ p
       end.

Definition posix_join (dir f : string) : string := dir ++ "/" ++ f.

(** What follows the last [/]; [name] is what follows the last one seen. *)
Fixpoint basename_from (name p : string) : string :=
  match p with
  | EmptyString => name
  | String c r => if (c =? "/")%char then basename_from r r else basename_from name r
  end.

Definition posix_basename (p : string) : string := basename_from p p.

(** A double-quoted token of a JSON text. *)
Definition q (s : string) : string := String dquote (s ++ str1 dquote).

Definition no_env : string -> value := fun _ => VUndefined.

Definition set_env (k v : string) (e : string -> value) : string -> value :=
  fun x => if (x =? k)%string then VStr v else e x.

Definition empty_disk : string -> option node := fun _ => None.

Definition put (p : string) (n : node) (d : string -> option node) : string -> option node :=
  fun x => if (x =? p)%string then Some n else d x.

Definition silent : nat -> string := fun _ => EmptyString.

Definition ok_response : response :=
  mk_response true
    ("{" ++ q "idToken" ++ ":" ++ q "ID" ++ "," ++ q "refreshToken" ++ ":" ++ q "RT" ++ ","
     ++ q "expiresIn" ++ ":" ++ q "3600" ++ "," ++ q "localId" ++ ":" ++ q "u1" ++ "}").

(** A machine on which the SDK and the network behave: minting returns
    [CUSTOM.TOKEN], the exchange endpoint answers [net]. *)
Definition machine (uid serviceAccount apiKey projectId : value)
    (e : string -> value) (d : string -> option node) (typed : nat -> string)
    (net : response) : world :=
  {| argv_uid := uid;
     argv_serviceAccount := serviceAccount;
     argv_apiKey := apiKey;
     argv_projectId := projectId;
     env := e;
     path_resolve := posix_resolve;
     path_join := posix_join;
     path_basename := posix_basename;
     disk := d;
     read_denied := fun _ => false;
     write_denied := fun _ => false;
     answers := typed;
     readline_promises := true;
     toLocaleString := fun v => to_string v;
     now := 1700000000000%Z;
     load_module := fun _ => inr (SyntaxError "Unexpected token");
     load_package := fun p => inr (Error ("Cannot find module " ++ p));
     credential_cert := fun _ => None;
     credential_applicationDefault := None;
     initializeApp := fun _ => None;
     auth_createCustomToken := fun _ => inl "CUSTOM.TOKEN";
     import_node_fetch := None;
     node_fetch := fun _ _ => inl net |}.

Definition service_account_json : string :=
  "{" ++ q "client_email" ++ ":" ++ q "sa@proj.iam.gserviceaccount.com" ++ ","
  ++ q "private_key" ++ ":" ++ q "PEM" ++ "}".

(** A cache file that holds only blanks and line ends. *)
Definition blank_cache_world : world :=
  machine (VStr "u1") VUndefined (VStr "k1") VUndefined no_env
    (put "/work/.token-helper-cache" (File (concat EmptyString [" "; nl; bytes [9]; " "; nl]))
       empty_disk)
    silent ok_response.

(** A cache file cut short: the first bytes of a valid one. *)
Definition truncated_cache_world : world :=
  machine (VStr "u1") VUndefined (VStr "k1") VUndefined no_env
    (put "/work/.token-helper-cache" (File "eyJ1aWQiOiJ1MSIsInNlcnZpY2VBY2Nv") empty_disk)
    silent ok_response.

(** ** Values that a JSON round trip reproduces exactly

    No [undefined] inside, numbers in the safe integer range, property names
    distinct and in enumeration order. *)

(** No name precedes an earlier one. *)
Fixpoint ordered_keys (ks : list string) : bool :=
  match ks with
  | [] => true
  | k :: rest => forallb (fun k' => negb (precedes k' k)) rest && ordered_keys rest
  end.

Fixpoint nodupb (l : list string) : bool :=
  match l with
  | [] => true
  | x :: rest => negb (existsb (String.eqb x) rest) && nodupb rest
  end.

Fixpoint json_exact (v : value) : bool :=
  match v with
  | VUndefined => false
  | VNull | VBool _ | VStr _ => true
  | VNum z => (Z.abs z <? 2 ^ 53)%Z
  | VDouble _ => false
  | VArr l => forallb json_exact l
  | VObj ps =>
      forallb (fun kv => json_exact (snd kv)) ps && nodupb (map fst ps)
      && ordered_keys (map fst ps)
  end.

(** The number of nested parser calls a value needs. *)
Fixpoint size (v : value) : nat :=
  match v with
  | VArr l => S (list_sum (map (fun e => S (size e)) l))
  | VObj ps => S (list_sum (map (fun kv => S (size (snd kv))) ps))
  | _ => 1
  end.

(** What may follow a value inside a JSON text. *)
Definition delimited (rest : string) : bool :=
  match rest with
  | EmptyString => true
  | String c _ => (c =? ",")%char || (c =? "]")%char || (c =? "}")%char
  end.

(** Printable ASCII: not white space, not part of a multi-byte code point. *)
Definition plain (c : ascii) : bool :=
  (32 <? nat_of_ascii c)%nat && (nat_of_ascii c <? 127)%nat.

Fixpoint all_plain (s : string) : bool :=
  match s with
  | EmptyString => true
  | String c r => plain c && all_plain r
  end.

Definition digit_head (s : string) : bool :=
  match s with
  | String c _ => match digit_cons c with Some _ => true | None => false end
  | EmptyString => false
  end.

(** The first character of a number literal. *)
Definition numeric_start (c : ascii) : bool :=
  (c =? "-")%char || match digit_cons c with Some _ => true | None => false end.

(** The text of an array element: [null] in place of [undefined]. *)
Definition text_of (v : value) : string :=
  match stringify v with
  | Some t => t
  | None => "null"
  end.

Definition member_text (kv : string * value) : string :=
  json_quote (fst kv) ++ ":" ++ text_of (snd kv).

(** The first character of the text of a value. *)
Definition value_start (c : ascii) : bool :=
  numeric_start c || (c =? dquote)%char || (c =? "[")%char || (c =? "{")%char
  || (c =? "n")%char || (c =? "t")%char || (c =? "f")%char.

(** A value whose text parses back to it, whatever delimiter follows. *)
Definition roundtrips (v : value) : Prop :=
  json_exact v = true ->
  forall fuel rest, size v <= fuel -> delimited rest = true ->
  parse_value fuel (text_of v ++ rest) = Some (v, rest).

(** ** Answers in plain text

    A JSON value whose strings and property names are ASCII and whose numbers
    are safe integers: the texts that [JSON.stringify] and the console give
    for it are plain byte for byte. *)

Fixpoint ascii_text (s : string) : bool :=
  match s with
  | EmptyString => true
  | String c r => (nat_of_ascii c <? 128)%nat && ascii_text r
  end.

Fixpoint plain_json (v : value) : bool :=
  match v with
  | VUndefined | VDouble _ => false
  | VNull | VBool _ => true
  | VNum z => (Z.abs z <? 2 ^ 53)%Z
  | VStr s => ascii_text s
  | VArr l => forallb plain_json l
  | VObj ps => forallb (fun kv => ascii_text (fst kv) && plain_json (snd kv)) ps
  end.

(** ** What [writeCache] can store

    A property holds either [undefined] (it is then left out of the file) or
    an exact value. *)

Definition defined (v : value) : bool :=
  match v with
  | VUndefined => false
  | _ => true
  end.

Definition storable (v : value) : bool :=
  match v with
  | VUndefined => true
  | _ => json_exact v
  end.

(** The properties [JSON.stringify] writes. *)
Definition kept (ps : list (string * value)) : list (string * value) :=
  filter (fun kv => defined (snd kv)) ps.

(** A run has just printed its tokens and holds them next to the setup. *)
Definition setup_with_tokens : value :=
  VObj [("uid", VStr "u1");
        ("serviceAccount", VStr "/work/sa.json");
        ("apiKey", VStr "k1");
        ("projectId", VUndefined);
        ("timestamp", VNum 1700000000000);
        ("customToken", VStr "CUSTOM.TOKEN");
        ("idToken", VStr "ID");
        ("refreshToken", VStr "RT")].

Definition plain_world : world :=
  machine (VStr "u1") VUndefined (VStr "k1") VUndefined no_env empty_disk silent ok_response.

(** Lines 71-74: the copy without the two token fields. *)
Definition safe_of (ps : list (string * value)) : list (string * value) :=
  delete_prop "refreshToken" (delete_prop "idToken" (object_assign_empty (VObj ps))).

(** The fields that hold a secret token: the two of the exchange, and the
    custom token under the name the program gives it (line 244). *)
Definition secret_token_field (k : string) : bool :=
  (k =? "idToken")%string || (k =? "refreshToken")%string || (k =? "customToken")%string.

(** The text [writeCache] puts in the file for an object. *)
Definition cache_text (ps : list (string * value)) : string :=
  base64_encode (text_of (VObj (kept (safe_of ps)))).

(** ** Frames

    [emits P m]: whatever [m] does, it only appends events that satisfy [P]
    to the trace.  [keeps m]: [m] leaves the file system and [admin.apps]
    alone. *)

Definition with_trace (st : state) (evs : list event) : state :=
  mk_state (st_fs st) (st_trace st ++ evs) (st_asked st) (st_apps st) (st_projectId st).

Definition emits {A} (P : event -> Prop) (m : M A) : Prop :=
  forall st, exists evs, st_trace (snd (m st)) = (st_trace st ++ evs)%list /\ Forall P evs.

Definition keeps {A} (m : M A) : Prop :=
  forall st, st_fs (snd (m st)) = st_fs st /\ st_apps (snd (m st)) = st_apps st.

(** Events of the input-gathering steps: console, prompt and file reads. *)
Definition local_event (e : event) : bool :=
  match e with
  | Log _ | LogError _ | Question _
  | ExistsSync _ | StatSync _ | ReaddirSync _ | ReadFileSync _ => true
  | _ => false
  end.

Definition local (e : event) : Prop := local_event e = true.

(** [--serviceAccount ./missing.json] on a machine without that file. *)
Definition missing_file_world : world :=
  machine (VStr "u1") (VStr "./missing.json") (VStr "k1") VUndefined no_env empty_disk silent
    ok_response.

(** The same command line without [--uid], the operator pressing Enter. *)
Definition missing_file_no_uid_world : world :=
  machine VUndefined (VStr "./missing.json") (VStr "k1") VUndefined no_env empty_disk silent
    ok_response.

(** The exchange endpoint answers HTTP 400 with the body
    [{"error":{"message":"INVALID_CUSTOM_TOKEN"}}]. *)
Definition invalid_custom_token_response : response :=
  mk_response false
    ("{" ++ q "error" ++ ":{" ++ q "message" ++ ":" ++ q "INVALID_CUSTOM_TOKEN" ++ "}}").

Definition service_account_disk : string -> option node :=
  put "/work/sa.json" (File service_account_json) empty_disk.

Definition invalid_custom_token_world : world :=
  machine (VStr "u1") (VStr "/work/sa.json") (VStr "k1") VUndefined no_env
    service_account_disk silent invalid_custom_token_response.

(** The line that announces the custom token. *)
Definition token_line (customToken : string) : event :=
  Log [colorText (nl ++ "Custom token created:") colors_green;
       colorText customToken colors_dim].

(** The line that reports a fatal error of the minting and exchange step. *)
Definition error_line (message : string) : event :=
  LogError [colorText "Error:" colors_red; colorText message colors_red].

(** ** The credential scan, in the words of its comment

    Line 122: "service account JSON contains client_email and private_key".
    The test of line 123 takes a field as contained when its value is truthy:
    a field that is absent, or holds the empty string or [null], does not
    count. *)

Definition has_service_account_fields (content : value) : bool :=
  truthy (get_prop content "client_email") && truthy (get_prop content "private_key").

(** A file that can be read, parses as JSON and has both fields. *)
Definition is_service_account_file (w : world) (fs : string -> option node) (full : string) : bool :=
  match fs full with
  | Some (File text) =>
      negb (read_denied w full)
      && match json_parse text with
         | Some content => has_service_account_fields content
         | None => false
         end
  | _ => false
  end.

(** An entry of the directory that the scan takes. *)
Definition candidate (w : world) (fs : string -> option node) (dir f : string) : bool :=
  endsWith f ".json" && is_service_account_file w fs (path_join w dir f).

(** The entries a loop with [break] looks at: up to the first hit. *)
Fixpoint take_through {A} (P : A -> bool) (l : list A) : list A :=
  match l with
  | [] => []
  | x :: rest => if P x then [x] else x :: take_through P rest
  end.

Definition any_event (e : event) : Prop := True.

Definition firebase_dir_disk : string -> option node :=
  put "/work/.firebase"
    (Dir ["notes.txt"; "broken.json"; "partial.json"; "blank.json"; "sa.json"; "other.json"])
    (put "/work/.firebase/notes.txt" (File service_account_json)
       (put "/work/.firebase/broken.json" (File "{ not json")
          (put "/work/.firebase/partial.json"
             (File ("{" ++ q "client_email" ++ ":" ++ q "x@y.z" ++ "}"))
             (put "/work/.firebase/blank.json"
                (File ("{" ++ q "client_email" ++ ":" ++ q "" ++ "," ++ q "private_key" ++ ":"
                       ++ q "PEM" ++ "}"))
                (put "/work/.firebase/sa.json" (File service_account_json)
                   (put "/work/.firebase/other.json" (File service_account_json)
                      empty_disk)))))).

(** A file that contains both fields, the first being empty. *)
Definition blank_field_json : string :=
  "{" ++ q "client_email" ++ ":" ++ q "" ++ "," ++ q "private_key" ++ ":" ++ q "PEM" ++ "}".

(** No flag for the credential, no environment variable, a [.firebase/]
    directory with five entries before and after the service account. *)
Definition auto_detect_world : world :=
  machine (VStr "u1") VUndefined (VStr "k1") VUndefined no_env firebase_dir_disk silent
    ok_response.

(** The same, with a directory of two files: the one with the empty field,
    then the service account. *)
Definition blank_first_world : world :=
  machine (VStr "u1") VUndefined (VStr "k1") VUndefined no_env
    (put "/work/.firebase" (Dir ["blank.json"; "sa.json"])
       (put "/work/.firebase/blank.json" (File blank_field_json)
          (put "/work/.firebase/sa.json" (File service_account_json) empty_disk)))
    silent ok_response.

(** The events of a scan of [dir] whose listing is [names]. *)
Definition scan_events (w : world) (fs : string -> option node) (dir : string)
    (names : list string) : list event :=
  [ExistsSync dir; StatSync dir; ReaddirSync dir]
  ++ map (fun f => ReadFileSync (path_join w dir f))
       (take_through (fun f => is_service_account_file w fs (path_join w dir f))
          (filter (fun f => endsWith f ".json") names)).

Definition no_service_account_found : error :=
  Error "No service account found. Place a service account JSON in .firebase/ or pass --serviceAccount or set GOOGLE_APPLICATION_CREDENTIALS env var.".

(** [returns R m]: whenever [m] returns a value, the value satisfies [R]. *)
Definition returns {A} (R : A -> Prop) (m : M A) : Prop :=
  forall st a st', m st = (Ret a, st') -> R a.

(** Anything but the call of [admin.credential.applicationDefault()]. *)
Definition not_default (e : event) : Prop := e <> CredentialApplicationDefault.

(** [GOOGLE_APPLICATION_CREDENTIALS] names a service-account file; no flag
    names one. *)
Definition env_credentials_world : world :=
  machine (VStr "u1") VUndefined (VStr "k1") VUndefined
    (set_env "GOOGLE_APPLICATION_CREDENTIALS" "/creds/sa.json" no_env)
    (put "/creds/sa.json" (File service_account_json) empty_disk)
    silent ok_response.

Definition service_account_value : value :=
  VObj [("client_email", VStr "sa@proj.iam.gserviceaccount.com"); ("private_key", VStr "PEM")].

(** A setup saved by an earlier run. *)
Definition cached_setup : list (string * value) :=
  [("uid", VStr "cached-uid");
   ("serviceAccount", VStr "/work/sa.json");
   ("apiKey", VStr "cached-key");
   ("projectId", VStr "cached-project");
   ("timestamp", VNum 1700000000000)].

Definition yes : nat -> string := fun _ => "y".

(** No flag; [FIREBASE_API_KEY] and [FIREBASE_PROJECT_ID] set in the
    environment; the saved setup on disk; the operator answers [y]. *)
Definition cached_setup_world : world :=
  machine VUndefined VUndefined VUndefined VUndefined
    (set_env "FIREBASE_API_KEY" "env-key" (set_env "FIREBASE_PROJECT_ID" "env-project" no_env))
    (put "/work/.token-helper-cache" (File (cache_text cached_setup)) service_account_disk)
    yes ok_response.

(** ** Steps that only append to the trace

    [logs P m]: [m] changes nothing of the state but the trace, to which it
    appends events that satisfy [P].  [never_exits m]: [m] returns or throws,
    it does not call [process.exit]. *)

Definition logs {A} (P : event -> Prop) (m : M A) : Prop :=
  forall st, exists evs, snd (m st) = with_trace st evs /\ Forall P evs.

Definition never_exits {A} (m : M A) : Prop :=
  forall st c, fst (m st) <> Exit c.

(** A saved setup followed by the line end an editor adds. *)
Definition cache_with_newline_world : world :=
  machine VUndefined VUndefined VUndefined VUndefined no_env
    (put "/work/.token-helper-cache" (File (cache_text cached_setup ++ nl)) service_account_disk)
    yes ok_response.

(** ** The exchange request and the saved setup *)

(** The request of lines 164-168. *)
Definition exchange_request (apiKey : value) (customToken : string) : event :=
  Fetch (exchange_url apiKey) "POST" [("Content-Type", "application/json")]
    (exchange_body customToken).

Definition need_apiKey : error :=
  Error "Need Firebase Web API key to exchange custom token for ID token (FIREBASE_API_KEY or --apiKey)".

(** The two lines that print the result of the exchange. *)
Definition result_lines (exchanged : value) : list event :=
  [Log [colorText (nl ++ "Exchanged token result:") colors_green];
   Log [colorText (to_string (stringify_pretty "" exchanged)) colors_yellow]].

(** The object of line 252, [projectId] being [argv.projectId] at that
    point. *)
Definition saved_setup (w : world) (uid serviceAccount apiKey projectId : value)
    : list (string * value) :=
  [("uid", uid);
   ("serviceAccount", serviceAccount);
   ("apiKey", apiKey);
   ("projectId", js_or projectId (env w "FIREBASE_PROJECT_ID"));
   ("timestamp", VNum (now w))].

(** An endpoint that refuses without saying why in [error.message]. *)
Definition bare_error_response : response :=
  mk_response false ("{" ++ q "error" ++ ":" ++ q "nope" ++ "}").

Definition bare_error_world : world :=
  machine (VStr "u1") (VStr "/work/sa.json") (VStr "k1") VUndefined no_env
    service_account_disk silent bare_error_response.

(** The same machine with another minting call. *)
Definition with_mint (w : world) (mint : value -> string + error) : world :=
  {| argv_uid := argv_uid w;
     argv_serviceAccount := argv_serviceAccount w;
     argv_apiKey := argv_apiKey w;
     argv_projectId := argv_projectId w;
     env := env w;
     path_resolve := path_resolve w;
     path_join := path_join w;
     path_basename := path_basename w;
     disk := disk w;
     read_denied := read_denied w;
     write_denied := write_denied w;
     answers := answers w;
     readline_promises := readline_promises w;
     toLocaleString := toLocaleString w;
     now := now w;
     load_module := load_module w;
     load_package := load_package w;
     credential_cert := credential_cert w;
     credential_applicationDefault := credential_applicationDefault w;
     initializeApp := initializeApp w;
     auth_createCustomToken := mint;
     import_node_fetch := import_node_fetch w;
     node_fetch := node_fetch w |}.

(** The SDK refuses to sign: the service account lacks the permission. *)
Definition mint_refused_world : world :=
  with_mint env_credentials_world
    (fun _ => inr (Error "Permission iam.serviceAccounts.signBlob denied")).

(** The same machine with other write permissions. *)
Definition with_write_denied (w : world) (denied : string -> bool) : world :=
  {| argv_uid := argv_uid w;
     argv_serviceAccount := argv_serviceAccount w;
     argv_apiKey := argv_apiKey w;
     argv_projectId := argv_projectId w;
     env := env w;
     path_resolve := path_resolve w;
     path_join := path_join w;
     path_basename := path_basename w;
     disk := disk w;
     read_denied := read_denied w;
     write_denied := denied;
     answers := answers w;
     readline_promises := readline_promises w;
     toLocaleString := toLocaleString w;
     now := now w;
     load_module := load_module w;
     load_package := load_package w;
     credential_cert := credential_cert w;
     credential_applicationDefault := credential_applicationDefault w;
     initializeApp := initializeApp w;
     auth_createCustomToken := auth_createCustomToken w;
     import_node_fetch := import_node_fetch w;
     node_fetch := node_fetch w |}.

(** The working directory cannot be written. *)
Definition read_only_world : world := with_write_denied plain_world (fun _ => true).

(** ** Events of [initAdmin] *)

(** What lines 103-141 may do: look at the disk, load a file, build a
    credential. *)
Definition credential_step (e : event) : bool :=
  match e with
  | ExistsSync _ | StatSync _ | ReaddirSync _ | ReadFileSync _ | Require _
  | CredentialCert _ | CredentialApplicationDefault => true
  | _ => false
  end.

(** What [initAdmin] may do when it is given the path [full], resolved. *)
Definition explicit_path_step (full : string) (e : event) : bool :=
  match e with
  | ExistsSync p | Require p => (p =? full)%string
  | CredentialCert _ | InitializeApp _ => true
  | _ => false
  end.

Definition no_service_account_provided : error :=
  Error "No service account provided. Pass --serviceAccount or set GOOGLE_APPLICATION_CREDENTIALS env var, or put a service account JSON into .firebase/".

(** Lines 143-145, case by case: the flag, else the variable, else nothing. *)
Definition projectId_option (w : world) (argv_projectId : value) : value :=
  if truthy argv_projectId then argv_projectId
  else if truthy (env w "FIREBASE_PROJECT_ID") then env w "FIREBASE_PROJECT_ID"
  else VUndefined.

(** [.firebase] is a regular file. *)
Definition firebase_is_a_file_world : world :=
  machine (VStr "u1") VUndefined (VStr "k1") VUndefined no_env
    (put "/work/.firebase" (File "notes") empty_disk) silent ok_response.

(** [--projectId flag-project] against [FIREBASE_PROJECT_ID=env-project]. *)
Definition projectId_flag_world : world :=
  machine (VStr "u1") (VStr "/work/sa.json") (VStr "k1") (VStr "flag-project")
    (set_env "FIREBASE_PROJECT_ID" "env-project" no_env)
    service_account_disk silent ok_response.

(** ** How a run ends *)

(** [exits_without_uid m]: [m] ends the process only with code 1, right
    after the line that says that no uid was given. *)
Definition exits_without_uid {A} (m : M A) : Prop :=
  forall st c st',
    m st = (Exit c, st') ->
    c = 1%Z
    /\ exists before, st_trace st' = (before ++ [LogError ["No UID provided, aborting."]])%list.

(** The minting call of the administrative SDK. *)
Definition is_mint (e : event) : bool :=
  match e with
  | CreateCustomToken _ => true
  | _ => false
  end.

(** ** More sample worlds *)

(** No flag at all, an empty disk, the operator typing blanks. *)
Definition blank_answers_world : world :=
  machine VUndefined VUndefined VUndefined VUndefined no_env empty_disk
    (fun _ => concat EmptyString [" "; bytes [9]]) ok_response.


(** A [.firebase/] directory that the process may not list. *)
Definition unreadable_directory_world : world :=
  {| argv_uid := VStr "u1";
     argv_serviceAccount := VUndefined;
     argv_apiKey := VStr "k1";
     argv_projectId := VUndefined;
     env := no_env;
     path_resolve := posix_resolve;
     path_join := posix_join;
     path_basename := posix_basename;
     disk := put "/work/.firebase" (Dir ["sa.json"])
               (put "/work/.firebase/sa.json" (File service_account_json) empty_disk);
     read_denied := fun p => (p =? "/work/.firebase")%string;
     write_denied := fun _ => false;
     answers := silent;
     readline_promises := true;
     toLocaleString := fun v => to_string v;
     now := 1700000000000%Z;
     load_module := fun _ => inr (SyntaxError "Unexpected token");
     load_package := fun p => inr (Error ("Cannot find module " ++ p));
     credential_cert := fun _ => None;
     credential_applicationDefault := None;
     initializeApp := fun _ => None;
     auth_createCustomToken := fun _ => inl "CUSTOM.TOKEN";
     import_node_fetch := None;
     node_fetch := fun _ _ => inl ok_response |}.

(** ** What a run may do to the outside

    A write goes to the cache file, with mode [0o600]; a request is a POST of
    JSON to the sign-in endpoint, over https. *)

Definition sign_in_endpoint : string :=
  "https://identitytoolkit.googleapis.com/v1/accounts:signInWithCustomToken".

Definition sanctioned (w : world) (e : event) : Prop :=
  match e with
  | WriteFileSync p _ mode => p = CACHE_FILE w /\ mode = 384%N
  | Fetch url method headers _ =>
      prefix (sign_in_endpoint ++ "?key=") url = true
      /\ method = "POST"
      /\ headers = [("Content-Type", "application/json")]
  | _ => True
  end.

(** The saved setup on disk and [--uid] on the command line. *)
Definition cache_and_flag_world : world :=
  machine (VStr "u1") VUndefined VUndefined VUndefined no_env
    (put "/work/.token-helper-cache" (File (cache_text cached_setup)) service_account_disk)
    yes ok_response.

(** ** The earlier text of [index.js], without the setup cache

    Lines 263-466 hold the program as it was before the cache: the same
    functions, without [encodeSafe], [decodeSafe], [readCache] and
    [writeCache].  Its [main] (lines 401-461) gathers the inputs without
    looking for a cache file and ends after printing the result. *)

Module WithoutCache.

(** Lines 402-441. *)
Definition main_inputs (w : world) : M (value * value * value) :=
  let uid := argv_uid w in
  let serviceAccount := js_or (argv_serviceAccount w) (env w "GOOGLE_APPLICATION_CREDENTIALS") in
  let apiKey := js_or (argv_apiKey w) (env w "FIREBASE_API_KEY") in
  uid <- main_resolve_uid w uid ;;
  apiKey <- main_resolve_apiKey w apiKey ;;
  serviceAccount <- main_resolve_serviceAccount w serviceAccount ;;
  ret (uid, serviceAccount, apiKey).

(** Lines 450-460. *)
Definition main_tokens (w : world) (uid apiKey : value) : M unit :=
  try_catch
    (customToken <- createCustomToken w uid ;;
     console_log [colorText (nl ++ "Custom token created:") colors_green;
                  colorText customToken colors_dim] ;;
     exchanged <- exchangeCustomTokenForIdToken w customToken apiKey ;;
     console_log [colorText (nl ++ "Exchanged token result:") colors_green] ;;
     console_log [colorText (to_string (stringify_pretty "" exchanged)) colors_yellow])
    (fun err =>
       console_error [colorText "Error:" colors_red; colorText (error_text err) colors_red] ;;
       process_exit 3).

Definition main (w : world) : M unit :=
  inputs <- main_inputs w ;;
  let '(uid, serviceAccount, apiKey) := inputs in
  main_init w serviceAccount ;;
  main_tokens w uid apiKey.

Definition run (w : world) : outcome unit * state := main w (initial_state w).

End WithoutCache.

(** [prepend pre st]: the state [st] with the events [pre] put before its
    trace.  [oblivious m]: [m] does not look at the trace; started after
    [pre], it does what it does without it. *)
Definition prepend (pre : list event) (st : state) : state :=
  mk_state (st_fs st) (pre ++ st_trace st) (st_asked st) (st_apps st) (st_projectId st).

Definition oblivious {A} (m : M A) : Prop :=
  forall pre st, m (prepend pre st) = (fst (m st), prepend pre (snd (m st))).

Definition is_write (e : event) : bool :=
  match e with
  | WriteFileSync _ _ _ => true
  | _ => false
  end.

(** * Properties *)

(** ** The monad *)

(** Unfolds the monad's operations and reduces the state projections. *)
Ltac run_monad :=
  cbv beta iota delta [bind ret throw process_exit try_catch emit lift_sum lift_check
                       get_apps get_projectId set_projectId console_log console_error];
  cbn [st_fs st_trace st_asked st_apps st_projectId fst snd].

Lemma bind_eq {A B} (m : M A) (k : A -> M B) st a st' :
  m st = (Ret a, st') -> bind m k st = k a st'.
Proof. intros H. unfold bind. now rewrite H. Qed.

Lemma bind_throw {A B} (m : M A) (k : A -> M B) st e st' :
  m st = (Throw e, st') -> bind m k st = (Throw e, st').
Proof. intros H. unfold bind. now rewrite H. Qed.

Lemma bind_exit {A B} (m : M A) (k : A -> M B) st c st' :
  m st = (Exit c, st') -> bind m k st = (Exit c, st').
Proof. intros H. unfold bind. now rewrite H. Qed.

Lemma try_catch_throw {A} (m : M A) h st e st' :
  m st = (Throw e, st') -> try_catch m h st = h e st'.
Proof. intros H. unfold try_catch. now rewrite H. Qed.

(** ** [trim] *)

Lemma trimStart_white_space c rest :
  In c white_space_code_points -> trimStart (c ++ rest) = trimStart rest.
Proof.
  unfold white_space_code_points. simpl.
  intros H. repeat (destruct H as [<- | H]; [reflexivity |]). destruct H.
Qed.

Lemma append_empty_r s : s ++ EmptyString = s.
Proof. induction s; simpl; congruence. Qed.

Lemma trimStart_blank chunks :
  Forall (fun c => In c white_space_code_points) chunks ->
  trimStart (concat EmptyString chunks) = EmptyString.
Proof.
  induction 1 as [| c l Hc Hl IH]; [reflexivity |].
  destruct l as [| d l'].
  - cbn [concat]. rewrite <- (append_empty_r c).
    now rewrite trimStart_white_space.
  - change (concat EmptyString (c :: d :: l'))
      with (c ++ EmptyString ++ concat EmptyString (d :: l')).
    cbn [append]. now rewrite trimStart_white_space.
Qed.

Lemma trim_blank chunks :
  Forall (fun c => In c white_space_code_points) chunks ->
  trim (concat EmptyString chunks) = EmptyString.
Proof. intros H. unfold trim. now rewrite trimStart_blank. Qed.

(** ** The setup cache *)

(** [readCache], in closed form: it returns, it touches nothing but the
    trace, and its value is [null] unless the file holds something that
    decodes. *)
Lemma readCache_eq w st :
  readCache w st =
  (Ret (match cache_content w st with
        | Some c =>
            if (trim c =? "")%string then VNull
            else match json_parse (base64_decode (trim c)) with
                 | Some v => v
                 | None => VNull
                 end
        | None => VNull
        end),
   mk_state (st_fs st)
     (st_trace st ++ ExistsSync (CACHE_FILE w)
        :: match st_fs st (CACHE_FILE w) with
           | Some _ => [ReadFileSync (CACHE_FILE w)]
           | None => []
           end)
     (st_asked st) (st_apps st) (st_projectId st)).
Proof.
  unfold readCache, cache_content, decodeSafe, existsSync, readFileSync. run_monad.
  destruct (st_fs st (CACHE_FILE w)) as [[c | l] |] eqn:E; cbn; rewrite ?E; cbn;
    rewrite <- ?List.app_assoc; cbn; try reflexivity.
  destruct (read_denied w (CACHE_FILE w)); cbn; [reflexivity |].
  destruct (trim c =? "")%string; cbn; [reflexivity |].
  destruct (json_parse (base64_decode (trim c))); reflexivity.
Qed.

(** C7. [readCache] never throws and never exits: it always returns a value.
    The value is [null] ("absent") when the cache file is missing, when it
    cannot be read, when it is empty after trimming, and when its content
    does not base64-decode to a JSON text. *)
Theorem readCache_never_throws (w : world) (st : state) :
  exists v st',
    readCache w st = (Ret v, st')
    /\ (st_fs st (CACHE_FILE w) = None -> v = VNull)
    /\ (cache_content w st = None -> v = VNull)
    /\ (forall c, cache_content w st = Some c -> trim c = EmptyString -> v = VNull)
    /\ (forall c, cache_content w st = Some c ->
                  json_parse (base64_decode (trim c)) = None -> v = VNull).
Proof.
  rewrite readCache_eq. eexists. eexists. split; [reflexivity |].
  repeat split.
  - intros H. unfold cache_content. now rewrite H.
  - intros H. now rewrite H.
  - intros c H E. now rewrite H, E.
  - intros c H E. rewrite H, E. now destruct (trim c =? "")%string.
Qed.

(** A cache file cut short reads as absent. *)
Example readCache_truncated :
  fst (readCache truncated_cache_world (initial_state truncated_cache_world)) = Ret VNull.
Proof. vm_compute. reflexivity. Qed.

(** C10. A cache file that holds nothing but white space (any sequence of
    the white space and line terminator code points) reads as absent. *)
Theorem readCache_blank_is_absent (w : world) (st : state) (chunks : list string) :
  Forall (fun c => In c white_space_code_points) chunks ->
  st_fs st (CACHE_FILE w) = Some (File (concat EmptyString chunks)) ->
  fst (readCache w st) = Ret VNull.
Proof.
  intros Hws Hfile. rewrite readCache_eq. cbn [fst]. unfold cache_content.
  rewrite Hfile. destruct (read_denied w (CACHE_FILE w)); [reflexivity |].
  now rewrite (trim_blank chunks Hws).
Qed.

Lemma white_space_chunks (chunks : list string) :
  forallb (fun c => existsb (String.eqb c) white_space_code_points) chunks = true ->
  Forall (fun c => In c white_space_code_points) chunks.
Proof.
  intros H. apply Forall_forall. intros c Hc.
  rewrite forallb_forall in H. specialize (H c Hc).
  apply existsb_exists in H. destruct H as [d [Hd E]].
  apply String.eqb_eq in E. now subst.
Defined.

Lemma readCache_blank_is_absent_witness :
  fst (readCache blank_cache_world (initial_state blank_cache_world)) = Ret VNull.
Proof.
  apply (readCache_blank_is_absent blank_cache_world (initial_state blank_cache_world)
           [" "; nl; bytes [9]; " "; nl]).
  - apply white_space_chunks. vm_compute. reflexivity.
  - vm_compute. reflexivity.
Defined.

(** ** The token exchanger *)

(** C4. With a falsy API key (undefined, null or the empty string) the
    exchanger throws at once: the state it returns is the state it was given,
    so nothing was imported, no request was built and none was sent.  The
    step of [main] that calls it then ends the run with code 3 without a
    single event of the HTTP client. *)
Theorem exchange_without_apiKey (w : world) (customToken : string) (apiKey : value) (st : state) :
  truthy apiKey = false ->
  exchangeCustomTokenForIdToken w customToken apiKey st
  = (Throw (Error "Need Firebase Web API key to exchange custom token for ID token (FIREBASE_API_KEY or --apiKey)"),
     st)
  /\ forall uid serviceAccount,
       exists evs,
         main_tokens w uid serviceAccount apiKey st = (Exit 3, with_trace st evs)
         /\ Forall (fun e => is_fetch e = false) evs.
Proof.
  intros H. split; [unfold exchangeCustomTokenForIdToken; now rewrite H |].
  intros uid serviceAccount.
  unfold main_tokens, createCustomToken, exchangeCustomTokenForIdToken, with_trace.
  rewrite H. run_monad.
  destruct (auth_createCustomToken w uid) as [tok | err]; cbn;
    eexists; (split; [rewrite <- !List.app_assoc; reflexivity | repeat constructor]).
Qed.

Lemma exchange_without_apiKey_witness :
  exchangeCustomTokenForIdToken blank_cache_world "CUSTOM.TOKEN" (VStr EmptyString)
    (initial_state blank_cache_world)
  = (Throw (Error "Need Firebase Web API key to exchange custom token for ID token (FIREBASE_API_KEY or --apiKey)"),
     initial_state blank_cache_world).
Proof.
  apply (exchange_without_apiKey blank_cache_world "CUSTOM.TOKEN" (VStr EmptyString)).
  reflexivity.
Defined.

(** ** Base64 *)

Lemma unbase64_b64_char n : n < 64 -> unbase64 (b64_char n) = Some n.
Proof.
  intros H.
  do 64 (destruct n as [| n]; [reflexivity |]). lia.
Qed.

Lemma sextets_b64_char n r : n < 64 -> sextets (String (b64_char n) r) = n :: sextets r.
Proof. intros H. cbn [sextets]. now rewrite unbase64_b64_char. Qed.

Lemma nat_of_ascii_bound c : nat_of_ascii c < 256.
Proof. destruct c as [[] [] [] [] [] [] [] []]; vm_compute; lia. Qed.

Lemma string_ind3 (P : string -> Prop) :
  P EmptyString ->
  (forall a, P (String a EmptyString)) ->
  (forall a b, P (String a (String b EmptyString))) ->
  (forall a b c r, P r -> P (String a (String b (String c r)))) ->
  forall s, P s.
Proof.
  intros H0 H1 H2 H3.
  fix IH 1. intros [| a [| b [| c r]]]; [apply H0 | apply H1 | apply H2 | apply H3, IH].
Qed.

Lemma div_pack h l k : l < k -> (h * k + l) / k = h.
Proof.
  intros H. rewrite Nat.div_add_l by lia. rewrite Nat.div_small by lia. lia.
Qed.

Lemma mod_pack h l k : l < k -> (h * k + l) mod k = l.
Proof.
  intros H. rewrite Nat.add_comm, Nat.Div0.mod_add. now apply Nat.mod_small.
Qed.

(** Decoding undoes encoding. *)
Lemma base64_decode_encode s : base64_decode (base64_encode s) = s.
Proof.
  unfold base64_decode.
  induction s as [| a | a b | a b c r IH] using string_ind3.
  - reflexivity.
  - cbn [base64_encode].
    pose proof (nat_of_ascii_bound a) as Ha.
    pose proof (Nat.div_mod_eq (nat_of_ascii a) 4) as Ea.
    pose proof (Nat.mod_upper_bound (nat_of_ascii a) 4 ltac:(lia)) as Ma.
    assert (nat_of_ascii a / 4 < 64) by (apply Nat.Div0.div_lt_upper_bound; lia).
    rewrite !sextets_b64_char by lia.
    change (sextets "==") with (@nil nat). cbn [bytes_of_sextets str1].
    replace (nat_of_ascii a / 4 * 4 + nat_of_ascii a mod 4 * 16 / 16) with (nat_of_ascii a).
    + now rewrite ascii_nat_embedding.
    + rewrite Nat.div_mul by lia. lia.
  - cbn [base64_encode].
    pose proof (nat_of_ascii_bound a) as Ha. pose proof (nat_of_ascii_bound b) as Hb.
    pose proof (Nat.div_mod_eq (nat_of_ascii a) 4) as Ea.
    pose proof (Nat.mod_upper_bound (nat_of_ascii a) 4 ltac:(lia)) as Ma.
    pose proof (Nat.div_mod_eq (nat_of_ascii b) 16) as Eb.
    pose proof (Nat.mod_upper_bound (nat_of_ascii b) 16 ltac:(lia)) as Mb.
    assert (nat_of_ascii a / 4 < 64) by (apply Nat.Div0.div_lt_upper_bound; lia).
    assert (nat_of_ascii b / 16 < 16) by (apply Nat.Div0.div_lt_upper_bound; lia).
    rewrite !sextets_b64_char by lia.
    change (sextets "=") with (@nil nat). cbn [bytes_of_sextets str1].
    rewrite div_pack, mod_pack by lia. rewrite Nat.div_mul by lia.
    replace (nat_of_ascii a / 4 * 4 + nat_of_ascii a mod 4) with (nat_of_ascii a) by lia.
    replace (nat_of_ascii b / 16 * 16 + nat_of_ascii b mod 16) with (nat_of_ascii b) by lia.
    now rewrite !ascii_nat_embedding.
  - cbn [base64_encode].
    pose proof (nat_of_ascii_bound a) as Ha. pose proof (nat_of_ascii_bound b) as Hb.
    pose proof (nat_of_ascii_bound c) as Hc.
    pose proof (Nat.div_mod_eq (nat_of_ascii a) 4) as Ea.
    pose proof (Nat.mod_upper_bound (nat_of_ascii a) 4 ltac:(lia)) as Ma.
    pose proof (Nat.div_mod_eq (nat_of_ascii b) 16) as Eb.
    pose proof (Nat.mod_upper_bound (nat_of_ascii b) 16 ltac:(lia)) as Mb.
    pose proof (Nat.div_mod_eq (nat_of_ascii c) 64) as Ec.
    pose proof (Nat.mod_upper_bound (nat_of_ascii c) 64 ltac:(lia)) as Mc.
    assert (nat_of_ascii a / 4 < 64) by (apply Nat.Div0.div_lt_upper_bound; lia).
    assert (nat_of_ascii b / 16 < 16) by (apply Nat.Div0.div_lt_upper_bound; lia).
    assert (nat_of_ascii c / 64 < 4) by (apply Nat.Div0.div_lt_upper_bound; lia).
    rewrite !sextets_b64_char by lia.
    cbn [bytes_of_sextets]. rewrite IH.
    rewrite !div_pack, !mod_pack by lia.
    replace (nat_of_ascii a / 4 * 4 + nat_of_ascii a mod 4) with (nat_of_ascii a) by lia.
    replace (nat_of_ascii b / 16 * 16 + nat_of_ascii b mod 16) with (nat_of_ascii b) by lia.
    replace (nat_of_ascii c / 64 * 64 + nat_of_ascii c mod 64) with (nat_of_ascii c) by lia.
    now rewrite !ascii_nat_embedding.
Qed.

(** ** Values *)

Lemma value_ind (P : value -> Prop) :
  P VUndefined -> P VNull -> (forall b, P (VBool b)) -> (forall z, P (VNum z)) ->
  (forall d, P (VDouble d)) -> (forall s, P (VStr s)) ->
  (forall l, Forall P l -> P (VArr l)) ->
  (forall ps, Forall (fun kv => P (snd kv)) ps -> P (VObj ps)) ->
  forall v, P v.
Proof.
  intros Hu Hn Hb Hz Hd Hs Ha Ho.
  fix IH 1. intros [| | b | z | d | s | l | ps].
  - exact Hu.
  - exact Hn.
  - apply Hb.
  - apply Hz.
  - apply Hd.
  - apply Hs.
  - apply Ha. induction l as [| e l IHl]; constructor; [apply IH | exact IHl].
  - apply Ho. induction ps as [| [k e] ps IHps]; constructor; [apply IH | exact IHps].
Qed.

(** ** Strings *)

Lemma append_assoc_s (a b c : string) : (a ++ b) ++ c = a ++ b ++ c.
Proof. induction a; cbn; congruence. Qed.

Lemma length_append_s (a b : string) : length (a ++ b) = length a + length b.
Proof. induction a; cbn; congruence. Qed.

(** ** JSON: parsing what [stringify] wrote *)

Lemma parse_string_body_escape c t :
  parse_string_body (escape_char c ++ t)
  = match parse_string_body t with
    | Some (u, rest) => Some (String c u, rest)
    | None => None
    end.
Proof.
  destruct c as [[] [] [] [] [] [] [] []]; reflexivity.
Qed.

Lemma parse_string_body_quote s rest :
  parse_string_body (quote_body s ++ String dquote rest) = Some (s, rest).
Proof.
  induction s as [| c s IH]; [reflexivity |].
  cbn [quote_body]. rewrite append_assoc_s, parse_string_body_escape.
  now rewrite IH.
Qed.

Lemma parse_value_string fuel r :
  parse_value (S fuel) (String dquote r)
  = match parse_string_body r with
    | Some (t, rest) => Some (VStr t, rest)
    | None => None
    end.
Proof. reflexivity. Qed.

Lemma json_quote_parse s rest fuel :
  parse_value (S fuel) (json_quote s ++ rest) = Some (VStr s, rest).
Proof.
  unfold json_quote. cbn [append]. rewrite parse_value_string.
  rewrite append_assoc_s. cbn [append str1].
  now rewrite parse_string_body_quote.
Qed.

Lemma read_digits_string_of_uint d rest :
  digit_head rest = false ->
  read_digits (NilEmpty.string_of_uint d ++ rest) = (d, rest).
Proof.
  intros H. induction d; cbn [NilEmpty.string_of_uint append];
    try (cbn [read_digits]; change (digit_cons _) with (Some D0) || idtac;
         cbn; rewrite IHd; reflexivity).
  destruct rest as [| c r]; [reflexivity |].
  cbn [read_digits]. cbn [digit_head] in H.
  now destruct (digit_cons c).
Qed.

Lemma delimited_digit_head rest : delimited rest = true -> digit_head rest = false.
Proof.
  destruct rest as [| c r]; [reflexivity |].
  destruct c as [[] [] [] [] [] [] [] []]; cbn; intros H; try discriminate; reflexivity.
Qed.

Lemma delimited_read_fraction rest :
  delimited rest = true -> read_fraction rest = Some (Nil, rest).
Proof.
  destruct rest as [| c r]; [reflexivity |].
  destruct c as [[] [] [] [] [] [] [] []]; cbn; intros H; try discriminate; reflexivity.
Qed.

Lemma delimited_read_exponent rest :
  delimited rest = true -> read_exponent rest = Some (0%Z, rest).
Proof.
  destruct rest as [| c r]; [reflexivity |].
  destruct c as [[] [] [] [] [] [] [] []]; cbn; intros H; try discriminate; reflexivity.
Qed.

Lemma to_uint_head p d : Pos.to_uint p <> D0 d.
Proof.
  intros E.
  assert (U : unorm (Pos.to_uint p) = Pos.to_uint p).
  { rewrite <- DecimalPos.Unsigned.to_of, DecimalPos.Unsigned.of_to. reflexivity. }
  rewrite E in U. rewrite unorm_D0 in U. unfold unorm in U.
  destruct (nzhead d) eqn:N; try discriminate U.
  - injection U as <-. now apply (DecimalPos.Unsigned.to_uint_nonzero p).
  - now apply (nzhead_nonzero d u).
Qed.

(** An integer literal of the safe range denotes its integer. *)
Lemma number_of_integer neg z digits :
  (0 <= z < 2 ^ 53)%Z ->
  number_of_decimal neg (z * 10 ^ Z.of_nat 0 + Z.of_uint Nil) (0 - Z.of_nat 0) digits
  = VNum (signed neg z).
Proof.
  intros Hz. change (Z.of_nat 0) with 0%Z. change (Z.of_uint Nil) with 0%Z.
  rewrite Z.pow_0_r, Z.mul_1_r, Z.add_0_r. change (0 - 0)%Z with 0%Z.
  unfold number_of_decimal.
  destruct (Z.eqb_spec z 0) as [-> | N]; [now destruct neg |].
  unfold safe_integer. cbn [Z.leb Z.compare]. rewrite Z.pow_0_r, Z.mul_1_r.
  destruct (Z.ltb_spec z (2 ^ 53)) as [_ | B]; [reflexivity | lia].
Qed.

Lemma parse_number_digits d rest :
  delimited rest = true -> d <> Nil -> (forall d', d = D0 d' -> d' = Nil) ->
  (Z.of_uint d < 2 ^ 53)%Z ->
  parse_number (NilEmpty.string_of_uint d ++ rest) = Some (VNum (Z.of_int (Pos d)), rest)
  /\ parse_number (String "-" (NilEmpty.string_of_uint d ++ rest))
     = Some (VNum (Z.of_int (Neg d)), rest).
Proof.
  intros Hr Hn Hz Hb.
  pose proof (read_digits_string_of_uint d rest (delimited_digit_head rest Hr)) as R.
  pose proof (delimited_read_fraction rest Hr) as F.
  pose proof (delimited_read_exponent rest Hr) as X.
  assert (P : (0 <= Z.of_uint d < 2 ^ 53)%Z).
  { split; [| exact Hb]. unfold Z.of_uint. apply N2Z.is_nonneg. }
  split.
  - unfold parse_number.
    replace (match NilEmpty.string_of_uint d ++ rest with
             | String "-" r => (true, r)
             | _ => (false, NilEmpty.string_of_uint d ++ rest)
             end) with (false, NilEmpty.string_of_uint d ++ rest)
      by (destruct d; try reflexivity; now destruct Hn).
    rewrite R, F, X. cbv beta iota zeta. cbn [nb_digits].
    rewrite (number_of_integer false _ _ P).
    destruct d as [| d | d | d | d | d | d | d | d | d | d]; try reflexivity; [now destruct Hn |].
    now rewrite (Hz d eq_refl).
  - unfold parse_number. rewrite R, F, X. cbv beta iota zeta. cbn [nb_digits].
    rewrite (number_of_integer true _ _ P).
    destruct d as [| d | d | d | d | d | d | d | d | d | d]; try reflexivity; [now destruct Hn |].
    now rewrite (Hz d eq_refl).
Qed.

Lemma nilzero_nonnil d : d <> Nil -> NilZero.string_of_uint d = NilEmpty.string_of_uint d.
Proof. destruct d; intros H; try reflexivity. now destruct H. Qed.

Lemma of_uint_to_uint p : Z.of_uint (Pos.to_uint p) = Z.pos p.
Proof. unfold Z.of_uint. now rewrite DecimalPos.Unsigned.of_to. Qed.

Lemma parse_number_string_of_Z z rest :
  delimited rest = true -> (Z.abs z < 2 ^ 53)%Z ->
  parse_number (string_of_Z z ++ rest) = Some (VNum z, rest).
Proof.
  intros Hr Hb. unfold string_of_Z.
  rewrite <- (DecimalZ.of_to z) at 2.
  destruct z as [| p | p]; cbn [Z.to_int NilZero.string_of_int].
  - rewrite nilzero_nonnil by discriminate.
    apply (parse_number_digits (D0 Nil) rest Hr); [discriminate | now intros d' [= <-] | reflexivity].
  - rewrite nilzero_nonnil by apply DecimalPos.Unsigned.to_uint_nonnil.
    apply (parse_number_digits (Pos.to_uint p) rest Hr).
    + apply DecimalPos.Unsigned.to_uint_nonnil.
    + intros d' E. now destruct (to_uint_head p d').
    + rewrite of_uint_to_uint. exact Hb.
  - rewrite nilzero_nonnil by apply DecimalPos.Unsigned.to_uint_nonnil.
    cbn [append].
    apply (parse_number_digits (Pos.to_uint p) rest Hr).
    + apply DecimalPos.Unsigned.to_uint_nonnil.
    + intros d' E. now destruct (to_uint_head p d').
    + rewrite of_uint_to_uint. exact Hb.
Qed.

Lemma parse_value_numeric fuel c r :
  numeric_start c = true -> parse_value (S fuel) (String c r) = parse_number (String c r).
Proof.
  destruct c as [[] [] [] [] [] [] [] []]; intros H; try discriminate H; reflexivity.
Qed.

Lemma string_of_Z_start z rest :
  exists c r, string_of_Z z ++ rest = String c r /\ numeric_start c = true.
Proof.
  unfold string_of_Z.
  destruct z as [| p | p]; cbn [Z.to_int NilZero.string_of_int NilZero.string_of_uint].
  - eexists. eexists. split; reflexivity.
  - rewrite nilzero_nonnil by apply DecimalPos.Unsigned.to_uint_nonnil.
    pose proof (DecimalPos.Unsigned.to_uint_nonnil p) as Hn.
    destruct (Pos.to_uint p); try (now destruct Hn);
      eexists; eexists; split; reflexivity.
  - eexists. eexists. split; reflexivity.
Qed.

Lemma parse_value_number fuel z rest :
  delimited rest = true -> (Z.abs z < 2 ^ 53)%Z ->
  parse_value (S fuel) (string_of_Z z ++ rest) = Some (VNum z, rest).
Proof.
  intros Hr Hb. destruct (string_of_Z_start z rest) as [c [r [E Hc]]].
  rewrite E, (parse_value_numeric fuel c r Hc), <- E.
  now apply parse_number_string_of_Z.
Qed.

Lemma parse_value_null fuel rest : parse_value (S fuel) ("null" ++ rest) = Some (VNull, rest).
Proof. reflexivity. Qed.

Lemma parse_value_true fuel rest :
  parse_value (S fuel) ("true" ++ rest) = Some (VBool true, rest).
Proof. reflexivity. Qed.

Lemma parse_value_false fuel rest :
  parse_value (S fuel) ("false" ++ rest) = Some (VBool false, rest).
Proof. reflexivity. Qed.

Lemma exact_defined v : json_exact v = true -> stringify v = Some (text_of v).
Proof.
  unfold text_of. destruct v as [| | [] | | | | |]; cbn; intros H; try reflexivity;
    discriminate.
Qed.

Lemma text_of_start v rest :
  json_exact v = true ->
  exists c r, text_of v ++ rest = String c r /\ value_start c = true.
Proof.
  unfold text_of. destruct v as [| | [] | z | d | s | l | ps]; cbn [stringify json_exact];
    intros H; try discriminate;
    try (eexists; eexists; split; reflexivity).
  destruct (string_of_Z_start z rest) as [c [r [E Hc]]].
  exists c, r. split; [exact E |]. unfold value_start. now rewrite Hc.
Qed.

Lemma parse_value_array fuel c r :
  value_start c = true ->
  parse_value (S fuel) (String "[" (String c r))
  = match parse_elements fuel (String c r) with
    | Some (l, rest) => Some (VArr l, rest)
    | None => None
    end.
Proof.
  destruct c as [[] [] [] [] [] [] [] []]; intros H; try discriminate H; reflexivity.
Qed.

Lemma parse_value_object fuel r :
  parse_value (S fuel) (String "{" (String dquote r))
  = match parse_members fuel (String dquote r) with
    | Some (ps, rest) => Some (VObj (members_to_props ps), rest)
    | None => None
    end.
Proof. reflexivity. Qed.

Lemma parse_elements_more fuel s v more :
  parse_value fuel s = Some (v, String "," more) ->
  parse_elements (S fuel) s
  = match parse_elements fuel more with
    | Some (l, rest) => Some (v :: l, rest)
    | None => None
    end.
Proof. intros H. cbn [parse_elements]. now rewrite H. Qed.

Lemma parse_elements_last fuel s v rest :
  parse_value fuel s = Some (v, String "]" rest) ->
  parse_elements (S fuel) s = Some ([v], rest).
Proof. intros H. cbn [parse_elements]. now rewrite H. Qed.

Lemma parse_members_key fuel k s :
  parse_members (S fuel) (json_quote k ++ String ":" s)
  = match parse_value fuel s with
    | Some (v, r3) =>
        match skip_ws r3 with
        | String "," r4 =>
            match parse_members fuel r4 with
            | Some (ps, rest) => Some ((k, v) :: ps, rest)
            | None => None
            end
        | String "}" rest => Some ([(k, v)], rest)
        | _ => None
        end
    | None => None
    end.
Proof.
  unfold json_quote. cbn [append]. rewrite append_assoc_s. cbn [append str1].
  cbn [parse_members].
  change (skip_ws (String dquote ?x)) with (String dquote x).
  cbv beta iota. change (dquote =? dquote)%char with true. cbv iota.
  rewrite parse_string_body_quote. reflexivity.
Qed.

Lemma list_sum_cons a l : list_sum (a :: l) = a + list_sum l.
Proof. reflexivity. Qed.

Lemma join_cons sep x y l : join sep (x :: y :: l) = x ++ sep ++ join sep (y :: l).
Proof. reflexivity. Qed.

Lemma parse_elements_texts l :
  Forall roundtrips l -> forallb json_exact l = true -> l <> [] ->
  forall fuel rest, list_sum (map (fun e => S (size e)) l) <= fuel ->
  parse_elements fuel (join "," (map text_of l) ++ String "]" rest) = Some (l, rest).
Proof.
  induction 1 as [| e l He Hl IH]; intros Hex Hne fuel rest Hf; [congruence |].
  cbn [forallb] in Hex. apply andb_true_iff in Hex. destruct Hex as [Hexe Hexl].
  cbn [map] in Hf. rewrite list_sum_cons in Hf. destruct fuel as [| f]; [lia |].
  destruct l as [| e' l'].
  - cbn [map join]. apply parse_elements_last. apply He; [exact Hexe | lia | reflexivity].
  - cbn [map]. rewrite join_cons, !append_assoc_s. cbn [append].
    rewrite (parse_elements_more f _ e (join "," (map text_of (e' :: l')) ++ String "]" rest)).
    + rewrite IH; [reflexivity | exact Hexl | discriminate | lia].
    + apply He; [exact Hexe | lia | reflexivity].
Qed.

Lemma parse_members_texts ps :
  Forall (fun kv => roundtrips (snd kv)) ps ->
  forallb (fun kv => json_exact (snd kv)) ps = true -> ps <> [] ->
  forall fuel rest, list_sum (map (fun kv => S (size (snd kv))) ps) <= fuel ->
  parse_members fuel (join "," (map member_text ps) ++ String "}" rest) = Some (ps, rest).
Proof.
  induction 1 as [| [k v] ps He Hl IH]; intros Hex Hne fuel rest Hf; [congruence |].
  cbn [forallb snd] in Hex. apply andb_true_iff in Hex. destruct Hex as [Hexe Hexl].
  cbn [map snd] in Hf. rewrite list_sum_cons in Hf. destruct fuel as [| f]; [lia |].
  cbn [snd] in He.
  destruct ps as [| kv' ps'].
  - cbn [map join]. unfold member_text. cbn [fst snd].
    rewrite !append_assoc_s. cbn [append]. rewrite parse_members_key.
    rewrite He; [reflexivity | exact Hexe | lia | reflexivity].
  - cbn [map]. rewrite join_cons. unfold member_text at 1. cbn [fst snd].
    rewrite !append_assoc_s. cbn [append]. rewrite parse_members_key.
    rewrite He; [| exact Hexe | lia | reflexivity].
    change (skip_ws (String "," ?x)) with (String "," x). cbv iota.
    rewrite IH; [reflexivity | exact Hexl | discriminate | lia].
Qed.

Lemma stringify_members ps :
  forallb (fun kv => json_exact (snd kv)) ps = true ->
  flat_map (fun kv => match stringify (snd kv) with
                      | Some t => [json_quote (fst kv) ++ ":" ++ t]
                      | None => []
                      end) ps
  = map member_text ps.
Proof.
  induction ps as [| [k v] ps IH]; [reflexivity |].
  cbn [forallb snd]. intros H. apply andb_true_iff in H. destruct H as [Hv Hps].
  cbn [flat_map map snd fst]. rewrite (exact_defined v Hv), (IH Hps). reflexivity.
Qed.

Lemma set_prop_fresh k v acc :
  existsb (String.eqb k) (map fst acc) = false ->
  forallb (fun k' => negb (precedes k k')) (map fst acc) = true ->
  set_prop k v acc = (acc ++ [(k, v)])%list.
Proof.
  induction acc as [| [k' v'] acc IH]; [reflexivity |].
  cbn [map fst existsb forallb set_prop]. intros H O.
  apply orb_false_iff in H. destruct H as [Hk Hacc].
  apply andb_true_iff in O. destruct O as [Ok Oacc]. apply negb_true_iff in Ok.
  rewrite String.eqb_sym in Hk. rewrite Hk, Ok. now rewrite IH.
Qed.

Lemma nodupb_fresh (acc : list (string * value)) k v ps :
  nodupb (map fst (acc ++ (k, v) :: ps)%list) = true ->
  existsb (String.eqb k) (map fst acc) = false.
Proof.
  induction acc as [| [k' v'] acc IH]; [reflexivity |].
  simpl. intros H. apply andb_true_iff in H. destruct H as [Hk' Hrest].
  rewrite (IH Hrest), orb_false_r.
  apply negb_true_iff in Hk'.
  rewrite map_app, existsb_app in Hk'. apply orb_false_iff in Hk'.
  destruct Hk' as [_ Hk']. simpl in Hk'.
  apply orb_false_iff in Hk'. destruct Hk' as [Hk' _].
  now rewrite String.eqb_sym.
Qed.

Lemma ordered_fresh (acc : list (string * value)) k v ps :
  ordered_keys (map fst (acc ++ (k, v) :: ps)%list) = true ->
  forallb (fun k' => negb (precedes k k')) (map fst acc) = true.
Proof.
  induction acc as [| [k' v'] acc IH]; [reflexivity |].
  cbn [app map fst ordered_keys forallb]. intros H.
  apply andb_true_iff in H. destruct H as [Hk' Hrest].
  rewrite (IH Hrest), andb_true_r.
  rewrite forallb_forall in Hk'. apply Hk'.
  apply in_map_iff. exists (k, v). split; [reflexivity |].
  apply in_or_app. right. left. reflexivity.
Qed.

Lemma members_to_props_nodup ps :
  nodupb (map fst ps) = true -> ordered_keys (map fst ps) = true -> members_to_props ps = ps.
Proof.
  unfold members_to_props.
  enough (G : forall acc,
             nodupb (map fst (acc ++ ps)%list) = true ->
             ordered_keys (map fst (acc ++ ps)%list) = true ->
             fold_left (fun a kv => set_prop (fst kv) (snd kv) a) ps acc = (acc ++ ps)%list)
    by (intros H O; apply (G [] H O)).
  induction ps as [| [k v] ps IH]; intros acc H O; [now rewrite List.app_nil_r |].
  cbn [fold_left fst snd].
  rewrite set_prop_fresh
    by (exact (nodupb_fresh acc k v ps H) || exact (ordered_fresh acc k v ps O)).
  rewrite IH; rewrite <- List.app_assoc; [reflexivity | exact H | exact O].
Qed.

(** Every exact value parses back from its text. *)
Lemma roundtrips_all v : roundtrips v.
Proof.
  induction v as [| | b | z | d | s | l IH | ps IH] using value_ind;
    unfold roundtrips; intros Hex fuel rest Hf Hd;
    (destruct fuel as [| f]; [cbn in Hf; lia |]).
  - discriminate.
  - apply parse_value_null.
  - destruct b; [apply parse_value_true | apply parse_value_false].
  - apply parse_value_number; [exact Hd |]. cbn [json_exact] in Hex. now apply Z.ltb_lt.
  - discriminate.
  - apply json_quote_parse.
  - cbn [json_exact] in Hex. cbn [size] in Hf.
    destruct l as [| e l']; [reflexivity |].
    unfold text_of. cbn [stringify].
    change (map (fun e0 => match stringify e0 with Some t => t | None => "null" end) (e :: l'))
      with (map text_of (e :: l')).
    rewrite !append_assoc_s. cbn [append].
    assert (S : exists c r, join "," (map text_of (e :: l')) ++ String "]" rest = String c r
                            /\ value_start c = true).
    { apply Forall_inv in IH. cbn [forallb] in Hex. apply andb_true_iff in Hex.
      destruct l' as [| e' l''].
      - cbn [map join]. apply text_of_start. apply Hex.
      - cbn [map]. rewrite join_cons, append_assoc_s. apply text_of_start. apply Hex. }
    destruct S as [c [r [E Hc]]].
    rewrite E, (parse_value_array f c r Hc), <- E.
    rewrite (parse_elements_texts (e :: l') IH Hex); [reflexivity | discriminate | lia].
  - cbn [json_exact] in Hex. apply andb_true_iff in Hex. destruct Hex as [Hex Hord].
    apply andb_true_iff in Hex. destruct Hex as [Hex Hnd].
    cbn [size] in Hf.
    unfold text_of. cbn [stringify]. rewrite (stringify_members ps Hex).
    destruct ps as [| [k v] ps']; [reflexivity |].
    rewrite !append_assoc_s. cbn [append].
    assert (S : exists r, join "," (map member_text ((k, v) :: ps')) ++ String "}" rest
                          = String dquote r).
    { destruct ps' as [| kv' ps''].
      - cbn [map join]. unfold member_text, json_quote. cbn [fst append]. eexists. reflexivity.
      - cbn [map]. rewrite join_cons. unfold member_text at 1. unfold json_quote.
        cbn [fst append]. eexists. reflexivity. }
    destruct S as [r E].
    rewrite E, parse_value_object, <- E.
    rewrite (parse_members_texts ((k, v) :: ps') IH Hex); [| discriminate | lia].
    now rewrite (members_to_props_nodup _ Hnd Hord).
Qed.

Lemma join_length_bound {A} (f : A -> nat) (g : A -> string) (l : list A) :
  Forall (fun x => f x <= length (g x)) l ->
  list_sum (map (fun x => S (f x)) l) <= S (length (join "," (map g l))).
Proof.
  induction 1 as [| x l Hx Hl IH]; [cbn; lia |].
  cbn [map]. rewrite list_sum_cons.
  destruct l as [| y l'].
  - cbn. lia.
  - cbn [map] in *. rewrite join_cons, !length_append_s. cbn [length]. lia.
Qed.

Lemma size_le_length v : json_exact v = true -> size v <= length (text_of v).
Proof.
  induction v as [| | b | z | d | s | l IH | ps IH] using value_ind; intros Hex.
  - discriminate.
  - cbn. lia.
  - destruct b; cbn; lia.
  - destruct (string_of_Z_start z EmptyString) as [c [r [E _]]].
    rewrite append_empty_r in E. unfold text_of. cbn [stringify size]. rewrite E. cbn. lia.
  - discriminate.
  - unfold text_of. cbn [stringify size]. unfold json_quote. cbn. lia.
  - cbn [json_exact] in Hex. unfold text_of. cbn [stringify size].
    change (map (fun e0 => match stringify e0 with Some t => t | None => "null" end) l)
      with (map text_of l).
    rewrite !length_append_s. cbn [length].
    assert (B : Forall (fun e => size e <= length (text_of e)) l).
    { rewrite forallb_forall in Hex. rewrite Forall_forall in IH |- *.
      intros e He. now apply IH, Hex. }
    pose proof (join_length_bound size text_of l B). lia.
  - cbn [json_exact] in Hex. apply andb_true_iff in Hex. destruct Hex as [Hex _].
    apply andb_true_iff in Hex. destruct Hex as [Hex _].
    unfold text_of. cbn [stringify size]. rewrite (stringify_members ps Hex).
    rewrite !length_append_s. cbn [length].
    assert (B : Forall (fun kv => size (snd kv) <= length (member_text kv)) ps).
    { rewrite forallb_forall in Hex. rewrite Forall_forall in IH |- *.
      intros kv Hkv. specialize (IH kv Hkv (Hex kv Hkv)).
      unfold member_text. rewrite !length_append_s. lia. }
    pose proof (join_length_bound (fun kv => size (snd kv)) member_text ps B). lia.
Qed.

(** [JSON.parse(JSON.stringify(v))] is [v] for an exact value. *)
Lemma json_parse_stringify v : json_exact v = true -> json_parse (text_of v) = Some v.
Proof.
  intros Hex. unfold json_parse.
  pose proof (size_le_length v Hex) as B.
  pose proof (roundtrips_all v Hex (2 * length (text_of v) + 2) EmptyString) as R.
  rewrite append_empty_r in R. rewrite R; [reflexivity | lia | reflexivity].
Qed.

(** ** [trim] leaves base64 text alone *)

Lemma plain_ws1 a : plain a = true -> ws1 a = false.
Proof. destruct a as [[] [] [] [] [] [] [] []]; intros H; try discriminate H; reflexivity. Qed.

Lemma plain_ws2 a b : plain a = true -> ws2 a b = false.
Proof. destruct a as [[] [] [] [] [] [] [] []]; intros H; try discriminate H; reflexivity. Qed.

Lemma plain_ws3 a b c : plain a = true -> ws3 a b c = false.
Proof. destruct a as [[] [] [] [] [] [] [] []]; intros H; try discriminate H; reflexivity. Qed.

Lemma trimStart_plain s : all_plain s = true -> trimStart s = s.
Proof.
  destruct s as [| a [| b [| c r]]]; cbn [all_plain]; intros H; [reflexivity | | |];
    apply andb_true_iff in H; destruct H as [Ha _]; cbn [trimStart];
    rewrite ?(plain_ws1 a Ha), ?(plain_ws2 a _ Ha), ?(plain_ws3 a _ _ Ha); reflexivity.
Qed.

Lemma trimStart_rev_plain s : all_plain s = true -> trimStart_rev s = s.
Proof.
  destruct s as [| a [| b [| c r]]]; cbn [all_plain]; intros H; [reflexivity | | |].
  - apply andb_true_iff in H. destruct H as [Ha _]. cbn [trimStart_rev].
    now rewrite (plain_ws1 a Ha).
  - apply andb_true_iff in H. destruct H as [Ha H].
    apply andb_true_iff in H. destruct H as [Hb _]. cbn [trimStart_rev].
    now rewrite (plain_ws1 a Ha), (plain_ws2 b a Hb).
  - apply andb_true_iff in H. destruct H as [Ha H].
    apply andb_true_iff in H. destruct H as [Hb H].
    apply andb_true_iff in H. destruct H as [Hc _]. cbn [trimStart_rev].
    now rewrite (plain_ws1 a Ha), (plain_ws2 b a Hb), (plain_ws3 c b a Hc).
Qed.

Lemma all_plain_append a b : all_plain (a ++ b) = all_plain a && all_plain b.
Proof. induction a as [| c a IH]; [reflexivity |]. cbn. now rewrite IH, andb_assoc. Qed.

Lemma all_plain_rev s : all_plain (string_rev s) = all_plain s.
Proof.
  induction s as [| c s IH]; [reflexivity |].
  cbn [string_rev all_plain]. rewrite all_plain_append, IH. cbn. rewrite andb_true_r.
  apply andb_comm.
Qed.

Lemma string_rev_append a b : string_rev (a ++ b) = string_rev b ++ string_rev a.
Proof.
  induction a as [| c a IH]; cbn; [now rewrite append_empty_r |].
  now rewrite IH, append_assoc_s.
Qed.

Lemma string_rev_involutive s : string_rev (string_rev s) = s.
Proof.
  induction s as [| c s IH]; [reflexivity |].
  cbn [string_rev]. rewrite string_rev_append, IH. reflexivity.
Qed.

Lemma trim_plain s : all_plain s = true -> trim s = s.
Proof.
  intros H. unfold trim, trimEnd. rewrite (trimStart_plain s H).
  rewrite trimStart_rev_plain by (now rewrite all_plain_rev).
  apply string_rev_involutive.
Qed.

Lemma plain_b64_char n : plain (b64_char n) = true.
Proof. do 64 (destruct n as [| n]; [reflexivity |]). reflexivity. Qed.

Lemma all_plain_base64 s : all_plain (base64_encode s) = true.
Proof.
  induction s as [| a | a b | a b c r IH] using string_ind3;
    cbn [base64_encode all_plain]; rewrite ?plain_b64_char, ?IH; reflexivity.
Qed.

Lemma base64_encode_nonempty s : s <> EmptyString -> base64_encode s <> EmptyString.
Proof. destruct s as [| a [| b [| c r]]]; intros H; [now destruct H | | |]; discriminate. Qed.

(** ** Property lists *)

Lemma nodupb_iff l : nodupb l = true <-> NoDup l.
Proof.
  induction l as [| x l IH]; cbn [nodupb]; [split; [constructor | reflexivity] |].
  rewrite andb_true_iff, negb_true_iff, IH. split.
  - intros [Hx Hl]. constructor; [| exact Hl].
    intros Hin. assert (E : existsb (String.eqb x) l = true).
    { apply existsb_exists. exists x. split; [exact Hin | apply String.eqb_refl]. }
    congruence.
  - intros H. inversion H as [| y l' Hx Hl]; subst. split; [| exact Hl].
    destruct (existsb (String.eqb x) l) eqn:E; [| reflexivity].
    apply existsb_exists in E. destruct E as [y [Hy E]].
    apply String.eqb_eq in E. subst. contradiction.
Qed.

Lemma NoDup_map_filter {A B} (f : A -> B) (P : A -> bool) l :
  NoDup (map f l) -> NoDup (map f (filter P l)).
Proof.
  induction l as [| x l IH]; cbn [map filter]; intros H; [constructor |].
  inversion H as [| y l' Hx Hl]; subst.
  destruct (P x); [| now apply IH].
  cbn [map]. constructor; [| now apply IH].
  intros Hin. apply Hx. apply in_map_iff in Hin. destruct Hin as [y [E Hy]].
  apply filter_In in Hy. apply in_map_iff. exists y. tauto.
Qed.

Lemma delete_prop_filter k ps :
  delete_prop k ps = filter (fun kv => negb (fst kv =? k)%string) ps.
Proof.
  induction ps as [| [k' v] ps IH]; [reflexivity |].
  cbn [delete_prop filter fst]. destruct (k' =? k)%string; cbn [negb]; now rewrite IH.
Qed.

Lemma lookup_absent k ps : ~ In k (map fst ps) -> lookup k ps = VUndefined.
Proof.
  induction ps as [| [k' v] ps IH]; [reflexivity |].
  cbn [map fst lookup In]. intros H.
  destruct (String.eqb_spec k' k) as [E | N]; [tauto |]. apply IH. tauto.
Qed.

Lemma lookup_delete j k ps :
  lookup k (delete_prop j ps) = if (j =? k)%string then VUndefined else lookup k ps.
Proof.
  induction ps as [| [k' v] ps IH].
  - cbn. now destruct (j =? k)%string.
  - cbn [delete_prop lookup].
    destruct (String.eqb_spec k' j) as [E | N].
    + subst k'. rewrite IH. now destruct (j =? k)%string.
    + cbn [lookup]. rewrite IH.
      destruct (String.eqb_spec k' k) as [E' | N']; [| reflexivity].
      subst k'. destruct (String.eqb_spec j k) as [E'' | _]; [congruence | reflexivity].
Qed.

Lemma lookup_kept k ps : NoDup (map fst ps) -> lookup k (kept ps) = lookup k ps.
Proof.
  unfold kept. induction ps as [| [k' v] ps IH]; [reflexivity |].
  cbn [map fst filter snd lookup]. intros H. inversion H as [| y l Hk Hl]; subst.
  destruct v; cbn [defined lookup]; rewrite ?(IH Hl); try reflexivity.
  destruct (String.eqb_spec k' k) as [E | N]; [| reflexivity].
  subst k'. now apply lookup_absent.
Qed.

Lemma set_prop_keys x k v ps :
  In x (map fst (set_prop k v ps)) <-> x = k \/ In x (map fst ps).
Proof.
  induction ps as [| [k' v'] ps IH]; cbn [set_prop map fst In]; [intuition congruence |].
  destruct (String.eqb_spec k' k) as [-> | N]; cbn [map fst In]; [intuition congruence |].
  destruct (precedes k k'); cbn [map fst In]; [intuition congruence |].
  rewrite IH. intuition congruence.
Qed.

Lemma lookup_set_prop x k v ps :
  lookup x (set_prop k v ps) = if (k =? x)%string then v else lookup x ps.
Proof.
  induction ps as [| [k' v'] ps IH]; cbn [set_prop lookup]; [reflexivity |].
  destruct (String.eqb_spec k' k) as [-> | N]; cbn [lookup]; [now destruct (k =? x)%string |].
  destruct (precedes k k'); cbn [lookup]; [reflexivity |].
  rewrite IH. destruct (String.eqb_spec k' x) as [-> | N']; [| reflexivity].
  destruct (String.eqb_spec k x) as [-> | _]; [congruence | reflexivity].
Qed.

Lemma precedes_trans a b c :
  precedes a b = true -> precedes b c = true -> precedes a c = true.
Proof.
  unfold precedes.
  destruct (array_index a) as [i |], (array_index b) as [j |], (array_index c) as [l |];
    try discriminate; try reflexivity.
  rewrite !N.ltb_lt. lia.
Qed.

(** [o.k = v] keeps the names distinct and in enumeration order. *)
Lemma set_prop_canonical k v ps :
  NoDup (map fst ps) -> ordered_keys (map fst ps) = true ->
  NoDup (map fst (set_prop k v ps)) /\ ordered_keys (map fst (set_prop k v ps)) = true.
Proof.
  induction ps as [| [k' v'] ps IH]; cbn [set_prop map fst ordered_keys]; intros Hnd Ho.
  - split; [repeat constructor; intros [] | reflexivity].
  - apply andb_true_iff in Ho. destruct Ho as [Hk' Ho].
    inversion Hnd as [| y l Hk Hl]; subst.
    rewrite forallb_forall in Hk'.
    destruct (String.eqb_spec k' k) as [-> | N]; cbn [map fst ordered_keys].
    + split; [exact Hnd |]. apply andb_true_iff. split; [| exact Ho].
      now apply forallb_forall.
    + destruct (precedes k k') eqn:P; cbn [map fst ordered_keys forallb].
      * assert (F : forall x, In x (map fst ps) -> precedes x k = false).
        { intros x Hx. destruct (precedes x k) eqn:Q; [| reflexivity].
          specialize (Hk' x Hx). rewrite (precedes_trans x k k' Q P) in Hk'. discriminate. }
        split.
        -- constructor; [| exact Hnd]. cbn [In]. intros [E | Hin]; [congruence |].
           specialize (Hk' k Hin). rewrite P in Hk'. discriminate.
        -- assert (Q : precedes k' k = false).
           { destruct (precedes k' k) eqn:Q; [| reflexivity].
             unfold precedes in P, Q.
             destruct (array_index k) as [i |], (array_index k') as [j |]; try discriminate.
             rewrite N.ltb_lt in P, Q. lia. }
           rewrite Q. cbn [negb andb].
           apply andb_true_iff. split.
           ++ apply forallb_forall. intros x Hx. now rewrite (F x Hx).
           ++ apply andb_true_iff. split; [now apply forallb_forall | exact Ho].
      * destruct (IH Hl Ho) as [Hnd' Ho']. split.
        -- constructor; [| exact Hnd']. rewrite set_prop_keys. intros [E | Hin]; congruence.
        -- apply andb_true_iff. split; [| exact Ho'].
           apply forallb_forall. intros x Hx. apply set_prop_keys in Hx.
           destruct Hx as [-> | Hx]; [now rewrite P | now apply Hk'].
Qed.

Lemma fold_set_prop_canonical ps : forall acc,
  NoDup (map fst acc) -> ordered_keys (map fst acc) = true ->
  NoDup (map fst (fold_left (fun a kv => set_prop (fst kv) (snd kv) a) ps acc))
  /\ ordered_keys (map fst (fold_left (fun a kv => set_prop (fst kv) (snd kv) a) ps acc)) = true.
Proof.
  induction ps as [| [k v] ps IH]; intros acc Hnd Ho; [now split |].
  cbn [fold_left fst snd]. destruct (set_prop_canonical k v acc Hnd Ho). now apply IH.
Qed.

(** An object made by [JSON.parse] or by [Object.assign] has its names
    distinct and in enumeration order. *)
Lemma members_to_props_canonical ps :
  NoDup (map fst (members_to_props ps)) /\ ordered_keys (map fst (members_to_props ps)) = true.
Proof. apply fold_set_prop_canonical; [constructor | reflexivity]. Qed.

Lemma lookup_fold_set_prop x ps : forall acc,
  NoDup (map fst ps) ->
  lookup x (fold_left (fun a kv => set_prop (fst kv) (snd kv) a) ps acc)
  = if existsb (String.eqb x) (map fst ps) then lookup x ps else lookup x acc.
Proof.
  induction ps as [| [k v] ps IH]; intros acc Hnd; [reflexivity |].
  inversion Hnd as [| y l Hk Hl]; subst.
  cbn [fold_left fst snd map existsb lookup]. rewrite (IH _ Hl), lookup_set_prop.
  rewrite (String.eqb_sym x k).
  destruct (String.eqb_spec k x) as [-> | N]; cbn [orb]; [| reflexivity].
  destruct (existsb (String.eqb x) (map fst ps)) eqn:E; [| reflexivity].
  apply existsb_exists in E. destruct E as [y [Hy E]]. apply String.eqb_eq in E. now subst.
Qed.

Lemma lookup_members_to_props x ps :
  NoDup (map fst ps) -> lookup x (members_to_props ps) = lookup x ps.
Proof.
  intros Hnd. unfold members_to_props. rewrite (lookup_fold_set_prop x ps [] Hnd).
  destruct (existsb (String.eqb x) (map fst ps)) eqn:E; [reflexivity |].
  cbn [lookup]. symmetry. apply lookup_absent. intros Hin.
  assert (T : existsb (String.eqb x) (map fst ps) = true).
  { apply existsb_exists. exists x. split; [exact Hin | apply String.eqb_refl]. }
  congruence.
Qed.

Lemma set_prop_all (Q : value -> bool) k v ps :
  Q v = true -> forallb (fun kv => Q (snd kv)) ps = true ->
  forallb (fun kv => Q (snd kv)) (set_prop k v ps) = true.
Proof.
  intros Hv. induction ps as [| [k' v'] ps IH]; cbn [set_prop forallb snd]; intros H.
  - now rewrite Hv.
  - apply andb_true_iff in H. destruct H as [H1 H2].
    destruct (k' =? k)%string; cbn [forallb snd]; [now rewrite Hv, H2 |].
    destruct (precedes k k'); cbn [forallb snd]; [now rewrite Hv, H1, H2 |].
    now rewrite H1, IH.
Qed.

Lemma members_to_props_all (Q : value -> bool) ps :
  forallb (fun kv => Q (snd kv)) ps = true ->
  forallb (fun kv => Q (snd kv)) (members_to_props ps) = true.
Proof.
  unfold members_to_props.
  enough (G : forall acc, forallb (fun kv => Q (snd kv)) acc = true ->
                          forallb (fun kv => Q (snd kv)) ps = true ->
                          forallb (fun kv => Q (snd kv))
                            (fold_left (fun a kv => set_prop (fst kv) (snd kv) a) ps acc) = true)
    by (now apply G).
  induction ps as [| [k v] ps IH]; intros acc Ha H; [exact Ha |].
  cbn [forallb snd] in H. apply andb_true_iff in H. destruct H as [Hv Hps].
  cbn [fold_left fst snd]. apply IH; [now apply set_prop_all | exact Hps].
Qed.

Lemma ordered_keys_filter (P : string * value -> bool) ps :
  ordered_keys (map fst ps) = true -> ordered_keys (map fst (filter P ps)) = true.
Proof.
  induction ps as [| [k v] ps IH]; cbn [map fst filter ordered_keys]; [reflexivity |].
  intros H. apply andb_true_iff in H. destruct H as [Hk Ho].
  destruct (P (k, v)); cbn [map fst ordered_keys]; [| now apply IH].
  apply andb_true_iff. split; [| now apply IH].
  rewrite forallb_forall in Hk. apply forallb_forall. intros x Hx. apply Hk.
  apply in_map_iff in Hx. destruct Hx as [kv [<- Hkv]]. apply filter_In in Hkv.
  apply in_map. tauto.
Qed.

Lemma stringify_kept ps : stringify (VObj ps) = stringify (VObj (kept ps)).
Proof.
  cbn [stringify].
  assert (E : forall qs,
             flat_map (fun kv => match stringify (snd kv) with
                                 | Some t => [json_quote (fst kv) ++ ":" ++ t]
                                 | None => []
                                 end) qs
             = flat_map (fun kv => match stringify (snd kv) with
                                   | Some t => [json_quote (fst kv) ++ ":" ++ t]
                                   | None => []
                                   end) (kept qs)).
  { unfold kept. induction qs as [| [k v] qs IH]; [reflexivity |].
    cbn [flat_map filter snd fst]. rewrite IH.
    destruct v; cbn [defined stringify flat_map snd fst]; reflexivity. }
  now rewrite <- E.
Qed.

Lemma exact_kept ps :
  NoDup (map fst ps) -> ordered_keys (map fst ps) = true ->
  forallb (fun kv => storable (snd kv)) ps = true ->
  json_exact (VObj (kept ps)) = true.
Proof.
  intros Hnd Hord Hst. cbn [json_exact]. apply andb_true_iff. split; [apply andb_true_iff; split |].
  - unfold kept. apply forallb_forall. intros kv Hkv. apply filter_In in Hkv.
    destruct Hkv as [Hin Hdef]. rewrite forallb_forall in Hst. specialize (Hst kv Hin).
    destruct (snd kv); try discriminate Hdef; exact Hst.
  - apply nodupb_iff. unfold kept. now apply NoDup_map_filter.
  - unfold kept. now apply ordered_keys_filter.
Qed.

(** ** The cache round trip *)

Lemma assigned_nodup ps : NoDup (map fst (object_assign_empty (VObj ps))).
Proof. cbn [object_assign_empty]. apply members_to_props_canonical. Qed.

Lemma safe_of_nodup ps : NoDup (map fst (safe_of ps)).
Proof.
  unfold safe_of. rewrite !delete_prop_filter.
  apply NoDup_map_filter, NoDup_map_filter, assigned_nodup.
Qed.

Lemma safe_of_ordered ps : ordered_keys (map fst (safe_of ps)) = true.
Proof.
  unfold safe_of. rewrite !delete_prop_filter.
  apply ordered_keys_filter, ordered_keys_filter. cbn [object_assign_empty].
  apply members_to_props_canonical.
Qed.

Lemma safe_of_storable ps :
  forallb (fun kv => storable (snd kv)) ps = true ->
  forallb (fun kv => storable (snd kv)) (safe_of ps) = true.
Proof.
  intros H. unfold safe_of. rewrite !delete_prop_filter.
  assert (A : forallb (fun kv => storable (snd kv)) (object_assign_empty (VObj ps)) = true).
  { cbn [object_assign_empty]. apply members_to_props_all.
    apply forallb_forall. intros kv Hkv. apply filter_In in Hkv.
    rewrite forallb_forall in H. now apply H. }
  apply forallb_forall. intros kv Hkv.
  apply filter_In in Hkv. destruct Hkv as [Hkv _].
  apply filter_In in Hkv. destruct Hkv as [Hkv _].
  rewrite forallb_forall in A. now apply A.
Qed.

Lemma safe_of_keys k ps : In k (map fst (kept (safe_of ps))) -> k <> "idToken" /\ k <> "refreshToken".
Proof.
  unfold kept, safe_of. rewrite !delete_prop_filter. intros H.
  apply in_map_iff in H. destruct H as [kv [<- Hkv]].
  apply filter_In in Hkv. destruct Hkv as [Hkv _].
  apply filter_In in Hkv. destruct Hkv as [Hkv H2].
  apply filter_In in Hkv. destruct Hkv as [_ H1].
  apply negb_true_iff in H1, H2. split; intros E; rewrite E in *; discriminate.
Qed.

(** The text of the copy parses back to the copy. *)
Lemma exact_safe ps :
  forallb (fun kv => storable (snd kv)) ps = true ->
  json_exact (VObj (kept (safe_of ps))) = true.
Proof.
  intros H. apply exact_kept;
    [apply safe_of_nodup | apply safe_of_ordered | now apply safe_of_storable].
Qed.

(** The copy holds what the object holds, but for the two token fields and
    for [__proto__]. *)
Lemma lookup_safe_of k ps :
  NoDup (map fst ps) ->
  lookup k (kept (safe_of ps))
  = if (("refreshToken" =? k) || ("idToken" =? k) || ("__proto__" =? k))%string then VUndefined
    else lookup k ps.
Proof.
  intros Hnd. rewrite lookup_kept by apply safe_of_nodup.
  unfold safe_of. rewrite !lookup_delete. cbn [object_assign_empty].
  rewrite lookup_members_to_props by (now apply NoDup_map_filter).
  rewrite <- delete_prop_filter, lookup_delete.
  destruct ("refreshToken" =? k)%string, ("idToken" =? k)%string, ("__proto__" =? k)%string;
    reflexivity.
Qed.

(** What [writeCache] does to a writable cache file. *)
Lemma writeCache_eq w st ps :
  NoDup (map fst ps) ->
  (forall names, st_fs st (CACHE_FILE w) <> Some (Dir names)) ->
  write_denied w (CACHE_FILE w) = false ->
  writeCache w (VObj ps) st
  = (Ret tt,
     mk_state (fun p => if (p =? CACHE_FILE w)%string then Some (File (cache_text ps))
                        else st_fs st p)
       (st_trace st ++ [WriteFileSync (CACHE_FILE w) (cache_text ps) 384])
       (st_asked st) (st_apps st) (st_projectId st)).
Proof.
  intros _ Hdir Hw. unfold writeCache, encodeSafe, writeFileSync. cbv zeta.
  fold (safe_of ps). rewrite stringify_kept.
  change (stringify (VObj (kept (safe_of ps))))
    with (Some (text_of (VObj (kept (safe_of ps))))).
  fold (cache_text ps). run_monad. rewrite Hw.
  destruct (st_fs st (CACHE_FILE w)) as [[c | names] |] eqn:E; try reflexivity.
  now destruct (Hdir names).
Qed.

(** C1, as the code has it by design.  Take an object whose property names
    are distinct and whose property values are [undefined] or exact JSON
    values, and a cache path that can be written and read.  After
    [writeCache], a [readCache] returns an object that agrees with it on
    every property other than the secret token fields and [__proto__], and
    has neither [idToken] nor [refreshToken]. *)
Theorem cache_round_trip (w : world) (st : state) (ps : list (string * value)) :
  nodupb (map fst ps) = true ->
  forallb (fun kv => storable (snd kv)) ps = true ->
  (forall names, st_fs st (CACHE_FILE w) <> Some (Dir names)) ->
  write_denied w (CACHE_FILE w) = false ->
  read_denied w (CACHE_FILE w) = false ->
  exists back,
    fst (readCache w (snd (writeCache w (VObj ps) st))) = Ret (VObj back)
    /\ (forall k, secret_token_field k = false -> k <> "__proto__" ->
                  lookup k back = lookup k ps)
    /\ ~ In "idToken" (map fst back)
    /\ ~ In "refreshToken" (map fst back).
Proof.
  intros Hnd Hst Hdir Hw Hr. apply nodupb_iff in Hnd.
  exists (kept (safe_of ps)). split; [| split; [| split]].
  - rewrite (writeCache_eq w st ps Hnd Hdir Hw). cbn [snd].
    rewrite readCache_eq. cbn [fst]. unfold cache_content. cbn [st_fs].
    rewrite String.eqb_refl, Hr.
    unfold cache_text.
    rewrite (trim_plain _ (all_plain_base64 _)).
    destruct (String.eqb_spec (base64_encode (text_of (VObj (kept (safe_of ps))))) EmptyString)
      as [E | _].
    + apply base64_encode_nonempty in E; [destruct E |].
      unfold text_of. cbn [stringify]. discriminate.
    + rewrite base64_decode_encode.
      rewrite json_parse_stringify; [reflexivity | now apply exact_safe].
  - intros k Hk Hp. rewrite (lookup_safe_of k ps Hnd).
    unfold secret_token_field in Hk.
    apply orb_false_iff in Hk. destruct Hk as [Hk _].
    apply orb_false_iff in Hk. destruct Hk as [H1 H2].
    rewrite (String.eqb_sym "refreshToken" k), (String.eqb_sym "idToken" k), H1, H2.
    destruct (String.eqb_spec "__proto__" k) as [E | _]; [congruence | reflexivity].
  - intros H. now destruct (safe_of_keys _ _ H).
  - intros H. now destruct (safe_of_keys _ _ H).
Qed.

Lemma cache_round_trip_witness :
  exists back,
    fst (readCache plain_world
           (snd (writeCache plain_world setup_with_tokens (initial_state plain_world))))
    = Ret (VObj back)
    /\ (forall k, secret_token_field k = false -> k <> "__proto__" ->
                  lookup k back
                  = lookup k [("uid", VStr "u1");
                              ("serviceAccount", VStr "/work/sa.json");
                              ("apiKey", VStr "k1");
                              ("projectId", VUndefined);
                              ("timestamp", VNum 1700000000000);
                              ("customToken", VStr "CUSTOM.TOKEN");
                              ("idToken", VStr "ID");
                              ("refreshToken", VStr "RT")])
    /\ ~ In "idToken" (map fst back)
    /\ ~ In "refreshToken" (map fst back).
Proof.
  apply (cache_round_trip plain_world (initial_state plain_world)).
  - vm_compute. reflexivity.
  - vm_compute. reflexivity.
  - intros names. vm_compute. discriminate.
  - reflexivity.
  - reflexivity.
Defined.

(** C1 as stated fails where the design is best effort: a write that the
    disk refuses is ignored (lines 77-79), so that the next read finds no
    cache; and the file holds JSON (line 47), in which an array cannot hold
    [undefined]. *)
Lemma cache_round_trip_fails :
  fst (readCache read_only_world
         (snd (writeCache read_only_world (VObj cached_setup) (initial_state read_only_world))))
  = Ret VNull
  /\ exists back,
       fst (readCache plain_world
              (snd (writeCache plain_world
                      (VObj [("uid", VStr "u1"); ("scopes", VArr [VStr "a"; VUndefined])])
                      (initial_state plain_world))))
       = Ret (VObj back)
       /\ lookup "scopes" back = VArr [VStr "a"; VNull].
Proof.
  split; [vm_compute; reflexivity |].
  eexists. split; [vm_compute; reflexivity | reflexivity].
Qed.

(** Lines 72-74 delete [idToken] and [refreshToken] only: a property of
    another name is stored whatever it holds. *)
Example writeCache_deletes_two_names :
  map fst (safe_of [("uid", VStr "u1"); ("customToken", VStr "CUSTOM.TOKEN");
                    ("idToken", VStr "ID"); ("refreshToken", VStr "RT")])
  = ["uid"; "customToken"].
Proof. vm_compute. reflexivity. Qed.

(** ** Frame rules *)

Section Frames.

Context {A B : Type}.
Variable P : event -> Prop.

Lemma emits_ret (a : A) : emits P (ret a).
Proof. intros st. exists []. cbn. rewrite List.app_nil_r. auto. Qed.

Lemma emits_throw (e : error) : emits P (@throw A e).
Proof. intros st. exists []. cbn. rewrite List.app_nil_r. auto. Qed.

Lemma emits_exit (c : Z) : emits P (@process_exit A c).
Proof. intros st. exists []. cbn. rewrite List.app_nil_r. auto. Qed.

Lemma emits_emit (e : event) : P e -> emits P (emit e).
Proof. intros H st. exists [e]. cbn. auto. Qed.

Lemma emits_bind (m : M A) (k : A -> M B) :
  emits P m -> (forall a, emits P (k a)) -> emits P (bind m k).
Proof.
  intros Hm Hk st. unfold bind.
  destruct (Hm st) as [e1 [E1 F1]].
  destruct (m st) as [[a | e | c] st']; cbn [snd] in *.
  - destruct (Hk a st') as [e2 [E2 F2]].
    exists (e1 ++ e2)%list. rewrite E2, E1, List.app_assoc. split; [reflexivity |].
    apply Forall_app. auto.
  - exists e1. auto.
  - exists e1. auto.
Qed.

Lemma emits_try_catch (m : M A) (h : error -> M A) :
  emits P m -> (forall e, emits P (h e)) -> emits P (try_catch m h).
Proof.
  intros Hm Hh st. unfold try_catch.
  destruct (Hm st) as [e1 [E1 F1]].
  destruct (m st) as [[a | e | c] st']; cbn [snd] in *.
  - exists e1. auto.
  - destruct (Hh e st') as [e2 [E2 F2]].
    exists (e1 ++ e2)%list. rewrite E2, E1, List.app_assoc. split; [reflexivity |].
    apply Forall_app. auto.
  - exists e1. auto.
Qed.

Lemma keeps_ret (a : A) : keeps (ret a).
Proof. intros st. cbn. auto. Qed.

Lemma keeps_throw (e : error) : keeps (@throw A e).
Proof. intros st. cbn. auto. Qed.

Lemma keeps_exit (c : Z) : keeps (@process_exit A c).
Proof. intros st. cbn. auto. Qed.

Lemma keeps_bind (m : M A) (k : A -> M B) :
  keeps m -> (forall a, keeps (k a)) -> keeps (bind m k).
Proof.
  intros Hm Hk st. unfold bind.
  destruct (Hm st) as [F1 A1].
  destruct (m st) as [[a | e | c] st']; cbn [snd] in *; auto.
  destruct (Hk a st') as [F2 A2]. split; congruence.
Qed.

Lemma keeps_try_catch (m : M A) (h : error -> M A) :
  keeps m -> (forall e, keeps (h e)) -> keeps (try_catch m h).
Proof.
  intros Hm Hh st. unfold try_catch.
  destruct (Hm st) as [F1 A1].
  destruct (m st) as [[a | e | c] st']; cbn [snd] in *; auto.
  destruct (Hh e st') as [F2 A2]. split; congruence.
Qed.

End Frames.

Lemma keeps_emit (e : event) : keeps (emit e).
Proof. intros st. cbn. auto. Qed.

Lemma emits_weaken {A} (P Q : event -> Prop) (m : M A) :
  (forall e, P e -> Q e) -> emits P m -> emits Q m.
Proof.
  intros H Hm st. destruct (Hm st) as [evs [E F]]. exists evs. split; [exact E |].
  eapply Forall_impl; eauto.
Qed.

(** A step that reads the state and returns it unchanged. *)
Ltac frame_raw :=
  let st := fresh "st" in
  intros st;
  repeat match goal with
         | |- context [match ?x with _ => _ end] => destruct x
         end;
  cbn;
  first [ exists (@nil event); rewrite List.app_nil_r; split; [reflexivity | constructor]
        | split; reflexivity ].

(** One layer of a monadic definition. *)
Ltac frame_step :=
  lazymatch goal with
  | |- emits _ (ret _) => apply emits_ret
  | |- emits _ (throw _) => apply emits_throw
  | |- emits _ (process_exit _) => apply emits_exit
  | |- emits _ (emit _) => apply emits_emit
  | |- emits _ (bind _ _) => apply emits_bind; [| intros ?]
  | |- emits _ (try_catch _ _) => apply emits_try_catch; [| intros ?]
  | |- emits _ (if ?b then _ else _) => destruct b
  | |- emits _ (match ?x with _ => _ end) => destruct x
  | |- keeps (ret _) => apply keeps_ret
  | |- keeps (throw _) => apply keeps_throw
  | |- keeps (process_exit _) => apply keeps_exit
  | |- keeps (emit _) => apply keeps_emit
  | |- keeps (bind _ _) => apply keeps_bind; [| intros ?]
  | |- keeps (try_catch _ _) => apply keeps_try_catch; [| intros ?]
  | |- keeps (if ?b then _ else _) => destruct b
  | |- keeps (match ?x with _ => _ end) => destruct x
  end.

(** ** The input-gathering steps touch nothing but console and disk reads *)

Ltac frame_local := repeat frame_step; try reflexivity; try frame_raw.

Section Local.

Variable w : world.

Lemma emits_existsSync p : emits local (existsSync p).
Proof. unfold existsSync. frame_local. Qed.

Lemma keeps_existsSync p : keeps (existsSync p).
Proof. unfold existsSync. frame_local. Qed.

Lemma emits_statSync p : emits local (statSync_isDirectory p).
Proof. unfold statSync_isDirectory. frame_local. Qed.

Lemma keeps_statSync p : keeps (statSync_isDirectory p).
Proof. unfold statSync_isDirectory. frame_local. Qed.

Lemma emits_readdirSync p : emits local (readdirSync w p).
Proof. unfold readdirSync. frame_local. Qed.

Lemma keeps_readdirSync p : keeps (readdirSync w p).
Proof. unfold readdirSync. frame_local. Qed.

Lemma emits_readFileSync p : emits local (readFileSync w p).
Proof. unfold readFileSync. frame_local. Qed.

Lemma keeps_readFileSync p : keeps (readFileSync w p).
Proof. unfold readFileSync. frame_local. Qed.

Lemma emits_question text : emits local (question w text).
Proof. unfold question. frame_local. Qed.

Lemma keeps_question text : keeps (question w text).
Proof. unfold question. frame_local. Qed.

Lemma emits_prompt q : emits local (prompt w q).
Proof. unfold prompt. repeat (frame_step || apply emits_question). Qed.

Lemma keeps_prompt q : keeps (prompt w q).
Proof. unfold prompt. repeat (frame_step || apply keeps_question). Qed.

Lemma emits_readCache : emits local (readCache w).
Proof.
  unfold readCache, decodeSafe.
  repeat (frame_step || apply emits_existsSync || apply emits_readFileSync).
Qed.

Lemma keeps_readCache : keeps (readCache w).
Proof.
  unfold readCache, decodeSafe.
  repeat (frame_step || apply keeps_existsSync || apply keeps_readFileSync).
Qed.

Lemma emits_looks_like full : emits local (looks_like_service_account w full).
Proof.
  unfold looks_like_service_account. repeat (frame_step || apply emits_readFileSync).
Qed.

Lemma keeps_looks_like full : keeps (looks_like_service_account w full).
Proof.
  unfold looks_like_service_account. repeat (frame_step || apply keeps_readFileSync).
Qed.

Lemma emits_pick dir files : emits local (pick_service_account w dir files).
Proof.
  induction files as [| f files IH]; cbn [pick_service_account];
    repeat (frame_step || apply emits_looks_like || apply IH).
Qed.

Lemma keeps_pick dir files : keeps (pick_service_account w dir files).
Proof.
  induction files as [| f files IH]; cbn [pick_service_account];
    repeat (frame_step || apply keeps_looks_like || apply IH).
Qed.

Lemma emits_set_projectId v : emits local (set_projectId v).
Proof. intros st. exists []. cbn. rewrite List.app_nil_r. auto. Qed.

Lemma keeps_set_projectId v : keeps (set_projectId v).
Proof. intros st. cbn. auto. Qed.

Lemma emits_get_projectId : emits local get_projectId.
Proof. intros st. exists []. cbn. rewrite List.app_nil_r. auto. Qed.

Lemma keeps_get_projectId : keeps get_projectId.
Proof. intros st. cbn. auto. Qed.

Lemma emits_main_load_cache u s a : emits local (main_load_cache w u s a).
Proof.
  unfold main_load_cache, console_log.
  repeat (frame_step || apply emits_readCache || apply emits_prompt
          || apply emits_get_projectId || apply emits_set_projectId); reflexivity.
Qed.

Lemma keeps_main_load_cache u s a : keeps (main_load_cache w u s a).
Proof.
  unfold main_load_cache, console_log.
  repeat (frame_step || apply keeps_readCache || apply keeps_prompt
          || apply keeps_get_projectId || apply keeps_set_projectId).
Qed.

Lemma emits_main_resolve_uid u : emits local (main_resolve_uid w u).
Proof.
  unfold main_resolve_uid, console_error.
  repeat (frame_step || apply emits_prompt); reflexivity.
Qed.

Lemma keeps_main_resolve_uid u : keeps (main_resolve_uid w u).
Proof.
  unfold main_resolve_uid, console_error. repeat (frame_step || apply keeps_prompt).
Qed.

Lemma emits_main_resolve_apiKey a : emits local (main_resolve_apiKey w a).
Proof. unfold main_resolve_apiKey. repeat (frame_step || apply emits_prompt). Qed.

Lemma keeps_main_resolve_apiKey a : keeps (main_resolve_apiKey w a).
Proof. unfold main_resolve_apiKey. repeat (frame_step || apply keeps_prompt). Qed.

Lemma emits_main_resolve_serviceAccount s : emits local (main_resolve_serviceAccount w s).
Proof.
  unfold main_resolve_serviceAccount, console_log.
  repeat (frame_step || apply emits_prompt || apply emits_existsSync || apply emits_statSync
          || apply emits_readdirSync || apply emits_pick); reflexivity.
Qed.

Lemma keeps_main_resolve_serviceAccount s : keeps (main_resolve_serviceAccount w s).
Proof.
  unfold main_resolve_serviceAccount, console_log.
  repeat (frame_step || apply keeps_prompt || apply keeps_existsSync || apply keeps_statSync
          || apply keeps_readdirSync || apply keeps_pick).
Qed.

Lemma emits_main_inputs : emits local (main_inputs w).
Proof.
  unfold main_inputs.
  repeat (frame_step || apply emits_main_load_cache || apply emits_main_resolve_uid
          || apply emits_main_resolve_apiKey || apply emits_main_resolve_serviceAccount).
Qed.

Lemma keeps_main_inputs : keeps (main_inputs w).
Proof.
  unfold main_inputs.
  repeat (frame_step || apply keeps_main_load_cache || apply keeps_main_resolve_uid
          || apply keeps_main_resolve_apiKey || apply keeps_main_resolve_serviceAccount).
Qed.

End Local.

(** ** Values in conditions *)

Lemma truthy_VStr s : truthy (VStr s) = true <-> s <> EmptyString.
Proof.
  cbn [truthy]. rewrite negb_true_iff. split.
  - intros H E. subst. discriminate.
  - intros H. destruct (String.eqb_spec s EmptyString); [contradiction | reflexivity].
Qed.

Lemma js_or_truthy a b : truthy a = true -> js_or a b = a.
Proof. intros H. unfold js_or. now rewrite H. Qed.

Lemma truthy_js_or a b : truthy (js_or a b) = truthy a || truthy b.
Proof. unfold js_or. destruct (truthy a) eqn:E; [now rewrite E | reflexivity]. Qed.

(** ** The steps of [main], evaluated *)

Lemma prompt_eq w q st :
  prompt w q st
  = (Ret (trim (answers w (st_asked st))),
     mk_state (st_fs st) (st_trace st ++ [Question (colorText q colors_cyan)])
       (S (st_asked st)) (st_apps st) (st_projectId st)).
Proof.
  unfold prompt, question. run_monad. destruct (readline_promises w); reflexivity.
Qed.

(** With any of the four flags on the command line the cache is read and
    not offered: no question is asked and the inputs stay as they were. *)
Lemma main_load_cache_flag w uid serviceAccount apiKey st :
  truthy (js_or (js_or (js_or (argv_uid w) (argv_serviceAccount w)) (argv_apiKey w))
            (st_projectId st)) = true ->
  main_load_cache w uid serviceAccount apiKey st
  = (Ret (uid, serviceAccount, apiKey), snd (readCache w st)).
Proof.
  intros H. unfold main_load_cache.
  rewrite (bind_eq _ _ st _ _ (readCache_eq w st)).
  rewrite readCache_eq. cbn [snd].
  match goal with |- context [truthy ?c] => destruct (truthy c) end; [| reflexivity].
  unfold get_projectId. run_monad. now rewrite H.
Qed.

Lemma main_resolve_uid_flag w uid st :
  truthy uid = true -> main_resolve_uid w uid st = (Ret uid, st).
Proof. intros H. unfold main_resolve_uid. now rewrite H. Qed.

Lemma main_resolve_uid_typed w uid st :
  truthy uid = false -> trim (answers w (st_asked st)) <> EmptyString ->
  main_resolve_uid w uid st
  = (Ret (VStr (trim (answers w (st_asked st)))), snd (prompt w "Enter UID to mint token for: " st)).
Proof.
  intros H Ht. unfold main_resolve_uid. rewrite H. cbn [negb].
  rewrite (bind_eq _ _ st _ _ (prompt_eq w _ st)).
  apply truthy_VStr in Ht. rewrite Ht. cbn [negb]. now rewrite prompt_eq.
Qed.

Lemma main_resolve_serviceAccount_given w serviceAccount st :
  truthy serviceAccount = true ->
  main_resolve_serviceAccount w serviceAccount st = (Ret serviceAccount, st).
Proof. intros H. unfold main_resolve_serviceAccount. now rewrite H. Qed.

(** [initAdmin] on a path that names no file. *)
Lemma main_init_missing w st p :
  p <> EmptyString -> st_apps st = 0 -> st_fs st (path_resolve w p) = None ->
  main_init w (VStr p) st
  = (Exit 2,
     with_trace st
       [ExistsSync (path_resolve w p);
        LogError ["Failed to initialize Firebase Admin:";
                  "Service account file not found: " ++ path_resolve w p]]).
Proof.
  intros Hp Ha Hf. apply truthy_VStr in Hp.
  unfold main_init, initAdmin, initAdmin_credential, path_resolve_value, existsSync, with_trace.
  rewrite Hp. run_monad. rewrite Ha. cbn. rewrite Hf. cbn.
  rewrite <- List.app_assoc, ?Ha. reflexivity.
Qed.

Lemma local_not_network e : local e -> network_call e = false.
Proof. unfold local. destruct e; cbn; intros H; try discriminate H; reflexivity. Qed.

Lemma main_resolve_apiKey_given w apiKey st :
  truthy apiKey = true -> main_resolve_apiKey w apiKey st = (Ret apiKey, st).
Proof. intros H. unfold main_resolve_apiKey. now rewrite H. Qed.

(** With [--serviceAccount p], a uid and a key at hand, the inputs are
    gathered and the path is passed on as it was given. *)
Lemma main_inputs_explicit_path w p st :
  argv_serviceAccount w = VStr p -> p <> EmptyString ->
  st_asked st = 0 ->
  truthy (argv_uid w) = true \/ trim (answers w 0) <> EmptyString ->
  truthy (js_or (argv_apiKey w) (env w "FIREBASE_API_KEY")) = true ->
  exists uid, fst (main_inputs w st)
              = Ret (uid, VStr p, js_or (argv_apiKey w) (env w "FIREBASE_API_KEY")).
Proof.
  intros Hsa Hp Hasked Huid Hkey. apply truthy_VStr in Hp.
  unfold main_inputs. rewrite Hsa, (js_or_truthy (VStr p)) by exact Hp.
  rewrite (bind_eq _ _ st _ _ (main_load_cache_flag w _ _ _ st ltac:(
    rewrite !truthy_js_or, Hsa, Hp, orb_true_r; reflexivity))).
  cbv beta iota.
  assert (Hasked1 : st_asked (snd (readCache w st)) = 0)
    by (rewrite readCache_eq; exact Hasked).
  set (st1 := snd (readCache w st)) in *.
  assert (U : exists uid st2, main_resolve_uid w (argv_uid w) st1 = (Ret uid, st2)).
  { destruct (truthy (argv_uid w)) eqn:Hu.
    - eexists. eexists. now apply main_resolve_uid_flag.
    - destruct Huid as [Huid | Huid]; [discriminate |].
      eexists. eexists. apply main_resolve_uid_typed; [exact Hu |].
      now rewrite Hasked1. }
  destruct U as [uid [st2 U]]. rewrite (bind_eq _ _ st1 _ _ U).
  rewrite (bind_eq _ _ st2 _ _ (main_resolve_apiKey_given w _ st2 Hkey)).
  rewrite (bind_eq _ _ st2 _ _ (main_resolve_serviceAccount_given w (VStr p) st2 Hp)).
  exists uid. reflexivity.
Qed.

(** C6, as the code has it.  A run with [--serviceAccount p], where [p]
    resolves to a path that does not exist, with a uid at hand (the flag, or
    a non-empty answer to the first question) and with a Web API key at hand
    (the flag or [FIREBASE_API_KEY], so that the key is not asked for) exits
    with code 2; the last thing it does is print the error that names the
    resolved path, right after the existence check; nothing before that is a
    network call. *)
Theorem missing_service_account_exits_2 (w : world) (p : string) :
  argv_serviceAccount w = VStr p -> p <> EmptyString ->
  disk w (path_resolve w p) = None ->
  truthy (argv_uid w) = true \/ trim (answers w 0) <> EmptyString ->
  truthy (js_or (argv_apiKey w) (env w "FIREBASE_API_KEY")) = true ->
  exists evs,
    fst (run w) = Exit 2
    /\ st_trace (snd (run w))
       = (evs ++ [ExistsSync (path_resolve w p);
                  LogError ["Failed to initialize Firebase Admin:";
                            ("Service account file not found: " ++ path_resolve w p)%string]])%list
    /\ Forall (fun e => network_call e = false) (st_trace (snd (run w))).
Proof.
  intros Hsa Hp Hdisk Huid Hkey.
  destruct (main_inputs_explicit_path w p (initial_state w) Hsa Hp eq_refl Huid Hkey)
    as [uid Hin].
  destruct (keeps_main_inputs w (initial_state w)) as [Hfs Happs].
  destruct (emits_main_inputs w (initial_state w)) as [evs [Htr Hloc]].
  unfold run, main.
  destruct (main_inputs w (initial_state w)) as [r st1] eqn:E. cbn [fst snd] in *. subst r.
  rewrite (bind_eq _ _ _ _ _ E). cbv beta iota.
  assert (Hinit := main_init_missing w st1 p Hp).
  rewrite Happs, Hfs in Hinit. specialize (Hinit eq_refl Hdisk).
  rewrite (bind_exit _ _ _ _ _ Hinit).
  exists evs. cbn [fst snd with_trace st_trace]. rewrite Htr. cbn [app].
  split; [reflexivity |]. split; [reflexivity |].
  apply Forall_app. split.
  - eapply Forall_impl; [| exact Hloc]. apply local_not_network.
  - repeat constructor.
Qed.

Lemma missing_service_account_exits_2_witness :
  exists evs,
    fst (run missing_file_world) = Exit 2
    /\ st_trace (snd (run missing_file_world))
       = (evs ++ [ExistsSync "/work/missing.json";
                  LogError ["Failed to initialize Firebase Admin:";
                            "Service account file not found: /work/missing.json"]])%list
    /\ Forall (fun e => network_call e = false) (st_trace (snd (run missing_file_world))).
Proof.
  apply (missing_service_account_exits_2 missing_file_world "./missing.json").
  - reflexivity.
  - discriminate.
  - reflexivity.
  - left. reflexivity.
  - reflexivity.
Defined.

(** C6 as stated fails when no uid is at hand: the run stops with code 1
    before it looks at the service-account path. *)
Lemma missing_service_account_without_uid :
  argv_serviceAccount missing_file_no_uid_world = VStr "./missing.json"
  /\ disk missing_file_no_uid_world (path_resolve missing_file_no_uid_world "./missing.json") = None
  /\ fst (run missing_file_no_uid_world) = Exit 1.
Proof. split; [reflexivity |]. split; [reflexivity |]. vm_compute. reflexivity. Qed.

(** ** Minting and exchange *)

Lemma with_trace_app st a b : with_trace (with_trace st a) b = with_trace st (a ++ b).
Proof. unfold with_trace. cbn. now rewrite List.app_assoc. Qed.

Lemma emit_eq e st : emit e st = (Ret tt, with_trace st [e]).
Proof. reflexivity. Qed.

Lemma createCustomToken_ok w uid st tok :
  auth_createCustomToken w uid = inl tok ->
  createCustomToken w uid st = (Ret tok, with_trace st [CreateCustomToken uid]).
Proof. intros H. unfold createCustomToken. run_monad. now rewrite H. Qed.

(** A run that gets as far as minting is the minting and exchange step run
    on the state the initialisation left. *)
Lemma run_reaches_tokens w uid serviceAccount apiKey :
  fst (main_inputs w (initial_state w)) = Ret (uid, serviceAccount, apiKey) ->
  fst (main_init w serviceAccount (snd (main_inputs w (initial_state w)))) = Ret tt ->
  run w
  = main_tokens w uid serviceAccount apiKey
      (snd (main_init w serviceAccount (snd (main_inputs w (initial_state w))))).
Proof.
  intros H1 H2. unfold run, main.
  destruct (main_inputs w (initial_state w)) as [r st1] eqn:E1. cbn [fst snd] in *. subst r.
  rewrite (bind_eq _ _ _ _ _ E1). cbv beta iota.
  destruct (main_init w serviceAccount st1) as [r st2] eqn:E2. cbn [fst snd] in *. subst r.
  now rewrite (bind_eq _ _ _ _ _ E2).
Qed.

(** The catch of lines 254-257. *)
Lemma main_tokens_exchange_throws w uid serviceAccount apiKey st tok err st' :
  auth_createCustomToken w uid = inl tok ->
  exchangeCustomTokenForIdToken w tok apiKey
    (with_trace st [CreateCustomToken uid; token_line tok]) = (Throw err, st') ->
  main_tokens w uid serviceAccount apiKey st
  = (Exit 3, with_trace st' [error_line (error_text err)]).
Proof.
  intros Hm Hx. unfold main_tokens.
  erewrite try_catch_throw.
  - unfold console_error. rewrite (bind_eq _ _ _ _ _ (emit_eq _ _)). reflexivity.
  - rewrite (bind_eq _ _ _ _ _ (createCustomToken_ok w uid st tok Hm)).
    unfold console_log. rewrite (bind_eq _ _ _ _ _ (emit_eq _ _)).
    rewrite with_trace_app. cbn [app].
    apply bind_throw. exact Hx.
Qed.

Lemma exchange_appends w tok apiKey st :
  exists evs, snd (exchangeCustomTokenForIdToken w tok apiKey st) = with_trace st evs.
Proof.
  unfold exchangeCustomTokenForIdToken, loadFetch, res_json, with_trace.
  destruct (truthy apiKey); cbn [negb].
  2:{ exists []. cbn. rewrite List.app_nil_r. now destruct st. }
  run_monad.
  destruct (import_node_fetch w); cbn.
  { eexists. reflexivity. }
  destruct (node_fetch w _ _) as [res | e]; cbn.
  2:{ eexists. rewrite <- List.app_assoc. reflexivity. }
  destruct (json_parse (res_body res)); cbn.
  2:{ eexists. rewrite <- List.app_assoc. reflexivity. }
  destruct (res_ok res); cbn; eexists; rewrite <- List.app_assoc; reflexivity.
Qed.

(** A non-success answer whose body parses: lines 170-174. *)
Lemma exchange_rejected w tok apiKey st res data :
  truthy apiKey = true -> import_node_fetch w = None ->
  node_fetch w (exchange_url apiKey) (exchange_body tok) = inl res ->
  res_ok res = false ->
  json_parse (res_body res) = Some data ->
  exchangeCustomTokenForIdToken w tok apiKey st
  = (Throw (Error ("Failed to exchange custom token: "
                   ++ to_string (exchange_error_detail data))),
     with_trace st [ImportFetch;
                    Fetch (exchange_url apiKey) "POST" [("Content-Type", "application/json")]
                      (exchange_body tok)]).
Proof.
  intros Hk Hi Hf Hok Hj.
  unfold exchangeCustomTokenForIdToken, loadFetch, res_json, with_trace.
  remember (exchange_url apiKey) as url eqn:Eu.
  remember (exchange_body tok) as body eqn:Eb.
  remember (Error ("Failed to exchange custom token: "
                   ++ to_string (exchange_error_detail data))) as err eqn:Ee.
  rewrite Hk. cbn [negb]. run_monad. rewrite Hi. cbn. rewrite Hf. cbn. rewrite Hj. cbn.
  rewrite Hok. cbn. rewrite <- List.app_assoc. subst err. reflexivity.
Qed.

(** The detail taken from the body is the nested [error.message] when that
    is a non-empty string. *)
Lemma exchange_error_detail_nested data m :
  get_prop (get_prop data "error") "message" = VStr m -> m <> EmptyString ->
  exchange_error_detail data = VStr m.
Proof.
  intros H Hm. unfold exchange_error_detail, js_and.
  destruct data as [| | | | | | | ps]; try discriminate H.
  cbn [truthy]. destruct (get_prop (VObj ps) "error") as [| | | | | | | es] eqn:E;
    try discriminate H.
  cbn [truthy]. rewrite H. apply truthy_VStr in Hm. now rewrite Hm.
Qed.

(** C2, as the code has it.  In a run that reaches the exchange, when the
    endpoint answers with a non-success status and a JSON body whose nested
    [error.message] is a non-empty string [m], the detail extracted from the
    body is exactly [m], the message of the error raised and printed is
    [Failed to exchange custom token: ] followed by [m], and the process
    exits with code 3. *)
Theorem exchange_error_reported (w : world) (uid serviceAccount apiKey : value)
    (tok : string) (res : response) (data : value) (m : string) :
  fst (main_inputs w (initial_state w)) = Ret (uid, serviceAccount, apiKey) ->
  fst (main_init w serviceAccount (snd (main_inputs w (initial_state w)))) = Ret tt ->
  auth_createCustomToken w uid = inl tok ->
  truthy apiKey = true ->
  import_node_fetch w = None ->
  node_fetch w (exchange_url apiKey) (exchange_body tok) = inl res ->
  res_ok res = false ->
  json_parse (res_body res) = Some data ->
  get_prop (get_prop data "error") "message" = VStr m ->
  m <> EmptyString ->
  exchange_error_detail data = VStr m
  /\ (forall st, fst (exchangeCustomTokenForIdToken w tok apiKey st)
                 = Throw (Error ("Failed to exchange custom token: " ++ m)))
  /\ fst (run w) = Exit 3
  /\ exists evs,
       st_trace (snd (run w))
       = (evs ++ [error_line ("Failed to exchange custom token: " ++ m)])%list.
Proof.
  intros Hin Hinit Hmint Hk Hi Hf Hok Hj Hmsg Hm.
  pose proof (exchange_error_detail_nested data m Hmsg Hm) as Hd.
  split; [exact Hd |]. split.
  - intros st. rewrite (exchange_rejected w tok apiKey st res data Hk Hi Hf Hok Hj).
    now rewrite Hd.
  - rewrite (run_reaches_tokens w uid serviceAccount apiKey Hin Hinit).
    erewrite main_tokens_exchange_throws;
      [| exact Hmint | apply (exchange_rejected w tok apiKey _ res data Hk Hi Hf Hok Hj)].
    rewrite Hd. cbn [fst snd to_string].
    split; [reflexivity |]. eexists. cbn [with_trace st_trace]. reflexivity.
Qed.

Lemma exchange_error_reported_witness :
  exchange_error_detail
    (VObj [("error", VObj [("message", VStr "INVALID_CUSTOM_TOKEN")])])
  = VStr "INVALID_CUSTOM_TOKEN"
  /\ (forall st, fst (exchangeCustomTokenForIdToken invalid_custom_token_world "CUSTOM.TOKEN"
                        (VStr "k1") st)
                 = Throw (Error "Failed to exchange custom token: INVALID_CUSTOM_TOKEN"))
  /\ fst (run invalid_custom_token_world) = Exit 3
  /\ exists evs,
       st_trace (snd (run invalid_custom_token_world))
       = (evs ++ [error_line "Failed to exchange custom token: INVALID_CUSTOM_TOKEN"])%list.
Proof.
  apply (exchange_error_reported invalid_custom_token_world (VStr "u1") (VStr "/work/sa.json")
           (VStr "k1") "CUSTOM.TOKEN" invalid_custom_token_response
           (VObj [("error", VObj [("message", VStr "INVALID_CUSTOM_TOKEN")])])
           "INVALID_CUSTOM_TOKEN").
  - vm_compute. reflexivity.
  - vm_compute. reflexivity.
  - reflexivity.
  - reflexivity.
  - reflexivity.
  - reflexivity.
  - reflexivity.
  - vm_compute. reflexivity.
  - reflexivity.
  - discriminate.
Defined.

(** C2 as stated fails on the message: what the exchanger raises, and what
    the run prints, is not the bare [INVALID_CUSTOM_TOKEN]. *)
Lemma exchange_error_message_is_prefixed :
  fst (exchangeCustomTokenForIdToken invalid_custom_token_world "CUSTOM.TOKEN" (VStr "k1")
         (initial_state invalid_custom_token_world))
  = Throw (Error "Failed to exchange custom token: INVALID_CUSTOM_TOKEN")
  /\ "Failed to exchange custom token: INVALID_CUSTOM_TOKEN" <> "INVALID_CUSTOM_TOKEN"
  /\ last (st_trace (snd (run invalid_custom_token_world))) (Log [])
     = error_line "Failed to exchange custom token: INVALID_CUSTOM_TOKEN".
Proof.
  split; [vm_compute; reflexivity |]. split; [discriminate |]. vm_compute. reflexivity.
Qed.

(** What the exchanger returns or throws does not depend on the state. *)
Lemma exchange_outcome w tok apiKey st st' :
  fst (exchangeCustomTokenForIdToken w tok apiKey st)
  = fst (exchangeCustomTokenForIdToken w tok apiKey st').
Proof.
  unfold exchangeCustomTokenForIdToken, loadFetch, res_json.
  destruct (truthy apiKey); cbn [negb]; [| reflexivity].
  run_monad.
  destruct (import_node_fetch w); cbn; [reflexivity |].
  destruct (node_fetch w _ _) as [res | e]; cbn; [| reflexivity].
  destruct (json_parse (res_body res)); cbn; [| reflexivity].
  destruct (res_ok res); reflexivity.
Qed.

(** Between its start and its end the exchanger only loads the HTTP client
    and sends the request. *)
Lemma exchange_appends_fetch w tok apiKey st :
  exists evs,
    snd (exchangeCustomTokenForIdToken w tok apiKey st) = with_trace st evs
    /\ Forall (fun e => is_fetch e = true) evs.
Proof.
  unfold exchangeCustomTokenForIdToken, loadFetch, res_json, with_trace.
  destruct (truthy apiKey); cbn [negb].
  2:{ exists []. cbn. rewrite List.app_nil_r. split; [now destruct st | constructor]. }
  run_monad.
  destruct (import_node_fetch w); cbn.
  { eexists. split; [reflexivity | repeat constructor]. }
  destruct (node_fetch w _ _) as [res | e]; cbn.
  2:{ eexists. rewrite <- List.app_assoc. split; [reflexivity | repeat constructor]. }
  destruct (json_parse (res_body res)); cbn.
  2:{ eexists. rewrite <- List.app_assoc. split; [reflexivity | repeat constructor]. }
  destruct (res_ok res); cbn; eexists; rewrite <- List.app_assoc;
    (split; [reflexivity | repeat constructor]).
Qed.

(** C9. In a run that mints the custom token [tok] and whose exchange then
    throws [err], the console shows the token before the error: the line
    [Custom token created:] in green, followed by [tok] itself, dimmed, is
    printed; after it come only the loading of the HTTP client and the
    request; then the line [Error:] with the message of [err] (or its name,
    when it has no message), in red, is printed on the error stream; it is
    the last thing the run does, and the process exits with code 3. *)
Theorem custom_token_printed_before_exchange_error (w : world)
    (uid serviceAccount apiKey : value) (tok : string) (err : error) :
  fst (main_inputs w (initial_state w)) = Ret (uid, serviceAccount, apiKey) ->
  fst (main_init w serviceAccount (snd (main_inputs w (initial_state w)))) = Ret tt ->
  auth_createCustomToken w uid = inl tok ->
  fst (exchangeCustomTokenForIdToken w tok apiKey (initial_state w)) = Throw err ->
  exists before between,
    fst (run w) = Exit 3
    /\ st_trace (snd (run w))
       = (before
          ++ Log [(String esc "[32m" ++ nl ++ "Custom token created:" ++ String esc "[0m")%string;
                  (String esc "[2m" ++ tok ++ String esc "[0m")%string]
          :: between
          ++ [LogError [(String esc "[31m" ++ "Error:" ++ String esc "[0m")%string;
                        (String esc "[31m"
                         ++ (if (err_message err =? "")%string then err_name err
                             else err_message err)
                         ++ String esc "[0m")%string]])%list
    /\ Forall (fun e => is_fetch e = true) between.
Proof.
  intros Hin Hinit Hmint Hx.
  rewrite (run_reaches_tokens w uid serviceAccount apiKey Hin Hinit).
  set (st2 := snd (main_init w serviceAccount (snd (main_inputs w (initial_state w))))) in *.
  rewrite (exchange_outcome w tok apiKey _
             (with_trace st2 [CreateCustomToken uid; token_line tok])) in Hx.
  destruct (exchange_appends_fetch w tok apiKey
              (with_trace st2 [CreateCustomToken uid; token_line tok])) as [evs [Hevs Hfetch]].
  destruct (exchangeCustomTokenForIdToken w tok apiKey
              (with_trace st2 [CreateCustomToken uid; token_line tok])) as [r st3] eqn:E.
  cbn [fst snd] in *. subst r st3.
  rewrite (main_tokens_exchange_throws w uid serviceAccount apiKey st2 tok err _ Hmint E).
  exists (st_trace st2 ++ [CreateCustomToken uid])%list, evs.
  split; [reflexivity |]. split; [| exact Hfetch].
  cbn [snd with_trace st_trace]. rewrite <- !List.app_assoc. cbn [app].
  unfold token_line, error_line, error_text, error_to_string, colorText,
    colors_green, colors_dim, colors_red, colors_reset.
  destruct (err_message err =? "")%string; reflexivity.
Qed.

Lemma custom_token_printed_before_exchange_error_witness :
  exists before between,
    fst (run invalid_custom_token_world) = Exit 3
    /\ st_trace (snd (run invalid_custom_token_world))
       = (before
          ++ Log [(String esc "[32m" ++ nl ++ "Custom token created:" ++ String esc "[0m")%string;
                  (String esc "[2m" ++ "CUSTOM.TOKEN" ++ String esc "[0m")%string]
          :: between
          ++ [LogError [(String esc "[31m" ++ "Error:" ++ String esc "[0m")%string;
                        (String esc "[31m"
                         ++ "Failed to exchange custom token: INVALID_CUSTOM_TOKEN"
                         ++ String esc "[0m")%string]])%list
    /\ Forall (fun e => is_fetch e = true) between.
Proof.
  apply (custom_token_printed_before_exchange_error invalid_custom_token_world (VStr "u1")
           (VStr "/work/sa.json") (VStr "k1") "CUSTOM.TOKEN"
           (Error "Failed to exchange custom token: INVALID_CUSTOM_TOKEN")).
  - vm_compute. reflexivity.
  - vm_compute. reflexivity.
  - reflexivity.
  - vm_compute. reflexivity.
Defined.

(** ** The credential scan *)

Lemma existsSync_eq p st :
  existsSync p st
  = (Ret (match st_fs st p with Some _ => true | None => false end), with_trace st [ExistsSync p]).
Proof. reflexivity. Qed.

Lemma statSync_dir p st names :
  st_fs st p = Some (Dir names) ->
  statSync_isDirectory p st = (Ret true, with_trace st [StatSync p]).
Proof. intros H. unfold statSync_isDirectory. run_monad. now rewrite H. Qed.

Lemma readdirSync_ok w p st names :
  st_fs st p = Some (Dir names) -> read_denied w p = false ->
  readdirSync w p st = (Ret names, with_trace st [ReaddirSync p]).
Proof. intros H Hr. unfold readdirSync. run_monad. now rewrite H, Hr. Qed.

Lemma truthy_js_and a b : truthy (js_and a b) = truthy a && truthy b.
Proof. unfold js_and. destruct (truthy a) eqn:E; [reflexivity | now rewrite E]. Qed.

(** The loop body decides what [is_service_account_file] says, and reads the
    file once. *)
Lemma looks_like_eq w full st :
  looks_like_service_account w full st
  = (Ret (is_service_account_file w (st_fs st) full), with_trace st [ReadFileSync full]).
Proof.
  unfold looks_like_service_account, readFileSync, is_service_account_file,
    has_service_account_fields, with_trace.
  run_monad.
  destruct (st_fs st full) as [[text | names] |]; cbn; try reflexivity.
  destruct (read_denied w full); cbn; [reflexivity |].
  destruct (json_parse text) as [content |]; cbn; [| reflexivity].
  destruct content; cbn; try reflexivity.
  now rewrite truthy_js_and.
Qed.

(** The loop returns the first entry of [files] that passes the test, having
    read the entries up to it. *)
Lemma pick_eq w dir files st :
  pick_service_account w dir files st
  = (Ret (option_map (path_join w dir)
            (find (fun f => is_service_account_file w (st_fs st) (path_join w dir f)) files)),
     with_trace st
       (map (fun f => ReadFileSync (path_join w dir f))
          (take_through (fun f => is_service_account_file w (st_fs st) (path_join w dir f))
             files))).
Proof.
  revert st. induction files as [| f files IH]; intros st.
  - unfold with_trace. cbn. rewrite List.app_nil_r. now destruct st.
  - cbn [pick_service_account find take_through].
    rewrite (bind_eq _ _ _ _ _ (looks_like_eq w (path_join w dir f) st)).
    destruct (is_service_account_file w (st_fs st) (path_join w dir f)); [reflexivity |].
    rewrite IH. cbn [with_trace st_fs map]. rewrite with_trace_app. reflexivity.
Qed.

Lemma find_first {A} (P : A -> bool) (pre : list A) (x : A) (post : list A) :
  forallb (fun y => negb (P y)) pre = true -> P x = true ->
  find P (pre ++ x :: post) = Some x.
Proof.
  induction pre as [| y pre IH]; simpl; intros Hpre Hx.
  - now rewrite Hx.
  - apply andb_true_iff in Hpre. destruct Hpre as [Hy Hpre].
    apply negb_true_iff in Hy. rewrite Hy. now apply IH.
Qed.

Lemma find_nothing {A} (P : A -> bool) (l : list A) :
  forallb (fun y => negb (P y)) l = true -> find P l = None.
Proof.
  induction l as [| y l IH]; simpl; intros H; [reflexivity |].
  apply andb_true_iff in H. destruct H as [Hy H].
  apply negb_true_iff in Hy. rewrite Hy. now apply IH.
Qed.

(** The scan over a listing: suffix filter, then first hit. *)
Lemma find_candidate w fs dir pre f post :
  candidate w fs dir f = true ->
  forallb (fun g => negb (candidate w fs dir g)) pre = true ->
  find (fun g => is_service_account_file w fs (path_join w dir g))
    (filter (fun g => endsWith g ".json") (pre ++ f :: post))
  = Some f.
Proof.
  unfold candidate. intros Hf Hpre. apply andb_true_iff in Hf. destruct Hf as [Hj Hs].
  rewrite filter_app. cbn [filter]. rewrite Hj.
  apply find_first; [| exact Hs].
  apply forallb_forall. intros g Hg. apply filter_In in Hg. destruct Hg as [Hin Hgj].
  rewrite forallb_forall in Hpre. specialize (Hpre g Hin). now rewrite Hgj in Hpre.
Qed.

Lemma find_no_candidate w fs dir names :
  forallb (fun g => negb (candidate w fs dir g)) names = true ->
  find (fun g => is_service_account_file w fs (path_join w dir g))
    (filter (fun g => endsWith g ".json") names)
  = None.
Proof.
  unfold candidate. intros H. apply find_nothing.
  apply forallb_forall. intros g Hg. apply filter_In in Hg. destruct Hg as [Hin Hgj].
  rewrite forallb_forall in H. specialize (H g Hin). now rewrite Hgj in H.
Qed.

Lemma bind_cong {A B} (m m' : M A) (k : A -> M B) st st' :
  m st = m' st' -> bind m k st = bind m' k st'.
Proof. intros H. unfold bind. now rewrite H. Qed.

Lemma bind_assoc {A B C} (m : M A) (f : A -> M B) (g : B -> M C) st :
  bind (bind m f) g st = bind m (fun a => bind (f a) g) st.
Proof. unfold bind. destruct (m st) as [[a | e | c] st']; reflexivity. Qed.

Lemma emits_any_cert w sa : emits any_event (admin_credential_cert w sa).
Proof.
  unfold admin_credential_cert, lift_check.
  repeat frame_step; exact I.
Qed.

Lemma emits_any_initializeApp w o : emits any_event (admin_initializeApp w o).
Proof.
  unfold admin_initializeApp, lift_check.
  repeat frame_step; try exact I;
    intros st; exists []; rewrite List.app_nil_r; split; [reflexivity | constructor].
Qed.

(** Whatever follows a [require], the [require] comes first. *)
Lemma require_then {B} w p (k : value -> M B) st :
  (forall a, emits any_event (k a)) ->
  exists rest, st_trace (snd (bind (require w p) k st)) = (st_trace st ++ Require p :: rest)%list.
Proof.
  intros Hk. unfold require. rewrite bind_assoc.
  rewrite (bind_eq _ _ _ _ _ (emit_eq (Require p) st)).
  match goal with
  | |- context [bind ?m k ?s] => assert (Hm : emits any_event (bind m k))
  end.
  { apply emits_bind; [| exact Hk].
    intros s. exists []. rewrite List.app_nil_r. split; [| constructor].
    destruct (st_fs s p) as [[c | l] |]; try reflexivity.
    - destruct (read_denied w p); [reflexivity |].
      destruct (json_extension (path_basename w p)).
      + destruct (json_parse (stripBOM c)); reflexivity.
      + unfold lift_sum. destruct (load_module w c); reflexivity.
    - unfold lift_sum. destruct (load_package w p); reflexivity. }
  destruct (Hm (with_trace st [Require p])) as [rest [E _]].
  exists rest. rewrite E. cbn [with_trace st_trace]. now rewrite <- List.app_assoc.
Qed.

(** Lines 113-137, evaluated on a readable [.firebase/] directory. *)
Lemma initAdmin_credential_scan w st sa names :
  truthy sa = false ->
  truthy (env w "GOOGLE_APPLICATION_CREDENTIALS") = false ->
  st_fs st (path_resolve w ".firebase") = Some (Dir names) ->
  read_denied w (path_resolve w ".firebase") = false ->
  initAdmin_credential w sa st
  = match find (fun f => is_service_account_file w (st_fs st)
                           (path_join w (path_resolve w ".firebase") f))
            (filter (fun f => endsWith f ".json") names) with
    | Some f =>
        (bind (require w (path_join w (path_resolve w ".firebase") f))
           (admin_credential_cert w))
          (with_trace st (scan_events w (st_fs st) (path_resolve w ".firebase") names))
    | None =>
        (Throw no_service_account_found,
         with_trace st (scan_events w (st_fs st) (path_resolve w ".firebase") names))
    end.
Proof.
  intros Hsa Henv Hdir Hread. unfold initAdmin_credential. rewrite Hsa, Henv.
  set (dir := path_resolve w ".firebase") in *. cbv zeta.
  rewrite (bind_eq _ _ _ _ _ (existsSync_eq dir st)). rewrite Hdir.
  rewrite (bind_eq _ _ _ _ _ (statSync_dir dir (with_trace st [ExistsSync dir]) names Hdir)).
  rewrite with_trace_app. cbn [app].
  rewrite (bind_eq _ _ _ _ _
             (readdirSync_ok w dir (with_trace st [ExistsSync dir; StatSync dir]) names
                Hdir Hread)).
  rewrite with_trace_app. cbn [app]. cbv zeta.
  rewrite (bind_eq _ _ _ _ _ (pick_eq w dir _ _)).
  rewrite with_trace_app. cbn [with_trace st_fs app].
  unfold scan_events. cbn [app].
  destruct (find _ _) as [f |]; reflexivity.
Qed.

(** Lines 214-230, on the same directory. *)
Lemma main_resolve_serviceAccount_scan w st sa names f :
  truthy sa = false ->
  st_fs st (path_resolve w ".firebase") = Some (Dir names) ->
  read_denied w (path_resolve w ".firebase") = false ->
  find (fun f => is_service_account_file w (st_fs st)
                   (path_join w (path_resolve w ".firebase") f))
    (filter (fun f => endsWith f ".json") names) = Some f ->
  fst (main_resolve_serviceAccount w sa st)
  = Ret (VStr (path_join w (path_resolve w ".firebase") f)).
Proof.
  intros Hsa Hdir Hread Hfind. unfold main_resolve_serviceAccount. rewrite Hsa.
  set (dir := path_resolve w ".firebase") in *. cbv zeta. cbn [negb].
  rewrite (bind_eq _ _ _ _ _ (existsSync_eq dir st)). rewrite Hdir.
  rewrite (bind_eq _ _ _ _ _ (statSync_dir dir (with_trace st [ExistsSync dir]) names Hdir)).
  rewrite with_trace_app. cbn [app].
  erewrite bind_eq.
  2:{ rewrite (bind_eq _ _ _ _ _
                 (readdirSync_ok w dir (with_trace st [ExistsSync dir; StatSync dir]) names
                    Hdir Hread)).
      apply pick_eq. }
  cbn [with_trace st_fs]. rewrite Hfind. reflexivity.
Qed.

Lemma initAdmin_fresh w sa st :
  st_apps st = 0 ->
  initAdmin w sa st
  = bind (initAdmin_credential w sa)
      (fun cred =>
         bind get_projectId
           (fun projectId =>
              admin_initializeApp w
                (mk_options cred
                   (if truthy (js_or projectId (env w "FIREBASE_PROJECT_ID"))
                    then js_or projectId (env w "FIREBASE_PROJECT_ID")
                    else VUndefined)))) st.
Proof.
  intros H. unfold initAdmin.
  assert (E : get_apps st = (Ret (st_apps st), st)) by reflexivity.
  rewrite (bind_eq _ _ _ _ _ E), H. reflexivity.
Qed.

(** C5, as the code has it.  With no explicit path and no credential
    variable, on a readable [.firebase/] directory: the scan takes the first
    entry of the listing that ends in [.json] and whose file parses to JSON
    with a truthy [client_email] and a truthy [private_key], as line 123
    tests them.  It is the file that [initAdmin] then loads, right after the
    reads of the scan, and the path that [main] adopts.  If no entry
    qualifies, [initAdmin] throws.  An entry without the suffix, a file that
    does not parse and a file in which either field is absent or falsy (the
    empty string, [null], [false], zero) never qualify. *)
Theorem auto_detect_picks_first (w : world) (st : state) (sa : value) (names : list string) :
  st_apps st = 0 ->
  truthy sa = false ->
  truthy (env w "GOOGLE_APPLICATION_CREDENTIALS") = false ->
  st_fs st (path_resolve w ".firebase") = Some (Dir names) ->
  read_denied w (path_resolve w ".firebase") = false ->
  (forall pre f post,
      names = (pre ++ f :: post)%list ->
      candidate w (st_fs st) (path_resolve w ".firebase") f = true ->
      forallb (fun g => negb (candidate w (st_fs st) (path_resolve w ".firebase") g)) pre = true ->
      fst (pick_service_account w (path_resolve w ".firebase")
             (filter (fun g => endsWith g ".json") names) st)
      = Ret (Some (path_join w (path_resolve w ".firebase") f))
      /\ (exists rest,
             st_trace (snd (initAdmin w sa st))
             = (st_trace st
                ++ scan_events w (st_fs st) (path_resolve w ".firebase") names
                ++ Require (path_join w (path_resolve w ".firebase") f) :: rest)%list)
      /\ fst (main_resolve_serviceAccount w sa st)
         = Ret (VStr (path_join w (path_resolve w ".firebase") f)))
  /\ (forallb (fun g => negb (candidate w (st_fs st) (path_resolve w ".firebase") g)) names = true ->
      fst (initAdmin w sa st) = Throw no_service_account_found)
  /\ (forall g, endsWith g ".json" = false ->
                candidate w (st_fs st) (path_resolve w ".firebase") g = false)
  /\ (forall g text,
         st_fs st (path_join w (path_resolve w ".firebase") g) = Some (File text) ->
         json_parse text = None ->
         candidate w (st_fs st) (path_resolve w ".firebase") g = false)
  /\ (forall g text content,
         st_fs st (path_join w (path_resolve w ".firebase") g) = Some (File text) ->
         json_parse text = Some content ->
         truthy (get_prop content "client_email") = false
         \/ truthy (get_prop content "private_key") = false ->
         candidate w (st_fs st) (path_resolve w ".firebase") g = false).
Proof.
  intros Happs Hsa Henv Hdir Hread.
  set (dir := path_resolve w ".firebase") in *.
  split; [| split; [| split; [| split]]].
  - intros pre f post -> Hf Hpre.
    pose proof (find_candidate w (st_fs st) dir pre f post Hf Hpre) as Hfind.
    split; [| split].
    + rewrite pick_eq. cbn [fst]. now rewrite Hfind.
    + rewrite (initAdmin_fresh w sa st Happs).
      erewrite bind_cong
        by (rewrite (initAdmin_credential_scan w st sa _ Hsa Henv Hdir Hread);
            fold dir; rewrite Hfind; reflexivity).
      rewrite bind_assoc.
      match goal with
      | |- context [bind (require w ?p) ?k ?s] =>
          destruct (require_then w p k s) as [rest E]
      end.
      * intros a. apply emits_bind; [apply emits_any_cert |].
        intros cred. apply emits_bind; [| intros pid; apply emits_any_initializeApp].
        intros s. exists []. rewrite List.app_nil_r. split; [reflexivity | constructor].
      * exists rest. rewrite E. cbn [with_trace st_trace].
        now rewrite <- List.app_assoc.
    + now apply (main_resolve_serviceAccount_scan w st sa _ f Hsa Hdir Hread).
  - intros Hnone.
    rewrite (initAdmin_fresh w sa st Happs).
    erewrite bind_throw; [reflexivity |].
    rewrite (initAdmin_credential_scan w st sa names Hsa Henv Hdir Hread). fold dir.
    rewrite (find_no_candidate w (st_fs st) dir names Hnone). reflexivity.
  - intros g Hg. unfold candidate. now rewrite Hg.
  - intros g text Hfile Hparse. unfold candidate, is_service_account_file.
    rewrite Hfile, Hparse. now rewrite andb_false_r, andb_false_r.
  - intros g text content Hfile Hparse Hlack. unfold candidate, is_service_account_file,
      has_service_account_fields.
    rewrite Hfile, Hparse.
    destruct Hlack as [H | H]; rewrite H; cbn [andb]; now rewrite ?andb_false_r.
Qed.

Lemma auto_detect_picks_first_witness :
  fst (pick_service_account auto_detect_world "/work/.firebase"
         ["broken.json"; "partial.json"; "blank.json"; "sa.json"; "other.json"]
         (initial_state auto_detect_world))
  = Ret (Some "/work/.firebase/sa.json")
  /\ fst (main_resolve_serviceAccount auto_detect_world VUndefined
            (initial_state auto_detect_world))
     = Ret (VStr "/work/.firebase/sa.json").
Proof.
  destruct (auto_detect_picks_first auto_detect_world (initial_state auto_detect_world)
              VUndefined
              ["notes.txt"; "broken.json"; "partial.json"; "blank.json"; "sa.json"; "other.json"]
              eq_refl eq_refl eq_refl eq_refl eq_refl) as [Hpick _].
  destruct (Hpick ["notes.txt"; "broken.json"; "partial.json"; "blank.json"] "sa.json"
              ["other.json"] eq_refl) as [H1 [_ H3]].
  - vm_compute. reflexivity.
  - vm_compute. reflexivity.
  - split; [exact H1 | exact H3].
Defined.

(** C5 as stated fails on a file that contains both fields, one of them
    empty.  The listing is [blank.json], [sa.json]; [blank.json] parses and
    contains [client_email] and [private_key], the first being the empty
    string; the scan of [main] and the scan of [initAdmin] both pass over it
    and take [sa.json]. *)
Lemma auto_detect_skips_empty_field :
  disk blank_first_world "/work/.firebase" = Some (Dir ["blank.json"; "sa.json"])
  /\ disk blank_first_world "/work/.firebase/blank.json" = Some (File blank_field_json)
  /\ json_parse blank_field_json
     = Some (VObj [("client_email", VStr EmptyString); ("private_key", VStr "PEM")])
  /\ fst (main_resolve_serviceAccount blank_first_world VUndefined
            (initial_state blank_first_world))
     = Ret (VStr "/work/.firebase/sa.json")
  /\ fst (initAdmin_credential blank_first_world VUndefined (initial_state blank_first_world))
     = Ret (Cert service_account_value).
Proof. repeat split; vm_compute; reflexivity. Qed.

(** A number with a fraction or an exponent in the file does not matter to
    the scan. *)
Example fraction_is_read :
  json_parse ("{" ++ q "client_email" ++ ":" ++ q "x@y.z" ++ "," ++ q "private_key" ++ ":"
              ++ q "PEM" ++ "," ++ q "version" ++ ":1.5," ++ q "quota" ++ ":2e3}")
  = Some (VObj [("client_email", VStr "x@y.z"); ("private_key", VStr "PEM");
                ("version", VDouble (Finite false 6755399441055744 (-52)));
                ("quota", VNum 2000)]).
Proof. vm_compute. reflexivity. Qed.

(** ** Results of the steps *)

Section Returns.

Context {A B : Type}.

Lemma returns_ret (R : A -> Prop) (a : A) : R a -> returns R (ret a).
Proof. intros H st a' st' E. injection E as <- _. exact H. Qed.

Lemma returns_throw (R : A -> Prop) (e : error) : returns R (throw e).
Proof. intros st a st' E. discriminate E. Qed.

Lemma returns_exit (R : A -> Prop) (c : Z) : returns R (process_exit c).
Proof. intros st a st' E. discriminate E. Qed.

Lemma returns_always (R : A -> Prop) (m : M A) : (forall a, R a) -> returns R m.
Proof. intros H st a st' _. apply H. Qed.

Lemma returns_bind (Q : A -> Prop) (R : B -> Prop) (m : M A) (k : A -> M B) :
  returns Q m -> (forall a, Q a -> returns R (k a)) -> returns R (bind m k).
Proof.
  intros Hm Hk st b st' E. unfold bind in E.
  destruct (m st) as [[a | e | c] st1] eqn:Em; try discriminate E.
  apply (Hk a (Hm st a st1 Em) st1 b st' E).
Qed.

Lemma emits_bind_returns (P : event -> Prop) (Q : A -> Prop) (m : M A) (k : A -> M B) :
  emits P m -> returns Q m -> (forall a, Q a -> emits P (k a)) -> emits P (bind m k).
Proof.
  intros Hm Hq Hk st. unfold bind.
  destruct (Hm st) as [e1 [E1 F1]].
  destruct (m st) as [[a | e | c] st'] eqn:Em; cbn [snd] in *.
  - destruct (Hk a (Hq st a st' Em) st') as [e2 [E2 F2]].
    exists (e1 ++ e2)%list. rewrite E2, E1, List.app_assoc. split; [reflexivity |].
    apply Forall_app. auto.
  - exists e1. auto.
  - exists e1. auto.
Qed.

End Returns.

Lemma returns_bind_any {A B} (R : B -> Prop) (m : M A) (k : A -> M B) :
  (forall a, returns R (k a)) -> returns R (bind m k).
Proof.
  intros Hk. apply (returns_bind (fun _ => True)); [now apply returns_always | auto].
Qed.

Ltac returns_step :=
  lazymatch goal with
  | |- returns _ (ret _) => apply returns_ret
  | |- returns _ (throw _) => apply returns_throw
  | |- returns _ (process_exit _) => apply returns_exit
  | |- returns _ (bind _ _) => apply returns_bind_any; intros ?
  | |- returns _ (if ?b then _ else _) => destruct b eqn:?
  | |- returns _ (match ?x with _ => _ end) => destruct x eqn:?
  end.

(** ** The credential passed to [initAdmin]

    Whenever the credential variable is set, [main] hands [initAdmin] a truthy
    path: the variable's own value, by line 181, unless a flag overrides it. *)

Lemma main_load_cache_keeps_path w uid serviceAccount apiKey :
  returns (fun loaded => truthy serviceAccount = true -> truthy (snd (fst loaded)) = true)
    (main_load_cache w uid serviceAccount apiKey).
Proof.
  unfold main_load_cache. repeat returns_step; cbn [fst snd]; intros H; try exact H.
  now rewrite js_or_truthy.
Qed.

Lemma main_resolve_serviceAccount_keeps_path w serviceAccount :
  returns (fun s => truthy serviceAccount = true -> truthy s = true)
    (main_resolve_serviceAccount w serviceAccount).
Proof.
  unfold main_resolve_serviceAccount.
  destruct (truthy serviceAccount) eqn:E; cbn [negb].
  - apply returns_ret. intros _. exact E.
  - apply returns_always. intros a H. discriminate H.
Qed.

Lemma main_inputs_path w :
  returns (fun inputs =>
             truthy (env w "GOOGLE_APPLICATION_CREDENTIALS") = true ->
             truthy (snd (fst inputs)) = true)
    (main_inputs w).
Proof.
  unfold main_inputs.
  eapply returns_bind; [apply main_load_cache_keeps_path |].
  intros [[u s] a] Hs. cbn [fst snd] in Hs.
  apply returns_bind_any. intros u'. apply returns_bind_any. intros a'.
  eapply returns_bind; [apply main_resolve_serviceAccount_keeps_path |].
  intros s' Hs'. apply returns_ret. cbn [fst snd]. intros Henv.
  apply Hs', Hs. rewrite truthy_js_or, Henv. apply orb_true_r.
Qed.

(** ** No step but the environment branch of [initAdmin] asks for default
    credentials *)

Lemma local_not_default e : local e -> not_default e.
Proof. unfold local, not_default. intros H E. subst e. discriminate H. Qed.

Ltac frame_nd :=
  repeat frame_step;
  try (unfold not_default; discriminate);
  try (let st := fresh "st" in
       intros st; exists (@nil event); rewrite List.app_nil_r;
       split; [| constructor];
       repeat match goal with
              | |- context [match ?x with _ => _ end] => destruct x
              end;
       reflexivity).

Section NotDefault.

Variable w : world.

Lemma nd_local {A} (m : M A) : emits local m -> emits not_default m.
Proof. apply emits_weaken, local_not_default. Qed.

Lemma nd_require p : emits not_default (require w p).
Proof. unfold require, lift_sum. frame_nd. Qed.

Lemma nd_cert sa : emits not_default (admin_credential_cert w sa).
Proof. unfold admin_credential_cert, lift_check. frame_nd. Qed.

Lemma nd_initializeApp o : emits not_default (admin_initializeApp w o).
Proof. unfold admin_initializeApp, lift_check. frame_nd. Qed.

Lemma nd_path_resolve_value p : emits not_default (path_resolve_value w p).
Proof. unfold path_resolve_value. frame_nd. Qed.

Lemma nd_initAdmin_credential s :
  (truthy (env w "GOOGLE_APPLICATION_CREDENTIALS") = true -> truthy s = true) ->
  emits not_default (initAdmin_credential w s).
Proof.
  intros H. unfold initAdmin_credential.
  destruct (truthy s) eqn:Es.
  - repeat (apply nd_path_resolve_value || apply nd_require || apply nd_cert
            || (apply nd_local; apply emits_existsSync) || frame_step).
  - destruct (truthy (env w "GOOGLE_APPLICATION_CREDENTIALS")) eqn:Ee.
    + specialize (H eq_refl). discriminate H.
    + cbv zeta.
      repeat (apply nd_require || apply nd_cert
              || (apply nd_local; apply emits_existsSync)
              || (apply nd_local; apply emits_statSync)
              || (apply nd_local; apply emits_readdirSync)
              || (apply nd_local; apply emits_pick)
              || frame_step).
Qed.

Lemma nd_initAdmin s :
  (truthy (env w "GOOGLE_APPLICATION_CREDENTIALS") = true -> truthy s = true) ->
  emits not_default (initAdmin w s).
Proof.
  intros H. unfold initAdmin, get_apps, get_projectId.
  repeat (apply nd_initializeApp || apply (nd_initAdmin_credential s H) || frame_step);
    frame_nd.
Qed.

Lemma nd_main_init s :
  (truthy (env w "GOOGLE_APPLICATION_CREDENTIALS") = true -> truthy s = true) ->
  emits not_default (main_init w s).
Proof.
  intros H. unfold main_init, console_error.
  repeat (apply (nd_initAdmin s H) || frame_step); frame_nd.
Qed.

Lemma nd_exchange tok apiKey : emits not_default (exchangeCustomTokenForIdToken w tok apiKey).
Proof.
  unfold exchangeCustomTokenForIdToken, loadFetch, res_json, lift_sum, lift_check. frame_nd.
Qed.

Lemma nd_writeFileSync p c m : emits not_default (writeFileSync w p c m).
Proof.
  unfold writeFileSync. frame_step; [frame_nd |].
  intros st. exists []. rewrite List.app_nil_r. split; [| constructor].
  destruct (st_fs st p) as [[x | x] |]; try reflexivity;
    destruct (write_denied w p); reflexivity.
Qed.

Lemma nd_writeCache obj : emits not_default (writeCache w obj).
Proof.
  unfold writeCache, encodeSafe. cbv zeta.
  repeat (apply nd_writeFileSync || frame_step).
Qed.

Lemma nd_main_tokens u s a : emits not_default (main_tokens w u s a).
Proof.
  unfold main_tokens, createCustomToken, console_log, console_error, get_projectId, lift_sum.
  repeat (apply nd_exchange || apply nd_writeCache || frame_step); frame_nd.
Qed.

Lemma nd_main : emits not_default (main w).
Proof.
  unfold main.
  eapply emits_bind_returns;
    [apply nd_local, emits_main_inputs | apply main_inputs_path |].
  intros [[u s] a] H. cbn [fst snd] in H.
  apply emits_bind; [now apply nd_main_init | intros _; apply nd_main_tokens].
Qed.

End NotDefault.

Lemma not_default_absent l : Forall not_default l -> ~ In CredentialApplicationDefault l.
Proof.
  intros H Hin. rewrite Forall_forall in H. now apply (H _ Hin).
Qed.

(** C3, on the code.  [initAdmin], called without a path while the
    credential variable is set, does delegate to
    [admin.credential.applicationDefault()] (lines 110-111).  But [main] never
    calls it that way: by line 181 the value of the variable becomes the
    service-account path, so in no run at all is the default-credential
    mechanism asked for.  With the variable set to [/creds/sa.json] and no
    flag, the run checks that the file exists, loads it with [require] and
    builds a certificate credential from its content. *)
Theorem default_credentials_never_requested :
  (forall w sa st,
      truthy sa = false -> truthy (env w "GOOGLE_APPLICATION_CREDENTIALS") = true ->
      initAdmin_credential w sa st = admin_credential_applicationDefault w st)
  /\ (forall w, ~ In CredentialApplicationDefault (st_trace (snd (run w))))
  /\ argv_serviceAccount env_credentials_world = VUndefined
  /\ env env_credentials_world "GOOGLE_APPLICATION_CREDENTIALS" = VStr "/creds/sa.json"
  /\ exists after,
       st_trace (snd (run env_credentials_world))
       = ([ExistsSync "/work/.token-helper-cache";
           ExistsSync "/creds/sa.json";
           Require "/creds/sa.json";
           CredentialCert service_account_value]
          ++ after)%list.
Proof.
  split; [| split; [| split; [| split]]].
  - intros w sa st Hsa Henv. unfold initAdmin_credential. now rewrite Hsa, Henv.
  - intros w. unfold run. destruct (nd_main w (initial_state w)) as [evs [E F]].
    rewrite E. cbn [initial_state st_trace app]. now apply not_default_absent.
  - reflexivity.
  - reflexivity.
  - exists (skipn 4 (st_trace (snd (run env_credentials_world)))). vm_compute. reflexivity.
Qed.

(** ** Precedence of the inputs *)

(** Lines 191-193: a value that a flag or the environment supplied is kept;
    the cache only fills what is missing. *)
Lemma main_load_cache_fills_gaps w uid serviceAccount apiKey :
  returns (fun loaded =>
             (truthy uid = true -> fst (fst loaded) = uid)
             /\ (truthy serviceAccount = true -> snd (fst loaded) = serviceAccount)
             /\ (truthy apiKey = true -> snd loaded = apiKey))
    (main_load_cache w uid serviceAccount apiKey).
Proof.
  unfold main_load_cache. repeat returns_step; cbn [fst snd]; auto using js_or_truthy.
Qed.

(** Line 144: the project id of the options is [argv.projectId] if truthy,
    else the environment's. *)
Lemma initAdmin_projectId w sa st cred st1 :
  st_apps st = 0 ->
  initAdmin_credential w sa st = (Ret cred, st1) ->
  exists evs,
    st_trace (snd (initAdmin w sa st))
    = (st_trace st1
       ++ InitializeApp
            (mk_options cred
               (if truthy (js_or (st_projectId st1) (env w "FIREBASE_PROJECT_ID"))
                then js_or (st_projectId st1) (env w "FIREBASE_PROJECT_ID")
                else VUndefined))
          :: evs)%list.
Proof.
  intros Happs Hcred. rewrite (initAdmin_fresh w sa st Happs).
  rewrite (bind_eq _ _ _ _ _ Hcred).
  unfold get_projectId, admin_initializeApp, lift_check. run_monad.
  destruct (initializeApp w _); cbn; exists []; reflexivity.
Qed.

(** C8, on the code.  With no flag, a saved setup on disk and the operator
    answering [y]: the API key of the environment wins over the cached one
    (line 193), but the cached project id is stored into [argv.projectId]
    (line 194), which line 144 prefers to [FIREBASE_PROJECT_ID]; the SDK is
    initialised with the cached project id although the environment names
    another. *)
Theorem cached_projectId_overrides_environment :
  env cached_setup_world "FIREBASE_PROJECT_ID" = VStr "env-project"
  /\ env cached_setup_world "FIREBASE_API_KEY" = VStr "env-key"
  /\ fst (readCache cached_setup_world (initial_state cached_setup_world))
     = Ret (VObj cached_setup)
  /\ fst (main_inputs cached_setup_world (initial_state cached_setup_world))
     = Ret (VStr "cached-uid", VStr "/work/sa.json", VStr "env-key")
  /\ st_projectId (snd (main_inputs cached_setup_world (initial_state cached_setup_world)))
     = VStr "cached-project"
  /\ In (InitializeApp (mk_options (Cert service_account_value) (VStr "cached-project")))
       (st_trace (snd (run cached_setup_world))).
Proof.
  split; [reflexivity |]. split; [reflexivity |].
  split; [vm_compute; reflexivity |]. split; [vm_compute; reflexivity |].
  split; [vm_compute; reflexivity |]. vm_compute. tauto.
Qed.

(** * Further properties of the code *)

(** ** The cache codec: lines 45-56 *)

(** X1. [decodeSafe] undoes [encodeSafe] on every exact JSON value: the text
    between them is base64 of the JSON text, printable ASCII only, and neither
    function touches the state. *)
Theorem decodeSafe_encodeSafe (v : value) (st st' : state) :
  json_exact v = true ->
  exists text,
    encodeSafe v st = (Ret text, st)
    /\ all_plain text = true
    /\ decodeSafe text st' = (Ret v, st').
Proof.
  intros H. exists (base64_encode (text_of v)). split; [| split].
  - unfold encodeSafe. now rewrite (exact_defined v H).
  - apply all_plain_base64.
  - unfold decodeSafe, try_catch.
    now rewrite base64_decode_encode, (json_parse_stringify v H).
Qed.

Lemma decodeSafe_encodeSafe_witness :
  exists text,
    encodeSafe (VObj cached_setup) (initial_state plain_world)
    = (Ret text, initial_state plain_world)
    /\ all_plain text = true
    /\ decodeSafe text (initial_state cached_setup_world)
       = (Ret (VObj cached_setup), initial_state cached_setup_world).
Proof.
  apply (decodeSafe_encodeSafe (VObj cached_setup)). vm_compute. reflexivity.
Defined.

(** ** [writeCache]: lines 69-80 *)

(** X2. [writeCache] never fails, whatever it is given and whatever the disk
    says: it makes one attempt to write the cache file, with mode [0o600], and
    returns.  No other file changes; the cache file either holds the new text
    or is as it was, and it is as it was when the path cannot be written. *)
Theorem writeCache_never_fails (w : world) (obj : value) (st : state) :
  exists content st',
    writeCache w obj st = (Ret tt, st')
    /\ st_trace st' = (st_trace st ++ [WriteFileSync (CACHE_FILE w) content 384])%list
    /\ (forall p, p <> CACHE_FILE w -> st_fs st' p = st_fs st p)
    /\ (st_fs st' (CACHE_FILE w) = Some (File content)
        \/ st_fs st' (CACHE_FILE w) = st_fs st (CACHE_FILE w))
    /\ (write_denied w (CACHE_FILE w) = true -> st_fs st' = st_fs st)
    /\ st_asked st' = st_asked st /\ st_apps st' = st_apps st
    /\ st_projectId st' = st_projectId st.
Proof.
  unfold writeCache, encodeSafe, writeFileSync. cbn [stringify]. run_monad.
  destruct (st_fs st (CACHE_FILE w)) as [[c | names] |] eqn:E; cbn;
    try (destruct (write_denied w (CACHE_FILE w)) eqn:Hw; cbn);
    eexists; eexists; (split; [reflexivity |]); cbn;
    repeat split; auto; try discriminate;
    try (intros p Hp; destruct (String.eqb_spec p (CACHE_FILE w)); [contradiction | reflexivity]);
    try (left; now rewrite String.eqb_refl).
Qed.

(** ** [readCache] and white space around the payload: lines 61-63 *)

Lemma trimStart_rev_white_space c rest :
  In c white_space_code_points -> trimStart_rev (string_rev c ++ rest) = trimStart_rev rest.
Proof.
  unfold white_space_code_points. simpl.
  intros H. repeat (destruct H as [<- | H]; [reflexivity |]). destruct H.
Qed.

Lemma concat_cons_s c l : concat EmptyString (c :: l) = c ++ concat EmptyString l.
Proof. destruct l; cbn [concat]; [now rewrite append_empty_r | reflexivity]. Qed.

Lemma trimStart_blank_prefix chunks rest :
  Forall (fun c => In c white_space_code_points) chunks ->
  trimStart (concat EmptyString chunks ++ rest) = trimStart rest.
Proof.
  induction 1 as [| c l Hc Hl IH]; [reflexivity |].
  rewrite concat_cons_s, append_assoc_s, trimStart_white_space by exact Hc. exact IH.
Qed.

Lemma trimStart_rev_blank_prefix chunks rest :
  Forall (fun c => In c white_space_code_points) chunks ->
  trimStart_rev (string_rev (concat EmptyString chunks) ++ rest) = trimStart_rev rest.
Proof.
  intros H. revert rest. induction H as [| c l Hc Hl IH]; intros rest; [reflexivity |].
  rewrite concat_cons_s, string_rev_append, append_assoc_s, IH.
  now apply trimStart_rev_white_space.
Qed.

Lemma trimStart_plain_head a r : plain a = true -> trimStart (String a r) = String a r.
Proof.
  intros H. cbn [trimStart]. rewrite (plain_ws1 a H).
  destruct r as [| b [| c r]]; [reflexivity | now rewrite (plain_ws2 a b H) |].
  now rewrite (plain_ws2 a b H), (plain_ws3 a b c H).
Qed.

(** [trim] takes the white space off both ends of a printable text. *)
Lemma trim_padded pre s post :
  Forall (fun c => In c white_space_code_points) pre ->
  Forall (fun c => In c white_space_code_points) post ->
  all_plain s = true ->
  trim (concat EmptyString pre ++ s ++ concat EmptyString post) = s.
Proof.
  intros Hpre Hpost Hs. unfold trim, trimEnd.
  rewrite (trimStart_blank_prefix pre _ Hpre).
  destruct s as [| a s'].
  - cbn [append]. rewrite (trimStart_blank post Hpost). reflexivity.
  - cbn [all_plain] in Hs. apply andb_true_iff in Hs. destruct Hs as [Ha Hs'].
    change (String a s' ++ concat EmptyString post)
      with (String a (s' ++ concat EmptyString post)).
    rewrite (trimStart_plain_head a _ Ha).
    change (String a (s' ++ concat EmptyString post))
      with (String a s' ++ concat EmptyString post).
    rewrite string_rev_append, (trimStart_rev_blank_prefix post _ Hpost).
    rewrite trimStart_rev_plain.
    + apply string_rev_involutive.
    + rewrite all_plain_rev. cbn [all_plain]. now rewrite Ha, Hs'.
Qed.

(** X3. White space around the payload does not matter to [readCache]: a
    cache file that holds what [writeCache] writes for an object, preceded and
    followed by any white space (a line end added by an editor, say), reads
    back as the object that was saved. *)
Theorem readCache_ignores_surrounding_blanks (w : world) (st : state)
    (pre post : list string) (ps : list (string * value)) :
  Forall (fun c => In c white_space_code_points) pre ->
  Forall (fun c => In c white_space_code_points) post ->
  nodupb (map fst ps) = true ->
  forallb (fun kv => storable (snd kv)) ps = true ->
  cache_content w st
  = Some (concat EmptyString pre ++ cache_text ps ++ concat EmptyString post) ->
  fst (readCache w st) = Ret (VObj (kept (safe_of ps))).
Proof.
  intros Hpre Hpost Hnd Hst Hc. apply nodupb_iff in Hnd.
  rewrite readCache_eq. cbn [fst]. rewrite Hc.
  rewrite (trim_padded pre _ post Hpre Hpost) by apply all_plain_base64.
  unfold cache_text.
  destruct (String.eqb_spec (base64_encode (text_of (VObj (kept (safe_of ps))))) EmptyString)
    as [E | _].
  - apply base64_encode_nonempty in E; [destruct E |].
    unfold text_of. cbn [stringify]. discriminate.
  - rewrite base64_decode_encode, json_parse_stringify; [reflexivity |].
    now apply exact_safe.
Qed.

Lemma readCache_ignores_surrounding_blanks_witness :
  fst (readCache cache_with_newline_world (initial_state cache_with_newline_world))
  = Ret (VObj (kept (safe_of cached_setup))).
Proof.
  apply (readCache_ignores_surrounding_blanks cache_with_newline_world
           (initial_state cache_with_newline_world) [] [nl] cached_setup).
  - constructor.
  - apply white_space_chunks. vm_compute. reflexivity.
  - vm_compute. reflexivity.
  - vm_compute. reflexivity.
  - vm_compute. reflexivity.
Defined.

(** ** Rules for [logs] and [never_exits] *)

Lemma with_trace_nil st : with_trace st [] = st.
Proof. unfold with_trace. rewrite List.app_nil_r. now destruct st. Qed.

Section Logs.

Context {A B : Type}.
Variable P : event -> Prop.

Lemma logs_ret (a : A) : logs P (ret a).
Proof. intros st. exists []. cbn [ret snd]. now rewrite with_trace_nil. Qed.

Lemma logs_throw (e : error) : logs P (@throw A e).
Proof. intros st. exists []. cbn [throw snd]. now rewrite with_trace_nil. Qed.

Lemma logs_exit (c : Z) : logs P (@process_exit A c).
Proof. intros st. exists []. cbn [process_exit snd]. now rewrite with_trace_nil. Qed.

(** A step that reads the state and leaves it alone. *)
Lemma logs_read (f : state -> outcome A) : logs P (fun st => (f st, st)).
Proof. intros st. exists []. cbn [snd]. now rewrite with_trace_nil. Qed.

Lemma logs_bind (m : M A) (k : A -> M B) :
  logs P m -> (forall a, logs P (k a)) -> logs P (bind m k).
Proof.
  intros Hm Hk st. unfold bind.
  destruct (Hm st) as [e1 [E1 F1]].
  destruct (m st) as [[a | e | c] st1]; cbn [snd] in *; try (exists e1; now split).
  destruct (Hk a st1) as [e2 [E2 F2]].
  exists (e1 ++ e2)%list. rewrite E2, E1, with_trace_app. split; [reflexivity |].
  now apply Forall_app.
Qed.

Lemma logs_try_catch (m : M A) (h : error -> M A) :
  logs P m -> (forall e, logs P (h e)) -> logs P (try_catch m h).
Proof.
  intros Hm Hh st. unfold try_catch.
  destruct (Hm st) as [e1 [E1 F1]].
  destruct (m st) as [[a | e | c] st1]; cbn [snd] in *; try (exists e1; now split).
  destruct (Hh e st1) as [e2 [E2 F2]].
  exists (e1 ++ e2)%list. rewrite E2, E1, with_trace_app. split; [reflexivity |].
  now apply Forall_app.
Qed.

Lemma never_exits_ret (a : A) : never_exits (ret a).
Proof. intros st c. discriminate. Qed.

Lemma never_exits_throw (e : error) : never_exits (@throw A e).
Proof. intros st c. discriminate. Qed.

Lemma never_exits_bind (m : M A) (k : A -> M B) :
  never_exits m -> (forall a, never_exits (k a)) -> never_exits (bind m k).
Proof.
  intros Hm Hk st c. unfold bind. specialize (Hm st).
  destruct (m st) as [[a | e | c'] st1]; cbn [fst] in *.
  - apply Hk.
  - discriminate.
  - now destruct (Hm c').
Qed.

Lemma never_exits_try_catch (m : M A) (h : error -> M A) :
  never_exits m -> (forall e, never_exits (h e)) -> never_exits (try_catch m h).
Proof.
  intros Hm Hh st c. unfold try_catch. specialize (Hm st).
  destruct (m st) as [[a | e | c'] st1]; cbn [fst] in *.
  - discriminate.
  - apply Hh.
  - now destruct (Hm c').
Qed.

End Logs.

Lemma logs_emit (P : event -> Prop) (e : event) : P e -> logs P (emit e).
Proof. intros H st. exists [e]. split; [reflexivity | now constructor]. Qed.

Lemma never_exits_emit (e : event) : never_exits (emit e).
Proof. intros st c. discriminate. Qed.

Lemma logs_emits {A} (P : event -> Prop) (m : M A) : logs P m -> emits P m.
Proof.
  intros Hm st. destruct (Hm st) as [evs [E F]]. exists evs. rewrite E. now split.
Qed.

(** One layer of a monadic definition, for [logs] and [never_exits]. *)
Ltac quiet_step :=
  lazymatch goal with
  | |- logs _ (ret _) => apply logs_ret
  | |- logs _ (throw _) => apply logs_throw
  | |- logs _ (process_exit _) => apply logs_exit
  | |- logs _ (emit _) => apply logs_emit
  | |- logs _ (bind _ _) => apply logs_bind; [| intros ?]
  | |- logs _ (try_catch _ _) => apply logs_try_catch; [| intros ?]
  | |- logs _ (fun st => (_, st)) => apply logs_read
  | |- logs _ (if ?b then _ else _) => destruct b
  | |- logs _ (match ?x with _ => _ end) => destruct x
  | |- never_exits (ret _) => apply never_exits_ret
  | |- never_exits (throw _) => apply never_exits_throw
  | |- never_exits (emit _) => apply never_exits_emit
  | |- never_exits (bind _ _) => apply never_exits_bind; [| intros ?]
  | |- never_exits (try_catch _ _) => apply never_exits_try_catch; [| intros ?]
  | |- never_exits (if ?b then _ else _) => destruct b
  | |- never_exits (match ?x with _ => _ end) => destruct x
  end.

(** A step that inspects the state and touches nothing. *)
Ltac quiet_leaf :=
  let st := fresh "st" in
  first
    [ intros st; exists (@nil event); rewrite with_trace_nil; split; [| constructor];
      repeat match goal with
             | |- context [match ?x with _ => _ end] => destruct x
             end;
      reflexivity
    | let c := fresh "c" in
      intros st c;
      repeat match goal with
             | |- context [match ?x with _ => _ end] => destruct x
             end;
      discriminate ].

(** ** The exchanger in closed form: lines 154-176 *)

Lemma exchange_eq w tok apiKey st :
  exchangeCustomTokenForIdToken w tok apiKey st
  = if negb (truthy apiKey) then (Throw need_apiKey, st)
    else match import_node_fetch w with
         | Some e => (Throw e, with_trace st [ImportFetch])
         | None =>
             match node_fetch w (exchange_url apiKey) (exchange_body tok) with
             | inr e => (Throw e, with_trace st [ImportFetch; exchange_request apiKey tok])
             | inl res =>
                 match json_parse (res_body res) with
                 | None =>
                     (Throw (SyntaxError "invalid json response body"),
                      with_trace st [ImportFetch; exchange_request apiKey tok])
                 | Some data =>
                     if negb (res_ok res) then
                       (Throw (Error ("Failed to exchange custom token: "
                                      ++ to_string (exchange_error_detail data))),
                        with_trace st [ImportFetch; exchange_request apiKey tok])
                     else (Ret data, with_trace st [ImportFetch; exchange_request apiKey tok])
                 end
             end
         end.
Proof.
  unfold exchangeCustomTokenForIdToken, loadFetch, res_json, with_trace, exchange_request,
    need_apiKey.
  remember (exchange_url apiKey) as url eqn:Eu.
  remember (exchange_body tok) as body eqn:Eb.
  destruct (truthy apiKey); cbn [negb]; [| reflexivity].
  run_monad.
  destruct (import_node_fetch w); cbn; [reflexivity |].
  destruct (node_fetch w url body) as [res | e]; cbn;
    [| rewrite <- List.app_assoc; reflexivity].
  destruct (json_parse (res_body res)) as [data |]; cbn;
    [| rewrite <- List.app_assoc; reflexivity].
  remember (Error ("Failed to exchange custom token: "
                   ++ to_string (exchange_error_detail data))) as err eqn:Ee.
  destruct (res_ok res); cbn; rewrite <- List.app_assoc; reflexivity.
Qed.

Lemma exchange_body_parses tok :
  json_parse (exchange_body tok)
  = Some (VObj [("token", VStr tok); ("returnSecureToken", VBool true)]).
Proof.
  change (exchange_body tok)
    with (text_of (VObj [("token", VStr tok); ("returnSecureToken", VBool true)])).
  apply json_parse_stringify. reflexivity.
Qed.

(** X4. The exchanger sends at most one request, after loading the HTTP
    client: a POST to the sign-in endpoint with the key in the query, a JSON
    content type and a JSON body that parses back to the custom token,
    unchanged whatever characters it holds, with [returnSecureToken] set.
    Nothing of the state changes but the trace. *)
Theorem exchange_request_shape (w : world) (customToken : string) (apiKey : value)
    (st : state) :
  exists evs,
    snd (exchangeCustomTokenForIdToken w customToken apiKey st) = with_trace st evs
    /\ (evs = [] \/ evs = [ImportFetch]
        \/ evs = [ImportFetch;
                  Fetch ("https://identitytoolkit.googleapis.com/v1/accounts:signInWithCustomToken?key="
                         ++ encodeURIComponent (to_string apiKey))
                    "POST" [("Content-Type", "application/json")]
                    (exchange_body customToken)])
    /\ json_parse (exchange_body customToken)
       = Some (VObj [("token", VStr customToken); ("returnSecureToken", VBool true)]).
Proof.
  rewrite exchange_eq.
  destruct (truthy apiKey); cbn [negb].
  2:{ exists []. rewrite with_trace_nil. auto using exchange_body_parses. }
  destruct (import_node_fetch w).
  { exists [ImportFetch]. auto using exchange_body_parses. }
  exists [ImportFetch; exchange_request apiKey customToken].
  split; [| split; [right; right; reflexivity | apply exchange_body_parses]].
  destruct (node_fetch w _ _) as [res | e]; [| reflexivity].
  destruct (json_parse (res_body res)); [| reflexivity].
  destruct (res_ok res); reflexivity.
Qed.

(** X5. What the exchanger returns always comes from a success answer: if it
    returns [data], then the key was truthy, the request was sent, the
    endpoint answered with a success status and [data] is its body, parsed.
    In every other case it throws; it never ends the process itself. *)
Theorem exchange_returns_only_success (w : world) (customToken : string) (apiKey : value)
    (st st' : state) (data : value) :
  exchangeCustomTokenForIdToken w customToken apiKey st = (Ret data, st') ->
  truthy apiKey = true
  /\ st' = with_trace st [ImportFetch; exchange_request apiKey customToken]
  /\ exists res,
       node_fetch w (exchange_url apiKey) (exchange_body customToken) = inl res
       /\ res_ok res = true
       /\ json_parse (res_body res) = Some data.
Proof.
  rewrite exchange_eq.
  destruct (truthy apiKey); cbn [negb]; [| discriminate].
  destruct (import_node_fetch w); [discriminate |].
  destruct (node_fetch w _ _) as [res | e]; [| discriminate].
  destruct (json_parse (res_body res)) as [d |] eqn:Ej; [| discriminate].
  destruct (res_ok res) eqn:Eok; cbn [negb]; [| discriminate].
  intros H. injection H as -> <-.
  split; [reflexivity |]. split; [reflexivity |]. exists res. auto.
Qed.

Lemma exchange_returns_only_success_witness :
  truthy (VStr "k1") = true
  /\ with_trace (initial_state plain_world) [ImportFetch; exchange_request (VStr "k1") "CUSTOM.TOKEN"]
     = with_trace (initial_state plain_world)
         [ImportFetch; exchange_request (VStr "k1") "CUSTOM.TOKEN"]
  /\ exists res,
       node_fetch plain_world (exchange_url (VStr "k1")) (exchange_body "CUSTOM.TOKEN") = inl res
       /\ res_ok res = true
       /\ json_parse (res_body res)
          = Some (VObj [("idToken", VStr "ID"); ("refreshToken", VStr "RT");
                        ("expiresIn", VStr "3600"); ("localId", VStr "u1")]).
Proof.
  apply (exchange_returns_only_success plain_world "CUSTOM.TOKEN" (VStr "k1")
           (initial_state plain_world)).
  vm_compute. reflexivity.
Defined.

Lemma exchange_returned w tok apiKey st data st' :
  exchangeCustomTokenForIdToken w tok apiKey st = (Ret data, st') ->
  st' = with_trace st [ImportFetch; exchange_request apiKey tok].
Proof.
  rewrite exchange_eq.
  destruct (truthy apiKey); cbn [negb]; [| discriminate].
  destruct (import_node_fetch w); [discriminate |].
  destruct (node_fetch w _ _) as [res | e]; [| discriminate].
  destruct (json_parse (res_body res)); [| discriminate].
  destruct (res_ok res); cbn [negb]; [| discriminate].
  intros H. now injection H as _ <-.
Qed.

Lemma never_exits_exchange w tok apiKey : never_exits (exchangeCustomTokenForIdToken w tok apiKey).
Proof.
  intros st c. rewrite exchange_eq.
  destruct (truthy apiKey); cbn [negb]; [| discriminate].
  destruct (import_node_fetch w); [discriminate |].
  destruct (node_fetch w _ _) as [res | e]; [| discriminate].
  destruct (json_parse (res_body res)); [| discriminate].
  destruct (res_ok res); discriminate.
Qed.

Lemma number_of_double_defined neg x : number_of_double neg x <> VUndefined.
Proof.
  unfold number_of_double. destruct x as [[m e] |]; [| discriminate].
  destruct (m =? 0)%Z; [discriminate |].
  destruct (0 <=? e)%Z; [destruct (e =? 0)%Z; discriminate |].
  destruct (_ =? 0)%Z; discriminate.
Qed.

Lemma number_of_decimal_defined neg d k n : number_of_decimal neg d k n <> VUndefined.
Proof.
  unfold number_of_decimal. destruct (d =? 0)%Z; [discriminate |].
  destruct (safe_integer d k); [discriminate |].
  destruct (310 <? k)%Z; [discriminate |].
  destruct (_ <? _)%Z; [discriminate |].
  apply number_of_double_defined.
Qed.

Lemma parse_number_defined s v r : parse_number s = Some (v, r) -> v <> VUndefined.
Proof.
  unfold parse_number.
  destruct (match s with String "-" r0 => (true, r0) | _ => (false, s) end) as [neg s1].
  destruct (read_digits s1) as [d rest].
  destruct (read_fraction rest) as [[f rest1] |];
    [destruct (read_exponent rest1) as [[x rest2] |] |];
    destruct d as [| d' | d' | d' | d' | d' | d' | d' | d' | d' | d'];
    try destruct d'; try discriminate;
    intros H; injection H as <- _; apply number_of_decimal_defined.
Qed.

Lemma parse_value_defined fuel s v r : parse_value fuel s = Some (v, r) -> v <> VUndefined.
Proof.
  destruct fuel as [| f]; [discriminate |]. cbn [parse_value].
  destruct (skip_ws s) as [| c r0]; [discriminate |].
  repeat match goal with
         | |- context [if ?b then _ else _] => destruct b
         | |- context [match ?x with _ => _ end] => destruct x eqn:?
         end;
    try discriminate;
    try (intros H; injection H as <- _; discriminate).
  all: apply parse_number_defined.
Qed.

Lemma json_parse_defined text v : json_parse text = Some v -> v <> VUndefined.
Proof.
  unfold json_parse.
  destruct (parse_value _ text) as [[v' rest] |] eqn:E; [| discriminate].
  destruct (skip_ws rest); [| discriminate].
  intros H. injection H as <-. exact (parse_value_defined _ _ _ _ E).
Qed.

(** The test of line 172 comes down to its last operand. *)
Lemma exchange_error_detail_eq data :
  exchange_error_detail data
  = if truthy (get_prop (get_prop data "error") "message")
    then get_prop (get_prop data "error") "message"
    else match stringify data with
         | Some text => VStr text
         | None => VUndefined
         end.
Proof.
  unfold exchange_error_detail. rewrite !truthy_js_and.
  destruct (truthy (get_prop (get_prop data "error") "message")) eqn:Em;
    [| now rewrite andb_false_r].
  destruct data as [| | | | | | | ps]; try discriminate Em.
  cbn [truthy andb].
  destruct (get_prop (VObj ps) "error") as [| | | | | | | es]; try discriminate Em.
  reflexivity.
Qed.

(** X6. A refusal without a usable [error.message] (the field is missing,
    empty or [null], or [error] is not an object) is reported with the whole
    body, as JSON text, after the same prefix.  Stated for a body in plain
    text: ASCII strings and names, safe integers. *)
Theorem exchange_error_without_message (w : world) (customToken : string) (apiKey : value)
    (st : state) (res : response) (data : value) :
  truthy apiKey = true ->
  import_node_fetch w = None ->
  node_fetch w (exchange_url apiKey) (exchange_body customToken) = inl res ->
  res_ok res = false ->
  json_parse (res_body res) = Some data ->
  plain_json data = true ->
  truthy (get_prop (get_prop data "error") "message") = false ->
  exchangeCustomTokenForIdToken w customToken apiKey st
  = (Throw (Error ("Failed to exchange custom token: " ++ text_of data)),
     with_trace st [ImportFetch; exchange_request apiKey customToken]).
Proof.
  intros Hk Hi Hf Hok Hj _ Hm.
  rewrite exchange_eq, Hk, Hi, Hf, Hj, Hok. cbn [negb].
  rewrite exchange_error_detail_eq, Hm. unfold text_of.
  destruct (stringify data) eqn:Es; [reflexivity |].
  destruct data as [| | [] | | [] | | |]; try discriminate Es.
  now destruct (json_parse_defined _ _ Hj).
Qed.

Lemma exchange_error_without_message_witness :
  exchangeCustomTokenForIdToken bare_error_world "CUSTOM.TOKEN" (VStr "k1")
    (initial_state bare_error_world)
  = (Throw (Error ("Failed to exchange custom token: {" ++ q "error" ++ ":" ++ q "nope" ++ "}")),
     with_trace (initial_state bare_error_world)
       [ImportFetch; exchange_request (VStr "k1") "CUSTOM.TOKEN"]).
Proof.
  apply (exchange_error_without_message bare_error_world "CUSTOM.TOKEN" (VStr "k1")
           (initial_state bare_error_world) bare_error_response
           (VObj [("error", VStr "nope")])).
  - reflexivity.
  - reflexivity.
  - reflexivity.
  - reflexivity.
  - vm_compute. reflexivity.
  - reflexivity.
  - reflexivity.
Defined.

(** ** Minting and exchange in closed form: lines 243-257 *)

Lemma writeCache_returns w obj st : fst (writeCache w obj st) = Ret tt.
Proof.
  unfold writeCache, encodeSafe, writeFileSync. cbn [stringify]. run_monad.
  destruct (st_fs st (CACHE_FILE w)) as [[c | names] |]; cbn;
    try (destruct (write_denied w (CACHE_FILE w)); cbn); reflexivity.
Qed.

Lemma try_catch_ret {A} (m : M A) h st a st' :
  m st = (Ret a, st') -> try_catch m h st = (Ret a, st').
Proof. intros H. unfold try_catch. now rewrite H. Qed.

Lemma try_catch_exit {A} (m : M A) h st c st' :
  m st = (Exit c, st') -> try_catch m h st = (Exit c, st').
Proof. intros H. unfold try_catch. now rewrite H. Qed.

Lemma main_tokens_eq w uid serviceAccount apiKey st :
  main_tokens w uid serviceAccount apiKey st
  = match auth_createCustomToken w uid with
    | inr e => (Exit 3, with_trace st [CreateCustomToken uid; error_line (error_text e)])
    | inl tok =>
        match exchangeCustomTokenForIdToken w tok apiKey
                (with_trace st [CreateCustomToken uid; token_line tok]) with
        | (Ret data, st1) =>
            writeCache w (VObj (saved_setup w uid serviceAccount apiKey (st_projectId st1)))
              (with_trace st1 (result_lines data))
        | (Throw err, st1) => (Exit 3, with_trace st1 [error_line (error_text err)])
        | (Exit c, st1) => (Exit c, st1)
        end
    end.
Proof.
  destruct (auth_createCustomToken w uid) as [tok | e] eqn:Hm.
  - destruct (exchangeCustomTokenForIdToken w tok apiKey
                (with_trace st [CreateCustomToken uid; token_line tok]))
      as [[data | err | c] st1] eqn:Hx.
    + unfold main_tokens.
      pose proof (writeCache_returns w
                    (VObj (saved_setup w uid serviceAccount apiKey (st_projectId st1)))
                    (with_trace st1 (result_lines data))) as Hr.
      destruct (writeCache w _ (with_trace st1 (result_lines data))) as [r s3] eqn:Ew.
      cbn [fst] in Hr. subst r. apply try_catch_ret.
      rewrite (bind_eq _ _ _ _ _ (createCustomToken_ok w uid st tok Hm)).
      unfold console_log. rewrite (bind_eq _ _ _ _ _ (emit_eq _ _)).
      rewrite with_trace_app. cbn [app]. fold (token_line tok).
      rewrite (bind_eq _ _ _ _ _ Hx).
      rewrite (bind_eq _ _ _ _ _ (emit_eq _ _)).
      rewrite (bind_eq _ _ _ _ _ (emit_eq _ _)).
      rewrite with_trace_app. cbn [app]. fold (result_lines data).
      unfold get_projectId.
      match goal with
      | |- bind ?m ?k ?s = _ =>
          assert (Eg : m s = (Ret (st_projectId st1), s)) by reflexivity;
          rewrite (bind_eq _ _ _ _ _ Eg)
      end.
      fold (saved_setup w uid serviceAccount apiKey (st_projectId st1)).
      now apply try_catch_ret.
    + exact (main_tokens_exchange_throws w uid serviceAccount apiKey st tok err st1 Hm Hx).
    + unfold main_tokens. apply try_catch_exit.
      rewrite (bind_eq _ _ _ _ _ (createCustomToken_ok w uid st tok Hm)).
      unfold console_log. rewrite (bind_eq _ _ _ _ _ (emit_eq _ _)).
      rewrite with_trace_app. cbn [app]. fold (token_line tok).
      now apply bind_exit.
  - unfold main_tokens, createCustomToken, with_trace, error_line. run_monad. rewrite Hm. cbn.
    rewrite <- List.app_assoc. reflexivity.
Qed.

(** X7. When minting fails, the run step prints the error and ends the
    process with code 3: the minting call and the error line are all it does.
    No token line is printed, the HTTP client is not loaded, no request is
    sent and the cache is not written. *)
Theorem minting_failure_exits_3 (w : world) (uid serviceAccount apiKey : value) (st : state)
    (e : error) :
  auth_createCustomToken w uid = inr e ->
  main_tokens w uid serviceAccount apiKey st
  = (Exit 3, with_trace st [CreateCustomToken uid; error_line (error_text e)]).
Proof. intros H. now rewrite main_tokens_eq, H. Qed.

Lemma minting_failure_exits_3_witness :
  main_tokens mint_refused_world (VStr "u1") (VStr "/creds/sa.json") (VStr "k1")
    (initial_state mint_refused_world)
  = (Exit 3,
     with_trace (initial_state mint_refused_world)
       [CreateCustomToken (VStr "u1");
        error_line (error_text (Error "Permission iam.serviceAccounts.signBlob denied"))]).
Proof.
  apply (minting_failure_exits_3 mint_refused_world (VStr "u1") (VStr "/creds/sa.json")
           (VStr "k1") (initial_state mint_refused_world)).
  reflexivity.
Defined.

Lemma saved_setup_nodup w uid serviceAccount apiKey projectId :
  NoDup (map fst (saved_setup w uid serviceAccount apiKey projectId)).
Proof. apply nodupb_iff. reflexivity. Qed.

(** The text [writeCache] hands to [fs.writeFileSync]. *)
Lemma writeCache_trace w ps st :
  NoDup (map fst ps) ->
  st_trace (snd (writeCache w (VObj ps) st))
  = (st_trace st ++ [WriteFileSync (CACHE_FILE w) (cache_text ps) 384])%list.
Proof.
  intros _. unfold writeCache, encodeSafe, writeFileSync. cbv zeta.
  fold (safe_of ps). rewrite stringify_kept.
  change (stringify (VObj (kept (safe_of ps))))
    with (Some (text_of (VObj (kept (safe_of ps))))).
  fold (cache_text ps). run_monad.
  destruct (st_fs st (CACHE_FILE w)) as [[c | names] |]; cbn;
    try (destruct (write_denied w (CACHE_FILE w)); cbn); reflexivity.
Qed.

(** The two lines of lines 245 and 248-249, as printed. *)
Lemma token_line_text tok :
  token_line tok
  = Log [(String esc "[32m" ++ nl ++ "Custom token created:" ++ String esc "[0m")%string;
         (String esc "[2m" ++ tok ++ String esc "[0m")%string].
Proof. reflexivity. Qed.

Lemma result_lines_text data :
  result_lines data
  = [Log [(String esc "[32m" ++ nl ++ "Exchanged token result:" ++ String esc "[0m")%string];
     Log [(String esc "[33m" ++ to_string (stringify_pretty "" data) ++ String esc "[0m")%string]].
Proof. reflexivity. Qed.

(** X8. When the minting and exchange step returns, it has done exactly
    this, in this order: minted the token; printed [Custom token created:] in
    green and the token, dimmed; loaded the HTTP client; sent the request;
    printed [Exchanged token result:] in green and the answer, indented by two
    spaces, in yellow; and attempted to write the cache file with the setup of
    the run (and nothing of the answer).  Stated for an answer in plain text:
    ASCII strings and names, safe integers. *)
Theorem main_tokens_success (w : world) (uid serviceAccount apiKey : value) (st st' : state)
    (tok : string) (res : response) (data : value) :
  main_tokens w uid serviceAccount apiKey st = (Ret tt, st') ->
  auth_createCustomToken w uid = inl tok ->
  node_fetch w (exchange_url apiKey) (exchange_body tok) = inl res ->
  json_parse (res_body res) = Some data ->
  plain_json data = true ->
  st_trace st'
  = (st_trace st
     ++ [CreateCustomToken uid;
         Log [(String esc "[32m" ++ nl ++ "Custom token created:" ++ String esc "[0m")%string;
              (String esc "[2m" ++ tok ++ String esc "[0m")%string];
         ImportFetch;
         exchange_request apiKey tok;
         Log [(String esc "[32m" ++ nl ++ "Exchanged token result:" ++ String esc "[0m")%string];
         Log [(String esc "[33m" ++ to_string (stringify_pretty "" data)
               ++ String esc "[0m")%string];
         WriteFileSync (CACHE_FILE w)
           (cache_text (saved_setup w uid serviceAccount apiKey (st_projectId st))) 384])%list.
Proof.
  intros Hrun Hmint Hnet Hbody _. rewrite main_tokens_eq, Hmint in Hrun.
  destruct (exchangeCustomTokenForIdToken w tok apiKey _) as [[data' | err | c] st1] eqn:Hx;
    [| discriminate | discriminate].
  pose proof (exchange_returned w tok apiKey _ _ _ Hx) as Est.
  assert (Hd : data' = data).
  { rewrite exchange_eq in Hx.
    destruct (truthy apiKey); cbn [negb] in Hx; [| discriminate].
    destruct (import_node_fetch w); [discriminate |].
    rewrite Hnet, Hbody in Hx.
    destruct (res_ok res); cbn [negb] in Hx; [| discriminate].
    now injection Hx as -> _. }
  subst data'. rewrite Est in Hrun.
  pose proof (writeCache_trace w _ (with_trace (with_trace (with_trace st
                [CreateCustomToken uid; token_line tok])
                [ImportFetch; exchange_request apiKey tok]) (result_lines data))
                (saved_setup_nodup w uid serviceAccount apiKey (st_projectId st))) as Ht.
  cbn [with_trace st_projectId] in Hrun. rewrite Hrun in Ht. cbn [snd] in Ht. rewrite Ht.
  cbn [with_trace st_trace]. rewrite <- !List.app_assoc.
  rewrite token_line_text, result_lines_text. reflexivity.
Qed.

Lemma main_tokens_success_witness :
  st_trace (snd (main_tokens env_credentials_world (VStr "u1") (VStr "/creds/sa.json")
                   (VStr "k1") (initial_state env_credentials_world)))
  = (st_trace (initial_state env_credentials_world)
     ++ [CreateCustomToken (VStr "u1");
         Log [(String esc "[32m" ++ nl ++ "Custom token created:" ++ String esc "[0m")%string;
              (String esc "[2m" ++ "CUSTOM.TOKEN" ++ String esc "[0m")%string];
         ImportFetch;
         exchange_request (VStr "k1") "CUSTOM.TOKEN";
         Log [(String esc "[32m" ++ nl ++ "Exchanged token result:" ++ String esc "[0m")%string];
         Log [(String esc "[33m"
               ++ to_string
                    (stringify_pretty ""
                       (VObj [("idToken", VStr "ID"); ("refreshToken", VStr "RT");
                              ("expiresIn", VStr "3600"); ("localId", VStr "u1")]))
               ++ String esc "[0m")%string];
         WriteFileSync (CACHE_FILE env_credentials_world)
           (cache_text (saved_setup env_credentials_world (VStr "u1") (VStr "/creds/sa.json")
                          (VStr "k1") (st_projectId (initial_state env_credentials_world))))
           384])%list.
Proof.
  apply (main_tokens_success env_credentials_world (VStr "u1") (VStr "/creds/sa.json")
           (VStr "k1") (initial_state env_credentials_world)
           (snd (main_tokens env_credentials_world (VStr "u1") (VStr "/creds/sa.json")
                   (VStr "k1") (initial_state env_credentials_world)))
           "CUSTOM.TOKEN" ok_response).
  - vm_compute. reflexivity.
  - reflexivity.
  - reflexivity.
  - vm_compute. reflexivity.
  - vm_compute. reflexivity.
Defined.

(** ** [initAdmin]: lines 100-148 *)

Section InitAdmin.

Variable w : world.

Lemma logs_existsSync P p : P (ExistsSync p) -> logs P (existsSync p).
Proof. intros H. unfold existsSync. repeat quiet_step. exact H. Qed.

Lemma logs_statSync P p : P (StatSync p) -> logs P (statSync_isDirectory p).
Proof. intros H. unfold statSync_isDirectory. repeat quiet_step; try exact H; quiet_leaf. Qed.

Lemma logs_readdirSync P p : P (ReaddirSync p) -> logs P (readdirSync w p).
Proof. intros H. unfold readdirSync. repeat quiet_step; try exact H; quiet_leaf. Qed.

Lemma logs_readFileSync P p : P (ReadFileSync p) -> logs P (readFileSync w p).
Proof. intros H. unfold readFileSync. repeat quiet_step; try exact H; quiet_leaf. Qed.

Lemma logs_require P p : P (Require p) -> logs P (require w p).
Proof. intros H. unfold require, lift_sum. repeat quiet_step; try exact H; quiet_leaf. Qed.

Lemma logs_cert P sa : P (CredentialCert sa) -> logs P (admin_credential_cert w sa).
Proof. intros H. unfold admin_credential_cert, lift_check. repeat quiet_step. exact H. Qed.

Lemma logs_looks_like P full :
  P (ReadFileSync full) -> logs P (looks_like_service_account w full).
Proof.
  intros H. unfold looks_like_service_account.
  repeat (apply (logs_readFileSync P full H) || quiet_step).
Qed.

Lemma logs_pick P dir files :
  (forall p, P (ReadFileSync p)) -> logs P (pick_service_account w dir files).
Proof.
  intros H. induction files as [| f files IH]; cbn [pick_service_account];
    repeat (apply logs_looks_like || apply IH || quiet_step); apply H.
Qed.

Lemma logs_initAdmin_credential sa :
  logs (fun e => credential_step e = true) (initAdmin_credential w sa).
Proof.
  unfold initAdmin_credential, path_resolve_value, admin_credential_applicationDefault,
    lift_check.
  cbv zeta.
  repeat (apply logs_existsSync || apply logs_statSync || apply logs_readdirSync
          || apply logs_require || apply logs_cert || apply logs_pick || quiet_step);
    reflexivity.
Qed.

Lemma never_exits_existsSync p : never_exits (existsSync p).
Proof. unfold existsSync. repeat quiet_step. quiet_leaf. Qed.

Lemma never_exits_statSync p : never_exits (statSync_isDirectory p).
Proof. unfold statSync_isDirectory. repeat quiet_step. quiet_leaf. Qed.

Lemma never_exits_readdirSync p : never_exits (readdirSync w p).
Proof. unfold readdirSync. repeat quiet_step. quiet_leaf. Qed.

Lemma never_exits_readFileSync p : never_exits (readFileSync w p).
Proof. unfold readFileSync. repeat quiet_step. quiet_leaf. Qed.

Lemma never_exits_require p : never_exits (require w p).
Proof. unfold require, lift_sum. repeat quiet_step. quiet_leaf. Qed.

Lemma never_exits_cert sa : never_exits (admin_credential_cert w sa).
Proof. unfold admin_credential_cert, lift_check. repeat quiet_step. Qed.

Lemma never_exits_looks_like full : never_exits (looks_like_service_account w full).
Proof.
  unfold looks_like_service_account. repeat (apply never_exits_readFileSync || quiet_step).
Qed.

Lemma never_exits_pick dir files : never_exits (pick_service_account w dir files).
Proof.
  induction files as [| f files IH]; cbn [pick_service_account];
    repeat (apply never_exits_looks_like || apply IH || quiet_step).
Qed.

Lemma never_exits_initAdmin_credential sa : never_exits (initAdmin_credential w sa).
Proof.
  unfold initAdmin_credential, path_resolve_value, admin_credential_applicationDefault,
    lift_check.
  cbv zeta.
  repeat (apply never_exits_existsSync || apply never_exits_statSync
          || apply never_exits_readdirSync || apply never_exits_require
          || apply never_exits_cert || apply never_exits_pick || quiet_step).
Qed.

End InitAdmin.

Lemma initAdmin_started w sa st : st_apps st <> 0 -> initAdmin w sa st = (Ret tt, st).
Proof.
  intros H. unfold initAdmin, get_apps. run_monad.
  destruct (st_apps st) as [| n]; [now destruct H | reflexivity].
Qed.

Lemma admin_initializeApp_eq w o st :
  admin_initializeApp w o st
  = match initializeApp w o with
    | None =>
        (Ret tt,
         mk_state (st_fs st) (st_trace st ++ [InitializeApp o]) (st_asked st) (S (st_apps st))
           (st_projectId st))
    | Some e => (Throw e, with_trace st [InitializeApp o])
    end.
Proof.
  unfold admin_initializeApp, lift_check. run_monad. now destruct (initializeApp w o).
Qed.

Lemma projectId_option_eq w p :
  (if truthy (js_or p (env w "FIREBASE_PROJECT_ID"))
   then js_or p (env w "FIREBASE_PROJECT_ID") else VUndefined)
  = projectId_option w p.
Proof.
  unfold projectId_option, js_or.
  destruct (truthy p) eqn:E; [now rewrite E |].
  now destruct (truthy (env w "FIREBASE_PROJECT_ID")) eqn:E2; rewrite ?E2.
Qed.

(** [initAdmin] on a process without an app: the credential step, then the
    registration with the project id of lines 143-145. *)
Lemma initAdmin_cases w sa st :
  st_apps st = 0 ->
  exists evs,
    Forall (fun e => credential_step e = true) evs
    /\ ((exists e, initAdmin_credential w sa st = (Throw e, with_trace st evs)
                   /\ initAdmin w sa st = (Throw e, with_trace st evs))
        \/ (exists cred,
              initAdmin_credential w sa st = (Ret cred, with_trace st evs)
              /\ initAdmin w sa st
                 = match initializeApp w (mk_options cred (projectId_option w (st_projectId st))) with
                   | None =>
                       (Ret tt,
                        mk_state (st_fs st)
                          (st_trace st ++ evs
                           ++ [InitializeApp
                                 (mk_options cred (projectId_option w (st_projectId st)))])
                          (st_asked st) 1 (st_projectId st))
                   | Some e =>
                       (Throw e,
                        with_trace st
                          (evs ++ [InitializeApp
                                     (mk_options cred (projectId_option w (st_projectId st)))]))
                   end)).
Proof.
  intros Happs. rewrite (initAdmin_fresh w sa st Happs).
  destruct (logs_initAdmin_credential w sa st) as [evs [E F]].
  pose proof (never_exits_initAdmin_credential w sa st) as Hx.
  exists evs. split; [exact F |].
  destruct (initAdmin_credential w sa st) as [[cred | e | c] st1] eqn:Ec; cbn [fst snd] in *.
  - right. exists cred. subst st1. split; [reflexivity |].
    rewrite (bind_eq _ _ _ _ _ Ec). unfold get_projectId.
    match goal with
    | |- bind ?m ?k ?s = _ =>
        assert (Eg : m s = (Ret (st_projectId st), s)) by reflexivity;
        rewrite (bind_eq _ _ _ _ _ Eg)
    end.
    rewrite projectId_option_eq, admin_initializeApp_eq.
    destruct (initializeApp w _).
    + now rewrite with_trace_app.
    + cbn [with_trace st_fs st_trace st_asked st_apps st_projectId].
      now rewrite Happs, <- List.app_assoc.
  - left. exists e. subst st1. split; [reflexivity |]. now rewrite (bind_throw _ _ _ _ _ Ec).
  - now destruct (Hx c).
Qed.

(** X9. With no app registered, [initAdmin] either returns, having
    registered exactly one app as the last thing it did, or throws, having
    registered none; it does not end the process, and it leaves the disk and
    [argv.projectId] as they were. *)
Theorem initAdmin_registers_on_success (w : world) (sa : value) (st : state) :
  st_apps st = 0 ->
  st_fs (snd (initAdmin w sa st)) = st_fs st
  /\ st_projectId (snd (initAdmin w sa st)) = st_projectId st
  /\ ((fst (initAdmin w sa st) = Ret tt
       /\ st_apps (snd (initAdmin w sa st)) = 1
       /\ exists before o,
            st_trace (snd (initAdmin w sa st)) = (before ++ [InitializeApp o])%list
            /\ initializeApp w o = None)
      \/ (exists e, fst (initAdmin w sa st) = Throw e
                    /\ st_apps (snd (initAdmin w sa st)) = 0)).
Proof.
  intros Happs.
  destruct (initAdmin_cases w sa st Happs) as [evs [_ [[e [_ E]] | [cred [_ E]]]]]; rewrite E.
  - cbn. split; [reflexivity |]. split; [reflexivity |]. right. exists e. auto.
  - destruct (initializeApp w _) as [e |] eqn:Ei; cbn.
    + split; [reflexivity |]. split; [reflexivity |]. right. exists e. auto.
    + split; [reflexivity |]. split; [reflexivity |]. left.
      split; [reflexivity |]. split; [reflexivity |].
      eexists. eexists. rewrite List.app_assoc. split; [reflexivity | exact Ei].
Qed.

Lemma initAdmin_registers_on_success_witness :
  st_fs (snd (initAdmin env_credentials_world (VStr "/creds/sa.json")
                (initial_state env_credentials_world)))
  = st_fs (initial_state env_credentials_world)
  /\ st_projectId (snd (initAdmin env_credentials_world (VStr "/creds/sa.json")
                          (initial_state env_credentials_world)))
     = st_projectId (initial_state env_credentials_world)
  /\ ((fst (initAdmin env_credentials_world (VStr "/creds/sa.json")
              (initial_state env_credentials_world)) = Ret tt
       /\ st_apps (snd (initAdmin env_credentials_world (VStr "/creds/sa.json")
                          (initial_state env_credentials_world))) = 1
       /\ exists before o,
            st_trace (snd (initAdmin env_credentials_world (VStr "/creds/sa.json")
                             (initial_state env_credentials_world)))
            = (before ++ [InitializeApp o])%list
            /\ initializeApp env_credentials_world o = None)
      \/ (exists e, fst (initAdmin env_credentials_world (VStr "/creds/sa.json")
                           (initial_state env_credentials_world)) = Throw e
                    /\ st_apps (snd (initAdmin env_credentials_world (VStr "/creds/sa.json")
                                       (initial_state env_credentials_world))) = 0)).
Proof.
  apply (initAdmin_registers_on_success env_credentials_world (VStr "/creds/sa.json")
           (initial_state env_credentials_world)).
  reflexivity.
Defined.

(** X10. [initAdmin] is idempotent (line 101): once a call has returned, any
    further call, with whatever path, returns at once and does nothing. *)
Theorem initAdmin_idempotent (w : world) (sa sa' : value) (st st' : state) :
  initAdmin w sa st = (Ret tt, st') ->
  initAdmin w sa' st' = (Ret tt, st').
Proof.
  intros H. apply initAdmin_started.
  destruct (Nat.eq_dec (st_apps st) 0) as [Happs | Happs].
  - destruct (initAdmin_cases w sa st Happs) as [evs [_ [[e [_ E]] | [cred [_ E]]]]];
      rewrite E in H; [discriminate |].
    destruct (initializeApp w _); [discriminate |].
    injection H as <-. discriminate.
  - rewrite (initAdmin_started w sa st Happs) in H. now injection H as <-.
Qed.

Lemma initAdmin_idempotent_witness :
  initAdmin env_credentials_world VUndefined
    (snd (initAdmin env_credentials_world (VStr "/creds/sa.json")
            (initial_state env_credentials_world)))
  = (Ret tt,
     snd (initAdmin env_credentials_world (VStr "/creds/sa.json")
            (initial_state env_credentials_world))).
Proof.
  apply (initAdmin_idempotent env_credentials_world (VStr "/creds/sa.json") VUndefined
           (initial_state env_credentials_world)).
  vm_compute. reflexivity.
Defined.

(** X11. The project id handed to the SDK (lines 143-145) is [argv.projectId]
    when that is set, else [FIREBASE_PROJECT_ID] when that is set, else none;
    a call that returns has registered the app with exactly that option. *)
Theorem initAdmin_projectId_option (w : world) (sa : value) (st : state) :
  st_apps st = 0 ->
  exists evs,
    st_trace (snd (initAdmin w sa st)) = (st_trace st ++ evs)%list
    /\ (forall o, In (InitializeApp o) evs ->
                  opt_projectId o
                  = if truthy (st_projectId st) then st_projectId st
                    else if truthy (env w "FIREBASE_PROJECT_ID")
                         then env w "FIREBASE_PROJECT_ID"
                         else VUndefined)
    /\ (fst (initAdmin w sa st) = Ret tt -> exists o, In (InitializeApp o) evs).
Proof.
  intros Happs. fold (projectId_option w (st_projectId st)).
  assert (Hcred : forall evs o, Forall (fun e => credential_step e = true) evs ->
                                ~ In (InitializeApp o) evs).
  { intros evs o F Hin. rewrite Forall_forall in F. specialize (F _ Hin). discriminate F. }
  destruct (initAdmin_cases w sa st Happs) as [evs [F [[e [_ E]] | [cred [_ E]]]]]; rewrite E.
  - exists evs. cbn. split; [reflexivity |]. split; [| discriminate].
    intros o Hin. now destruct (Hcred evs o F).
  - exists (evs ++ [InitializeApp (mk_options cred (projectId_option w (st_projectId st)))])%list.
    split; [now destruct (initializeApp w _) |]. split.
    + intros o Hin. apply in_app_or in Hin. destruct Hin as [Hin | [Hin | []]].
      * now destruct (Hcred evs o F).
      * now injection Hin as <-.
    + intros _. eexists. apply in_or_app. right. left. reflexivity.
Qed.

Lemma initAdmin_projectId_option_witness :
  exists evs,
    st_trace (snd (initAdmin projectId_flag_world (VStr "/work/sa.json")
                     (initial_state projectId_flag_world)))
    = (st_trace (initial_state projectId_flag_world) ++ evs)%list
    /\ (forall o, In (InitializeApp o) evs -> opt_projectId o = VStr "flag-project")
    /\ (fst (initAdmin projectId_flag_world (VStr "/work/sa.json")
               (initial_state projectId_flag_world)) = Ret tt ->
        exists o, In (InitializeApp o) evs).
Proof.
  apply (initAdmin_projectId_option projectId_flag_world (VStr "/work/sa.json")
           (initial_state projectId_flag_world)).
  reflexivity.
Defined.

(** X12. An explicit path wins over everything else (lines 105-109): given a
    path, [initAdmin] looks at that one file, resolved, and at nothing else.
    It does not consult [GOOGLE_APPLICATION_CREDENTIALS], does not scan
    [.firebase/] and does not ask for default credentials. *)
Theorem initAdmin_explicit_path_only (w : world) (p : string) :
  p <> EmptyString ->
  emits (fun e => explicit_path_step (path_resolve w p) e = true) (initAdmin w (VStr p)).
Proof.
  intros Hp. apply truthy_VStr in Hp.
  unfold initAdmin, initAdmin_credential, path_resolve_value, existsSync, require,
    admin_credential_cert, admin_initializeApp, get_apps, get_projectId, lift_check, lift_sum.
  rewrite Hp.
  repeat lazymatch goal with
         | |- emits _ (bind (ret ?a) ?k) => change (bind (ret a) k) with (k a); cbv beta
         | _ => frame_step
         end;
    cbn [explicit_path_step]; rewrite ?String.eqb_refl; try reflexivity; frame_raw.
Qed.

Lemma initAdmin_explicit_path_only_witness :
  emits (fun e => explicit_path_step (path_resolve env_credentials_world "/creds/sa.json") e = true)
    (initAdmin env_credentials_world (VStr "/creds/sa.json")).
Proof.
  apply (initAdmin_explicit_path_only env_credentials_world "/creds/sa.json"). discriminate.
Defined.

(** Lines 113-115 and 138-140, when [.firebase] is not a directory. *)
Lemma initAdmin_credential_no_directory w sa st :
  truthy sa = false ->
  truthy (env w "GOOGLE_APPLICATION_CREDENTIALS") = false ->
  (forall names, st_fs st (path_resolve w ".firebase") <> Some (Dir names)) ->
  initAdmin_credential w sa st
  = (Throw no_service_account_provided,
     with_trace st
       (ExistsSync (path_resolve w ".firebase")
        :: match st_fs st (path_resolve w ".firebase") with
           | Some _ => [StatSync (path_resolve w ".firebase")]
           | None => []
           end)).
Proof.
  intros Hsa Henv Hdir. unfold initAdmin_credential. rewrite Hsa, Henv. cbv zeta.
  rewrite (bind_eq _ _ _ _ _ (existsSync_eq _ st)).
  unfold statSync_isDirectory, with_trace, no_service_account_provided. run_monad.
  destruct (st_fs st (path_resolve w ".firebase")) as [[c | names] |] eqn:E; cbn; rewrite ?E; cbn.
  - rewrite <- List.app_assoc. reflexivity.
  - now destruct (Hdir names).
  - reflexivity.
Qed.

(** X13. Without a path, without the credential variable and without a
    [.firebase] directory (the name is absent, or names a regular file),
    [initAdmin] throws the error that says how to provide a service account,
    after the existence check and, for a file, the directory test; it lists
    nothing and reads nothing. *)
Theorem initAdmin_without_directory (w : world) (sa : value) (st : state) :
  st_apps st = 0 ->
  truthy sa = false ->
  truthy (env w "GOOGLE_APPLICATION_CREDENTIALS") = false ->
  (forall names, st_fs st (path_resolve w ".firebase") <> Some (Dir names)) ->
  initAdmin w sa st
  = (Throw no_service_account_provided,
     with_trace st
       (ExistsSync (path_resolve w ".firebase")
        :: match st_fs st (path_resolve w ".firebase") with
           | Some _ => [StatSync (path_resolve w ".firebase")]
           | None => []
           end)).
Proof.
  intros Happs Hsa Henv Hdir. rewrite (initAdmin_fresh w sa st Happs).
  apply bind_throw. now apply initAdmin_credential_no_directory.
Qed.

Lemma initAdmin_without_directory_witness :
  initAdmin firebase_is_a_file_world VUndefined (initial_state firebase_is_a_file_world)
  = (Throw no_service_account_provided,
     with_trace (initial_state firebase_is_a_file_world)
       (ExistsSync (path_resolve firebase_is_a_file_world ".firebase")
        :: match st_fs (initial_state firebase_is_a_file_world)
                   (path_resolve firebase_is_a_file_world ".firebase") with
           | Some _ => [StatSync (path_resolve firebase_is_a_file_world ".firebase")]
           | None => []
           end)).
Proof.
  apply (initAdmin_without_directory firebase_is_a_file_world VUndefined
           (initial_state firebase_is_a_file_world)).
  - reflexivity.
  - reflexivity.
  - reflexivity.
  - intros names. vm_compute. discriminate.
Defined.

(** ** Which steps can end the process *)

Section Exits.

Variable w : world.

Lemma never_exits_question text : never_exits (question w text).
Proof. unfold question. repeat quiet_step. quiet_leaf. Qed.

Lemma never_exits_prompt q : never_exits (prompt w q).
Proof. unfold prompt. repeat (apply never_exits_question || quiet_step). Qed.

Lemma never_exits_readCache : never_exits (readCache w).
Proof. intros st c. now rewrite readCache_eq. Qed.

Lemma never_exits_main_load_cache u s a : never_exits (main_load_cache w u s a).
Proof.
  unfold main_load_cache, console_log, get_projectId, set_projectId.
  repeat (apply never_exits_readCache || apply never_exits_prompt || quiet_step); quiet_leaf.
Qed.

Lemma never_exits_main_resolve_apiKey a : never_exits (main_resolve_apiKey w a).
Proof. unfold main_resolve_apiKey. repeat (apply never_exits_prompt || quiet_step). Qed.

Lemma never_exits_main_resolve_serviceAccount s :
  never_exits (main_resolve_serviceAccount w s).
Proof.
  unfold main_resolve_serviceAccount, console_log. cbv zeta.
  repeat (apply never_exits_prompt || apply never_exits_existsSync
          || apply never_exits_statSync || apply never_exits_readdirSync
          || apply never_exits_pick || quiet_step).
Qed.

Lemma never_exits_initAdmin s : never_exits (initAdmin w s).
Proof.
  unfold initAdmin, get_apps, get_projectId, admin_initializeApp, lift_check.
  repeat (apply never_exits_initAdmin_credential || quiet_step); quiet_leaf.
Qed.

End Exits.

Section ExitLines.

Variable w : world.

Lemma exits_without_uid_never {A} (m : M A) : never_exits m -> exits_without_uid m.
Proof. intros H st c st' E. destruct (H st c). now rewrite E. Qed.

Lemma exits_without_uid_bind {A B} (m : M A) (k : A -> M B) :
  exits_without_uid m -> (forall a, exits_without_uid (k a)) -> exits_without_uid (bind m k).
Proof.
  intros Hm Hk st c st' E. unfold bind in E.
  destruct (m st) as [[a | e | c'] st1] eqn:Em.
  - exact (Hk a st1 c st' E).
  - discriminate E.
  - injection E as <- <-. exact (Hm st c' st1 Em).
Qed.

(** Lines 200-206: the only exit of the input gathering. *)
Lemma exits_without_uid_main_resolve_uid u : exits_without_uid (main_resolve_uid w u).
Proof.
  unfold main_resolve_uid.
  destruct (truthy u); cbn [negb]; [exact (exits_without_uid_never _ (never_exits_ret _)) |].
  apply exits_without_uid_bind; [exact (exits_without_uid_never _ (never_exits_prompt w _)) |].
  intros answer. destruct (truthy (VStr answer)); cbn [negb].
  - exact (exits_without_uid_never _ (never_exits_ret _)).
  - intros st c st' E. injection E as <- <-. split; [reflexivity |].
    exists (st_trace st). reflexivity.
Qed.

Lemma exits_without_uid_main_inputs : exits_without_uid (main_inputs w).
Proof.
  unfold main_inputs.
  apply exits_without_uid_bind;
    [exact (exits_without_uid_never _ (never_exits_main_load_cache w _ _ _)) |].
  intros [[u s] a].
  apply exits_without_uid_bind; [apply exits_without_uid_main_resolve_uid |]. intros u'.
  apply exits_without_uid_bind;
    [exact (exits_without_uid_never _ (never_exits_main_resolve_apiKey w _)) |]. intros a'.
  apply exits_without_uid_bind;
    [exact (exits_without_uid_never _ (never_exits_main_resolve_serviceAccount w _)) |].
  intros s'. exact (exits_without_uid_never _ (never_exits_ret _)).
Qed.

(** Lines 236-241: [main_init] returns, or prints the message of what
    [initAdmin] threw and exits with code 2. *)
Lemma main_init_cases s st :
  (fst (initAdmin w s st) = Ret tt /\ main_init w s st = initAdmin w s st)
  \/ exists e,
       fst (initAdmin w s st) = Throw e
       /\ main_init w s st
          = (Exit 2, with_trace (snd (initAdmin w s st))
                       [LogError ["Failed to initialize Firebase Admin:"; err_message e]]).
Proof.
  unfold main_init, try_catch.
  pose proof (never_exits_initAdmin w s st) as Hn.
  destruct (initAdmin w s st) as [[[] | e | c'] st1]; cbn [fst snd] in *.
  - left. split; reflexivity.
  - right. exists e. split; reflexivity.
  - now destruct (Hn c').
Qed.

(** The message that line 255 prints for an error: [err.message || err]. *)
Lemma error_line_text err :
  error_line (error_text err)
  = LogError [(String esc "[31m" ++ "Error:" ++ String esc "[0m")%string;
              (String esc "[31m"
               ++ (if (err_message err =? "")%string then err_name err else err_message err)
               ++ String esc "[0m")%string].
Proof.
  unfold error_line, error_text, error_to_string, colorText, colors_red, colors_reset.
  destruct (err_message err =? "")%string; reflexivity.
Qed.

End ExitLines.

(** X14. The exit codes.  A run that ends the process itself does so with
    code 1, 2 or 3, and the last thing it did was to print on the error stream
    the line that goes with the code and gives its reason.  Code 1: the input
    gathering found no uid, and the line says so.  Code 2: [initAdmin], called
    with the service account that the inputs gave, threw, and the line ends
    with the message of what it threw.  Code 3: the initialisation had
    returned and the minting call failed, or returned a token whose exchange
    then threw; the line is [Error:] and the message of that error (its name
    when it has no message), both in red. *)
Theorem run_exit_codes (w : world) (c : Z) :
  fst (run w) = Exit c ->
  exists before,
    (c = 1%Z
     /\ fst (main_inputs w (initial_state w)) = Exit 1
     /\ st_trace (snd (run w)) = (before ++ [LogError ["No UID provided, aborting."]])%list)
    \/ (c = 2%Z
        /\ exists uid serviceAccount apiKey e,
             fst (main_inputs w (initial_state w)) = Ret (uid, serviceAccount, apiKey)
             /\ fst (initAdmin w serviceAccount (snd (main_inputs w (initial_state w))))
                = Throw e
             /\ st_trace (snd (run w))
                = (before
                   ++ [LogError ["Failed to initialize Firebase Admin:"; err_message e]])%list)
    \/ (c = 3%Z
        /\ exists uid serviceAccount apiKey e,
             fst (main_inputs w (initial_state w)) = Ret (uid, serviceAccount, apiKey)
             /\ fst (main_init w serviceAccount (snd (main_inputs w (initial_state w))))
                = Ret tt
             /\ (auth_createCustomToken w uid = inr e
                 \/ exists tok,
                      auth_createCustomToken w uid = inl tok
                      /\ fst (exchangeCustomTokenForIdToken w tok apiKey (initial_state w))
                         = Throw e)
             /\ st_trace (snd (run w))
                = (before
                   ++ [LogError
                         [(String esc "[31m" ++ "Error:" ++ String esc "[0m")%string;
                          (String esc "[31m"
                           ++ (if (err_message e =? "")%string then err_name e
                               else err_message e)
                           ++ String esc "[0m")%string]])%list).
Proof.
  unfold run, main.
  destruct (main_inputs w (initial_state w)) as [[[[u s] a] | e | c1] st1] eqn:E1.
  - rewrite (bind_eq _ _ _ _ _ E1). cbv beta iota. cbn [fst snd].
    destruct (main_init_cases w s st1) as [[Hi Ei] | [e [Hi Ei]]].
    + destruct (main_init w s st1) as [r st2] eqn:E2.
      rewrite <- Ei in Hi. cbn [fst] in Hi. subst r.
      rewrite (bind_eq _ _ _ _ _ E2). rewrite main_tokens_eq.
      destruct (auth_createCustomToken w u) as [tok | e] eqn:Em.
      * pose proof (never_exits_exchange w tok a
                      (with_trace st2 [CreateCustomToken u; token_line tok])) as Hn.
        pose proof (exchange_outcome w tok a (initial_state w)
                      (with_trace st2 [CreateCustomToken u; token_line tok])) as Ho.
        destruct (exchangeCustomTokenForIdToken w tok a
                    (with_trace st2 [CreateCustomToken u; token_line tok]))
          as [[data | err | c'] st3]; cbn [fst] in Hn, Ho.
        -- intros H.
           pose proof (writeCache_returns w
                         (VObj (saved_setup w u s a (st_projectId st3)))
                         (with_trace st3 (result_lines data))) as Hr.
           rewrite H in Hr. discriminate Hr.
        -- cbn [fst snd]. intros H. injection H as <-.
           exists (st_trace st3). right. right. split; [reflexivity |].
           exists u, s, a, err. split; [reflexivity |]. split; [now rewrite E2 |].
           split; [right; exists tok; split; [exact Em | exact Ho] |].
           cbn [with_trace st_trace]. now rewrite error_line_text.
        -- now destruct (Hn c').
      * cbn [fst snd]. intros H. injection H as <-.
        exists (st_trace st2 ++ [CreateCustomToken u])%list. right. right.
        split; [reflexivity |].
        exists u, s, a, e. split; [reflexivity |]. split; [now rewrite E2 |].
        split; [left; exact Em |].
        cbn [with_trace st_trace]. rewrite <- List.app_assoc. cbn [app].
        now rewrite error_line_text.
    + rewrite (bind_exit _ _ _ _ _ Ei). cbn [fst snd]. intros H. injection H as <-.
      exists (st_trace (snd (initAdmin w s st1))). right. left. split; [reflexivity |].
      exists u, s, a, e. split; [reflexivity |]. split; [exact Hi | reflexivity].
  - rewrite (bind_throw _ _ _ _ _ E1). discriminate.
  - rewrite (bind_exit _ _ _ _ _ E1). cbn [fst snd]. intros H. injection H as <-.
    destruct (exits_without_uid_main_inputs w _ _ _ E1) as [-> [before Hb]].
    exists before. left. split; [reflexivity |]. split; [reflexivity | exact Hb].
Qed.

Lemma run_exit_codes_witness :
  exists before,
    (2 = 1 /\ fst (main_inputs missing_file_world (initial_state missing_file_world)) = Exit 1
     /\ st_trace (snd (run missing_file_world))
        = (before ++ [LogError ["No UID provided, aborting."]])%list)%Z
    \/ (2 = 2
        /\ exists uid serviceAccount apiKey e,
             fst (main_inputs missing_file_world (initial_state missing_file_world))
             = Ret (uid, serviceAccount, apiKey)
             /\ fst (initAdmin missing_file_world serviceAccount
                       (snd (main_inputs missing_file_world (initial_state missing_file_world))))
                = Throw e
             /\ st_trace (snd (run missing_file_world))
                = (before
                   ++ [LogError ["Failed to initialize Firebase Admin:"; err_message e]])%list)%Z
    \/ (2 = 3
        /\ exists uid serviceAccount apiKey e,
             fst (main_inputs missing_file_world (initial_state missing_file_world))
             = Ret (uid, serviceAccount, apiKey)
             /\ fst (main_init missing_file_world serviceAccount
                       (snd (main_inputs missing_file_world (initial_state missing_file_world))))
                = Ret tt
             /\ (auth_createCustomToken missing_file_world uid = inr e
                 \/ exists tok,
                      auth_createCustomToken missing_file_world uid = inl tok
                      /\ fst (exchangeCustomTokenForIdToken missing_file_world tok apiKey
                                (initial_state missing_file_world))
                         = Throw e)
             /\ st_trace (snd (run missing_file_world))
                = (before
                   ++ [LogError
                         [(String esc "[31m" ++ "Error:" ++ String esc "[0m")%string;
                          (String esc "[31m"
                           ++ (if (err_message e =? "")%string then err_name e
                               else err_message e)
                           ++ String esc "[0m")%string]])%list)%Z.
Proof.
  apply (run_exit_codes missing_file_world 2). vm_compute. reflexivity.
Defined.

(** ** What a run does to the disk *)

Lemma writeCache_other_files w obj st p :
  p <> CACHE_FILE w -> st_fs (snd (writeCache w obj st)) p = st_fs st p.
Proof.
  intros Hp. unfold writeCache, encodeSafe, writeFileSync. cbn [stringify]. run_monad.
  destruct (st_fs st (CACHE_FILE w)) as [[c | names] |]; cbn;
    try (destruct (write_denied w (CACHE_FILE w)); cbn); try reflexivity;
    now destruct (String.eqb_spec p (CACHE_FILE w)).
Qed.

Lemma initAdmin_fs w s st : st_fs (snd (initAdmin w s st)) = st_fs st.
Proof.
  destruct (Nat.eq_dec (st_apps st) 0) as [Happs | Happs].
  - destruct (initAdmin_cases w s st Happs) as [evs [_ [[e [_ E]] | [cred [_ E]]]]]; rewrite E;
      [reflexivity |].
    now destruct (initializeApp w _).
  - now rewrite (initAdmin_started w s st Happs).
Qed.

Lemma main_init_fs w s st : st_fs (snd (main_init w s st)) = st_fs st.
Proof.
  unfold main_init, try_catch. pose proof (initAdmin_fs w s st) as H.
  destruct (initAdmin w s st) as [[[] | e | c] st1]; exact H.
Qed.

(** X15. A run changes no file but the cache file, and the cache file only
    when it succeeds: a run that ends in an exit code or an exception leaves
    the whole disk as it found it.  (A module that [require] loads is taken to
    have no effect of its own.) *)
Theorem run_changes_only_cache_file (w : world) :
  (forall p, p <> CACHE_FILE w -> st_fs (snd (run w)) p = disk w p)
  /\ (fst (run w) <> Ret tt -> st_fs (snd (run w)) = disk w).
Proof.
  unfold run, main.
  destruct (keeps_main_inputs w (initial_state w)) as [Hfs1 _].
  destruct (main_inputs w (initial_state w)) as [[[[u s] a] | e | c] st1] eqn:E1;
    cbn [snd initial_state st_fs] in Hfs1;
    [rewrite (bind_eq _ _ _ _ _ E1) | rewrite (bind_throw _ _ _ _ _ E1)
     | rewrite (bind_exit _ _ _ _ _ E1)];
    cbn [fst snd]; try (split; [intros p _; now rewrite Hfs1 | intros _; exact Hfs1]).
  pose proof (main_init_fs w s st1) as Hfs2. rewrite Hfs1 in Hfs2.
  destruct (main_init w s st1) as [[[] | e | c] st2] eqn:E2; cbn [snd] in Hfs2;
    [rewrite (bind_eq _ _ _ _ _ E2) | rewrite (bind_throw _ _ _ _ _ E2)
     | rewrite (bind_exit _ _ _ _ _ E2)];
    cbn [fst snd]; try (split; [intros p _; now rewrite Hfs2 | intros _; exact Hfs2]).
  rewrite main_tokens_eq.
  destruct (auth_createCustomToken w u) as [tok | e];
    [| split; [intros p _; now rewrite <- Hfs2 | intros _; exact Hfs2]].
  destruct (exchange_appends w tok a (with_trace st2 [CreateCustomToken u; token_line tok]))
    as [evs Hx].
  destruct (exchangeCustomTokenForIdToken w tok a _) as [[data | err | c] st3];
    cbn [snd] in Hx; subst st3;
    try (split; [intros p _; now rewrite <- Hfs2 | intros _; exact Hfs2]).
  split.
  - intros p Hp. rewrite (writeCache_other_files w _ _ p Hp). now rewrite <- Hfs2.
  - intros H. destruct H.
    pose proof (writeCache_returns w
                  (VObj (saved_setup w u s a
                           (st_projectId (with_trace (with_trace st2
                              [CreateCustomToken u; token_line tok]) evs))))
                  (with_trace (with_trace (with_trace st2
                     [CreateCustomToken u; token_line tok]) evs) (result_lines data))) as Hr.
    destruct (writeCache w _ _) as [r st4]. cbn [fst] in *. now subst r.
Qed.

(** ** Precedence of the inputs: lines 180-234 *)

Lemma main_resolve_uid_keeps w u :
  returns (fun u' => truthy u' = true /\ (truthy u = true -> u' = u)) (main_resolve_uid w u).
Proof.
  unfold main_resolve_uid. destruct (truthy u) eqn:E; cbn [negb].
  - apply returns_ret. auto.
  - apply returns_bind_any. intros answer.
    destruct (truthy (VStr answer)) eqn:E2; cbn [negb].
    + apply returns_ret. split; [exact E2 | discriminate].
    + apply returns_bind_any. intros _. apply returns_exit.
Qed.

Lemma main_resolve_apiKey_keeps w a :
  returns (fun a' => truthy a = true -> a' = a) (main_resolve_apiKey w a).
Proof.
  unfold main_resolve_apiKey. destruct (truthy a) eqn:E; cbn [negb].
  - apply returns_ret. auto.
  - apply returns_always. intros a' H. discriminate H.
Qed.

Lemma main_resolve_serviceAccount_keeps w s :
  returns (fun s' => truthy s = true -> s' = s) (main_resolve_serviceAccount w s).
Proof.
  unfold main_resolve_serviceAccount. destruct (truthy s) eqn:E; cbn [negb].
  - apply returns_ret. auto.
  - apply returns_always. intros a' H. discriminate H.
Qed.

(** What the flags and the environment supplied reaches the end of the
    input gathering unchanged, and the uid that comes out is never empty. *)
Lemma main_inputs_keeps w :
  returns (fun inputs =>
             truthy (fst (fst inputs)) = true
             /\ (truthy (argv_uid w) = true -> fst (fst inputs) = argv_uid w)
             /\ (truthy (js_or (argv_serviceAccount w) (env w "GOOGLE_APPLICATION_CREDENTIALS")) = true ->
                 snd (fst inputs)
                 = js_or (argv_serviceAccount w) (env w "GOOGLE_APPLICATION_CREDENTIALS"))
             /\ (truthy (js_or (argv_apiKey w) (env w "FIREBASE_API_KEY")) = true ->
                 snd inputs = js_or (argv_apiKey w) (env w "FIREBASE_API_KEY")))
    (main_inputs w).
Proof.
  unfold main_inputs. cbv zeta.
  eapply returns_bind; [apply main_load_cache_fills_gaps |].
  intros [[u s] a] [Hu [Hs Ha]]. cbn [fst snd] in *.
  eapply returns_bind; [apply main_resolve_uid_keeps |]. intros u' [Hu1 Hu2].
  eapply returns_bind; [apply main_resolve_apiKey_keeps |]. intros a' Ha'.
  eapply returns_bind; [apply main_resolve_serviceAccount_keeps |]. intros s' Hs'.
  apply returns_ret. cbn [fst snd]. split; [exact Hu1 |]. split; [| split].
  - intros H. specialize (Hu H). subst u. now apply Hu2.
  - intros H. specialize (Hs H). subst s. now apply Hs'.
  - intros H. specialize (Ha H). subst a. now apply Ha'.
Qed.

(** X16. Flags first, then the environment: whenever the input gathering
    returns, a uid given by [--uid] is the uid used; a path given by
    [--serviceAccount], else by [GOOGLE_APPLICATION_CREDENTIALS], is the path
    used; a key given by [--apiKey], else by [FIREBASE_API_KEY], is the key
    used.  Neither the cache nor a prompt nor the scan of [.firebase/]
    replaces them. *)
Theorem inputs_precedence (w : world) (st st' : state) (uid serviceAccount apiKey : value) :
  main_inputs w st = (Ret (uid, serviceAccount, apiKey), st') ->
  (truthy (argv_uid w) = true -> uid = argv_uid w)
  /\ (truthy (argv_serviceAccount w) = true -> serviceAccount = argv_serviceAccount w)
  /\ (truthy (argv_serviceAccount w) = false ->
      truthy (env w "GOOGLE_APPLICATION_CREDENTIALS") = true ->
      serviceAccount = env w "GOOGLE_APPLICATION_CREDENTIALS")
  /\ (truthy (argv_apiKey w) = true -> apiKey = argv_apiKey w)
  /\ (truthy (argv_apiKey w) = false ->
      truthy (env w "FIREBASE_API_KEY") = true ->
      apiKey = env w "FIREBASE_API_KEY").
Proof.
  intros H. destruct (main_inputs_keeps w st _ st' H) as [_ [Hu [Hs Ha]]]. cbn [fst snd] in *.
  rewrite truthy_js_or in Hs, Ha. unfold js_or in Hs, Ha.
  split; [exact Hu |]. split; [| split; [| split]].
  - intros E. rewrite E in Hs. now apply Hs.
  - intros E E'. rewrite E, E' in Hs. now apply Hs.
  - intros E. rewrite E in Ha. now apply Ha.
  - intros E E'. rewrite E, E' in Ha. now apply Ha.
Qed.

Lemma inputs_precedence_witness :
  fst (main_inputs cached_setup_world (initial_state cached_setup_world))
  = Ret (VStr "cached-uid", VStr "/work/sa.json", VStr "env-key")
  /\ VStr "env-key" = env cached_setup_world "FIREBASE_API_KEY".
Proof.
  split; [vm_compute; reflexivity |].
  destruct (inputs_precedence cached_setup_world (initial_state cached_setup_world)
              (snd (main_inputs cached_setup_world (initial_state cached_setup_world)))
              (VStr "cached-uid") (VStr "/work/sa.json") (VStr "env-key")
              ltac:(vm_compute; reflexivity)) as [_ [_ [_ [_ H]]]].
  apply H; reflexivity.
Defined.

(** ** Minting comes after the initialisation *)

Lemma app_cons_unique {A} (P : A -> bool) l1 x l2 l1' y l2' :
  P x = true -> Forall (fun z => P z = false) l1' -> Forall (fun z => P z = false) l2' ->
  (l1 ++ x :: l2 = l1' ++ y :: l2')%list ->
  l1 = l1' /\ x = y.
Proof.
  intros Hx H1 H2. revert l1. induction H1 as [| b t Hb Ht IH]; intros l1 E.
  - destruct l1 as [| a l1]; cbn [app] in E.
    + injection E as -> _. auto.
    + injection E as _ E. rewrite Forall_forall in H2.
      assert (Hin : In x l2') by (rewrite <- E; apply in_or_app; right; left; reflexivity).
      specialize (H2 x Hin). congruence.
  - destruct l1 as [| a l1]; cbn [app] in E.
    + injection E as -> _. congruence.
    + injection E as -> E. destruct (IH l1 E) as [-> ->]. auto.
Qed.

Lemma no_mint_in {A} (P : A -> bool) l1 x l2 l :
  P x = true -> Forall (fun z => P z = false) l -> l <> (l1 ++ x :: l2)%list.
Proof.
  intros Hx F E. rewrite Forall_forall in F.
  assert (Hin : In x l) by (rewrite E; apply in_or_app; right; left; reflexivity).
  specialize (F x Hin). congruence.
Qed.

Lemma local_not_mint e : local e -> is_mint e = false.
Proof. unfold local. destruct e; cbn; intros H; try discriminate H; reflexivity. Qed.

Lemma credential_not_mint e : credential_step e = true -> is_mint e = false.
Proof. destruct e; cbn; intros H; try discriminate H; reflexivity. Qed.

(** The minting call is the first thing the last step of [main] does, and
    it does it once. *)
Lemma main_tokens_mints_first w u s a st :
  exists rest,
    st_trace (snd (main_tokens w u s a st)) = (st_trace st ++ CreateCustomToken u :: rest)%list
    /\ Forall (fun e => is_mint e = false) rest.
Proof.
  rewrite main_tokens_eq.
  destruct (auth_createCustomToken w u) as [tok | e].
  2:{ eexists. cbn [snd with_trace st_trace]. split; [reflexivity | repeat constructor]. }
  assert (Hx : exists evs,
             snd (exchangeCustomTokenForIdToken w tok a
                    (with_trace st [CreateCustomToken u; token_line tok]))
             = with_trace (with_trace st [CreateCustomToken u; token_line tok]) evs
             /\ Forall (fun e => is_mint e = false) evs).
  { rewrite exchange_eq.
    destruct (truthy a); cbn [negb];
      [| exists []; rewrite with_trace_nil; split; [reflexivity | constructor]].
    destruct (import_node_fetch w);
      [eexists; split; [reflexivity | repeat constructor] |].
    destruct (node_fetch w _ _) as [res | e];
      [| eexists; split; [reflexivity | repeat constructor]].
    destruct (json_parse (res_body res));
      [| eexists; split; [reflexivity | repeat constructor]].
    destruct (res_ok res); eexists; (split; [reflexivity | repeat constructor]). }
  destruct Hx as [evs [Hx F]].
  destruct (exchangeCustomTokenForIdToken w tok a _) as [[data | err | c] st1];
    cbn [snd] in Hx; subst st1.
  - rewrite writeCache_trace by apply saved_setup_nodup.
    eexists. cbn [with_trace st_trace]. rewrite <- !List.app_assoc. cbn [app].
    split; [reflexivity |].
    constructor; [reflexivity |]. apply Forall_app. split; [exact F | repeat constructor].
  - eexists. cbn [snd with_trace st_trace]. rewrite <- !List.app_assoc. cbn [app].
    split; [reflexivity |].
    constructor; [reflexivity |]. apply Forall_app. split; [exact F | repeat constructor].
  - eexists. cbn [snd with_trace st_trace]. rewrite <- !List.app_assoc. cbn [app].
    split; [reflexivity |]. constructor; [reflexivity | exact F].
Qed.

(** X17. No token is minted before the SDK has accepted the initialisation,
    and none is minted for an empty uid: wherever a run calls
    [createCustomToken], the uid it passes is truthy and a call of
    [initializeApp] that did not throw comes earlier on the trace. *)
Theorem mint_follows_init (w : world) (uid : value) (before after : list event) :
  st_trace (snd (run w)) = (before ++ CreateCustomToken uid :: after)%list ->
  truthy uid = true
  /\ exists o, In (InitializeApp o) before /\ initializeApp w o = None.
Proof.
  unfold run, main. intros H.
  destruct (keeps_main_inputs w (initial_state w)) as [_ Happs].
  destruct (emits_main_inputs w (initial_state w)) as [evs1 [Htr1 Hloc]].
  pose proof (main_inputs_keeps w (initial_state w)) as Hret.
  cbn [initial_state st_trace st_apps] in Htr1, Happs. rewrite List.app_nil_l in Htr1.
  assert (Hloc' : Forall (fun e => is_mint e = false) evs1)
    by (eapply Forall_impl; [| exact Hloc]; apply local_not_mint).
  destruct (main_inputs w (initial_state w)) as [[[[u s] a] | e | c] st1] eqn:E1;
    cbn [snd] in Htr1, Happs;
    [rewrite (bind_eq _ _ _ _ _ E1) in H | rewrite (bind_throw _ _ _ _ _ E1) in H
     | rewrite (bind_exit _ _ _ _ _ E1) in H];
    cbn [snd] in H;
    try (rewrite Htr1 in H; now destruct (no_mint_in is_mint before (CreateCustomToken uid) after evs1 eq_refl Hloc' H)).
  destruct (Hret _ _ eq_refl) as [Hu _]. cbn [fst] in Hu.
  destruct (initAdmin_cases w s st1 Happs) as [evs2 [F2 Hinit]].
  assert (F2' : Forall (fun e => is_mint e = false) evs2)
    by (eapply Forall_impl; [| exact F2]; apply credential_not_mint).
  assert (Hno : forall tail,
             Forall (fun e => is_mint e = false) tail ->
             st_trace (with_trace st1 (evs2 ++ tail))
             <> (before ++ CreateCustomToken uid :: after)%list).
  { intros tail Ft. cbn [with_trace st_trace]. rewrite Htr1.
    apply (no_mint_in is_mint); [reflexivity |].
    apply Forall_app. split; [exact Hloc' |]. apply Forall_app. now split. }
  unfold main_init in H.
  destruct Hinit as [[e [_ E]] | [cred [_ E]]].
  - rewrite (bind_exit _ _ st1 2%Z
               (with_trace st1 (evs2 ++ [LogError ["Failed to initialize Firebase Admin:";
                                                    err_message e]]))) in H.
    + cbn [snd] in H. exfalso. eapply Hno; [| exact H]. repeat constructor.
    + rewrite (try_catch_throw _ _ _ _ _ E). unfold console_error.
      rewrite (bind_eq _ _ _ _ _ (emit_eq _ _)). now rewrite with_trace_app.
  - destruct (initializeApp w (mk_options cred (projectId_option w (st_projectId st1))))
      as [e |] eqn:Ei.
    + rewrite (bind_exit _ _ st1 2%Z
                 (with_trace st1
                    (evs2 ++ [InitializeApp (mk_options cred
                                               (projectId_option w (st_projectId st1)));
                              LogError ["Failed to initialize Firebase Admin:";
                                        err_message e]]))) in H.
      * cbn [snd] in H. exfalso. eapply Hno; [| exact H]. repeat constructor.
      * rewrite (try_catch_throw _ _ _ _ _ E). unfold console_error.
        rewrite (bind_eq _ _ _ _ _ (emit_eq _ _)). rewrite with_trace_app.
        now rewrite <- List.app_assoc.
    + rewrite (bind_eq _ _ _ _ _ (try_catch_ret _ _ _ _ _ E)) in H.
      match type of H with
      | st_trace (snd (main_tokens w u s a ?st2)) = _ =>
          destruct (main_tokens_mints_first w u s a st2) as [rest [Ht Fr]]
      end.
      rewrite Ht in H. cbn [st_trace] in H. symmetry in H.
      apply (app_cons_unique is_mint) in H; [| reflexivity | | exact Fr].
      * destruct H as [-> Hc]. injection Hc as ->. split; [exact Hu |].
        eexists. split; [| exact Ei].
        apply in_or_app. right. apply in_or_app. right. left. reflexivity.
      * rewrite Htr1. apply Forall_app. split; [exact Hloc' |].
        apply Forall_app. split; [exact F2' | repeat constructor].
Qed.

Lemma mint_follows_init_witness :
  truthy (VStr "u1") = true
  /\ exists o,
       In (InitializeApp o)
         [ExistsSync "/work/.token-helper-cache"; ExistsSync "/creds/sa.json";
          Require "/creds/sa.json"; CredentialCert service_account_value;
          InitializeApp (mk_options (Cert service_account_value) VUndefined)]
       /\ initializeApp env_credentials_world o = None.
Proof.
  apply (mint_follows_init env_credentials_world (VStr "u1")
           [ExistsSync "/work/.token-helper-cache"; ExistsSync "/creds/sa.json";
            Require "/creds/sa.json"; CredentialCert service_account_value;
            InitializeApp (mk_options (Cert service_account_value) VUndefined)]
           (skipn 6 (st_trace (snd (run env_credentials_world))))).
  vm_compute. reflexivity.
Defined.

(** ** The uid prompt: lines 200-206 *)

(** X18. Without [--uid] and without a cache file, a blank answer to the uid
    prompt (Enter, or nothing but white space) ends the run with code 1: the
    run has looked for the cache file, asked the one question and printed that
    no uid was provided; the disk is as it was and nothing else happened. *)
Theorem blank_uid_exits_1 (w : world) (chunks : list string) :
  truthy (argv_uid w) = false ->
  disk w (CACHE_FILE w) = None ->
  Forall (fun c => In c white_space_code_points) chunks ->
  answers w 0 = concat EmptyString chunks ->
  fst (run w) = Exit 1
  /\ st_trace (snd (run w))
     = [ExistsSync (CACHE_FILE w);
        Question (colorText "Enter UID to mint token for: " colors_cyan);
        LogError ["No UID provided, aborting."]]
  /\ st_fs (snd (run w)) = disk w.
Proof.
  intros Hu Hc Hws Ha. unfold run, main, main_inputs, main_load_cache. cbv zeta.
  rewrite !bind_assoc.
  rewrite (bind_eq _ _ _ _ _ (readCache_eq w (initial_state w))).
  unfold cache_content. cbn [initial_state st_fs st_trace st_asked st_apps st_projectId app].
  rewrite Hc. cbn [truthy]. cbv beta iota.
  match goal with
  | |- context [bind (ret ?x) ?k ?s] => change (bind (ret x) k s) with (k x s)
  end.
  cbv beta iota. rewrite !bind_assoc. unfold main_resolve_uid. rewrite Hu. cbn [negb].
  rewrite !bind_assoc. rewrite (bind_eq _ _ _ _ _ (prompt_eq w _ _)).
  cbn [st_asked st_fs st_trace st_apps st_projectId app].
  rewrite Ha, (trim_blank chunks Hws). cbn [truthy String.eqb negb].
  unfold console_error. run_monad. auto.
Qed.

Lemma blank_uid_exits_1_witness :
  fst (run blank_answers_world) = Exit 1
  /\ st_trace (snd (run blank_answers_world))
     = [ExistsSync (CACHE_FILE blank_answers_world);
        Question (colorText "Enter UID to mint token for: " colors_cyan);
        LogError ["No UID provided, aborting."]]
  /\ st_fs (snd (run blank_answers_world)) = disk blank_answers_world.
Proof.
  apply (blank_uid_exits_1 blank_answers_world [" "; bytes [9]]).
  - reflexivity.
  - reflexivity.
  - apply white_space_chunks. vm_compute. reflexivity.
  - reflexivity.
Defined.

(** ** The offer of the saved setup: lines 186-197 *)



(** ** The scan of [main]: lines 214-226 *)

(** X20. The scan of [.firebase/] in [main] is not inside a [try] (line
    218).  Take a run with a uid and a key at hand, no service-account path,
    and a [.firebase/] directory that exists but cannot be listed.  The
    listing throws and nothing catches it: [main] ends in that exception
    (node reports an unhandled rejection), after the cache lookup and the
    three calls on the directory, without having printed anything and
    without having called the SDK. *)
Theorem unlistable_directory_is_uncaught (w : world) (names : list string) :
  truthy (argv_uid w) = true ->
  truthy (js_or (argv_apiKey w) (env w "FIREBASE_API_KEY")) = true ->
  truthy (argv_serviceAccount w) = false ->
  truthy (env w "GOOGLE_APPLICATION_CREDENTIALS") = false ->
  disk w (path_resolve w ".firebase") = Some (Dir names) ->
  read_denied w (path_resolve w ".firebase") = true ->
  exists e,
    fst (run w) = Throw e
    /\ st_trace (snd (run w))
       = (ExistsSync (CACHE_FILE w)
          :: match disk w (CACHE_FILE w) with
             | Some _ => [ReadFileSync (CACHE_FILE w)]
             | None => []
             end
          ++ [ExistsSync (path_resolve w ".firebase");
              StatSync (path_resolve w ".firebase");
              ReaddirSync (path_resolve w ".firebase")])%list.
Proof.
  intros Hu Hk Hs He Hd Hr. unfold run, main.
  assert (Hin : exists e,
             main_inputs w (initial_state w)
             = (Throw e,
                with_trace (snd (readCache w (initial_state w)))
                  [ExistsSync (path_resolve w ".firebase");
                   StatSync (path_resolve w ".firebase");
                   ReaddirSync (path_resolve w ".firebase")])).
  { unfold main_inputs. cbv zeta.
    rewrite (bind_eq _ _ _ _ _
               (main_load_cache_flag w _ _ _ (initial_state w) ltac:(
                  rewrite !truthy_js_or, Hu; reflexivity))).
    cbv beta iota.
    destruct (keeps_readCache w (initial_state w)) as [Hfs1 _].
    set (st1 := snd (readCache w (initial_state w))) in *.
    rewrite (bind_eq _ _ _ _ _ (main_resolve_uid_flag w _ st1 Hu)).
    rewrite (bind_eq _ _ _ _ _ (main_resolve_apiKey_given w _ st1 Hk)).
    assert (Hfs : st_fs st1 (path_resolve w ".firebase") = Some (Dir names))
      by (now rewrite Hfs1).
    assert (Es : main_resolve_serviceAccount w
                   (js_or (argv_serviceAccount w) (env w "GOOGLE_APPLICATION_CREDENTIALS")) st1
                 = (Throw (Error ("EACCES: permission denied, scandir "
                                  ++ path_resolve w ".firebase")),
                    with_trace st1 [ExistsSync (path_resolve w ".firebase");
                                    StatSync (path_resolve w ".firebase");
                                    ReaddirSync (path_resolve w ".firebase")])).
    { unfold main_resolve_serviceAccount.
      assert (Hf : truthy (js_or (argv_serviceAccount w)
                             (env w "GOOGLE_APPLICATION_CREDENTIALS")) = false)
        by (now rewrite truthy_js_or, Hs, He).
      rewrite Hf. cbn [negb]. cbv zeta.
      rewrite (bind_eq _ _ _ _ _ (existsSync_eq _ st1)), Hfs.
      rewrite (bind_eq _ _ _ _ _
                 (statSync_dir _ (with_trace st1 [ExistsSync (path_resolve w ".firebase")])
                    names Hfs)).
      rewrite with_trace_app. cbn [app].
      apply bind_throw. apply bind_throw.
      unfold readdirSync, with_trace. run_monad. rewrite Hfs, Hr. cbn.
      rewrite <- List.app_assoc. reflexivity. }
    rewrite (bind_throw _ _ _ _ _ Es). eexists. reflexivity. }
  destruct Hin as [e E].
  rewrite (bind_throw _ _ _ _ _ E). exists e. cbn [fst snd]. split; [reflexivity |].
  rewrite readCache_eq. cbn [snd with_trace st_trace initial_state st_fs app].
  now rewrite <- List.app_assoc.
Qed.

Lemma unlistable_directory_is_uncaught_witness :
  exists e,
    fst (run unreadable_directory_world) = Throw e
    /\ st_trace (snd (run unreadable_directory_world))
       = [ExistsSync "/work/.token-helper-cache"; ExistsSync "/work/.firebase";
          StatSync "/work/.firebase"; ReaddirSync "/work/.firebase"].
Proof.
  apply (unlistable_directory_is_uncaught unreadable_directory_world ["sa.json"]);
    reflexivity.
Defined.

(** ** What a successful run leaves in the cache: lines 250-253 *)

Lemma cache_text_decodes ps :
  NoDup (map fst ps) -> forallb (fun kv => storable (snd kv)) ps = true ->
  (trim (cache_text ps) =? "")%string = false
  /\ json_parse (base64_decode (trim (cache_text ps))) = Some (VObj (kept (safe_of ps))).
Proof.
  intros Hnd Hst. unfold cache_text. rewrite (trim_plain _ (all_plain_base64 _)). split.
  - destruct (String.eqb_spec (base64_encode (text_of (VObj (kept (safe_of ps))))) EmptyString)
      as [E | _]; [| reflexivity].
    apply base64_encode_nonempty in E; [destruct E |].
    unfold text_of. cbn [stringify]. discriminate.
  - rewrite base64_decode_encode. apply json_parse_stringify.
    now apply exact_safe.
Qed.

(** X21. A run that succeeds saves its own setup, and only that.  When the
    minting and exchange step returns on a machine where the cache file can be
    written and read, and the inputs are exact JSON values, a [readCache]
    right after it returns an object that holds the uid, the path and the key
    the run used, the project id and the time of the run, and no other
    property: neither the custom token nor anything of the exchange answer. *)
Theorem saved_setup_read_back (w : world) (uid serviceAccount apiKey : value) (st st' : state) :
  main_tokens w uid serviceAccount apiKey st = (Ret tt, st') ->
  forallb (fun kv => storable (snd kv))
    (saved_setup w uid serviceAccount apiKey (st_projectId st)) = true ->
  (forall names, st_fs st (CACHE_FILE w) <> Some (Dir names)) ->
  write_denied w (CACHE_FILE w) = false ->
  read_denied w (CACHE_FILE w) = false ->
  exists back,
    fst (readCache w st') = Ret (VObj back)
    /\ lookup "uid" back = uid
    /\ lookup "serviceAccount" back = serviceAccount
    /\ lookup "apiKey" back = apiKey
    /\ lookup "projectId" back = js_or (st_projectId st) (env w "FIREBASE_PROJECT_ID")
    /\ lookup "timestamp" back = VNum (now w)
    /\ forall k, In k (map fst back) ->
                 In k ["uid"; "serviceAccount"; "apiKey"; "projectId"; "timestamp"].
Proof.
  intros Hrun Hst Hdir Hw Hr.
  set (ps := saved_setup w uid serviceAccount apiKey (st_projectId st)) in *.
  pose proof (saved_setup_nodup w uid serviceAccount apiKey (st_projectId st)) as Hnd.
  fold ps in Hnd.
  rewrite main_tokens_eq in Hrun.
  destruct (auth_createCustomToken w uid) as [tok | e]; [| discriminate].
  destruct (exchangeCustomTokenForIdToken w tok apiKey _) as [[data | err | c] st1] eqn:Hx;
    [| discriminate | discriminate].
  rewrite (exchange_returned w tok apiKey _ _ _ Hx) in Hrun.
  cbn [with_trace st_projectId] in Hrun. fold ps in Hrun.
  match type of Hrun with
  | writeCache w _ ?s = _ => rewrite (writeCache_eq w s ps Hnd Hdir Hw) in Hrun
  end.
  injection Hrun as <-.
  destruct (cache_text_decodes ps Hnd Hst) as [Hne Hdec].
  exists (kept (safe_of ps)). split.
  - rewrite readCache_eq. cbn [fst]. unfold cache_content. cbn [st_fs].
    now rewrite String.eqb_refl, Hr, Hne, Hdec.
  - assert (Hl : forall k, k <> "idToken" -> k <> "refreshToken" ->
                           lookup k (kept (safe_of ps)) = lookup k ps).
    { intros k H1 H2. rewrite lookup_kept by (now apply safe_of_nodup).
      unfold safe_of. rewrite !lookup_delete.
      destruct (String.eqb_spec "refreshToken" k) as [E | _]; [congruence |].
      destruct (String.eqb_spec "idToken" k) as [E | _]; [congruence | reflexivity]. }
    repeat split; try (rewrite Hl by discriminate; reflexivity).
    intros k Hin. unfold kept, safe_of in Hin. rewrite !delete_prop_filter in Hin.
    apply in_map_iff in Hin. destruct Hin as [kv [<- Hkv]].
    apply filter_In in Hkv. destruct Hkv as [Hkv _].
    apply filter_In in Hkv. destruct Hkv as [Hkv _].
    apply filter_In in Hkv. destruct Hkv as [Hkv _].
    apply (in_map fst) in Hkv. exact Hkv.
Qed.

Lemma saved_setup_read_back_witness :
  exists back,
    fst (readCache env_credentials_world
           (snd (main_tokens env_credentials_world (VStr "u1") (VStr "/creds/sa.json")
                   (VStr "k1") (initial_state env_credentials_world))))
    = Ret (VObj back)
    /\ lookup "uid" back = VStr "u1"
    /\ lookup "serviceAccount" back = VStr "/creds/sa.json"
    /\ lookup "apiKey" back = VStr "k1"
    /\ lookup "projectId" back
       = js_or (st_projectId (initial_state env_credentials_world))
           (env env_credentials_world "FIREBASE_PROJECT_ID")
    /\ lookup "timestamp" back = VNum (now env_credentials_world)
    /\ forall k, In k (map fst back) ->
                 In k ["uid"; "serviceAccount"; "apiKey"; "projectId"; "timestamp"].
Proof.
  apply (saved_setup_read_back env_credentials_world (VStr "u1") (VStr "/creds/sa.json")
           (VStr "k1") (initial_state env_credentials_world)).
  - vm_compute. reflexivity.
  - vm_compute. reflexivity.
  - intros names. vm_compute. discriminate.
  - reflexivity.
  - reflexivity.
Defined.

(** ** Writes and requests of a run *)

Lemma prefix_append a b : prefix a (a ++ b) = true.
Proof.
  induction a as [| c a IH]; cbn [append prefix]; [now destruct b |].
  destruct (ascii_dec c c); [exact IH | contradiction].
Qed.

Section Sanctioned.

Variable w : world.

Lemma local_sanctioned e : local e -> sanctioned w e.
Proof. unfold local. destruct e; cbn; intros H; try discriminate H; exact I. Qed.

Lemma credential_sanctioned e : credential_step e = true -> sanctioned w e.
Proof. destruct e; cbn; intros H; try discriminate H; exact I. Qed.

Lemma sanctioned_main_init s : emits (sanctioned w) (main_init w s).
Proof.
  unfold main_init, initAdmin, console_error, get_apps, get_projectId, admin_initializeApp,
    lift_check.
  repeat (apply (emits_weaken _ _ _ credential_sanctioned
                   (logs_emits _ _ (logs_initAdmin_credential w s)))
          || frame_step);
    try exact I; frame_raw.
Qed.

Lemma sanctioned_exchange tok a : emits (sanctioned w) (exchangeCustomTokenForIdToken w tok a).
Proof.
  intros st. rewrite exchange_eq.
  assert (Hreq : sanctioned w (exchange_request a tok)).
  { unfold exchange_request, exchange_url. cbv beta iota delta [sanctioned].
    split; [| auto].
    exact (prefix_append (sign_in_endpoint ++ "?key=") (encodeURIComponent (to_string a))). }
  destruct (truthy a); cbn [negb];
    [| exists []; rewrite List.app_nil_r; split; [reflexivity | constructor]].
  destruct (import_node_fetch w);
    [eexists; split; [reflexivity | repeat constructor] |].
  destruct (node_fetch w _ _) as [res | e];
    [| eexists; split; [reflexivity | constructor; [exact I | constructor; [exact Hreq | constructor]]]].
  destruct (json_parse (res_body res));
    [| eexists; split; [reflexivity | constructor; [exact I | constructor; [exact Hreq | constructor]]]].
  destruct (res_ok res); eexists; (split; [reflexivity | constructor; [exact I | constructor; [exact Hreq | constructor]]]).
Qed.

Lemma sanctioned_writeCache obj : emits (sanctioned w) (writeCache w obj).
Proof.
  unfold writeCache, encodeSafe, writeFileSync. cbv zeta. cbn [stringify].
  repeat frame_step; try (split; reflexivity).
  intros st. exists []. rewrite List.app_nil_r. split; [| constructor].
  destruct (st_fs st (CACHE_FILE w)) as [[c | names] |]; try reflexivity;
    destruct (write_denied w (CACHE_FILE w)); reflexivity.
Qed.

Lemma sanctioned_main_tokens u s a : emits (sanctioned w) (main_tokens w u s a).
Proof.
  unfold main_tokens, createCustomToken, console_log, console_error, get_projectId, lift_sum.
  repeat (apply sanctioned_exchange || apply sanctioned_writeCache || frame_step);
    try exact I; frame_raw.
Qed.

Lemma sanctioned_main : emits (sanctioned w) (main w).
Proof.
  unfold main.
  apply emits_bind; [exact (emits_weaken _ _ _ local_sanctioned (emits_main_inputs w)) |].
  intros [[u s] a].
  apply emits_bind; [apply sanctioned_main_init | intros _; apply sanctioned_main_tokens].
Qed.

End Sanctioned.

(** X22. What a run does to the outside is bounded.  Every file it writes is
    the cache file, with mode [0o600]; every HTTP request it sends is a POST
    with a JSON content type to the sign-in endpoint of
    [identitytoolkit.googleapis.com], over https, the query starting with
    [key=]. *)
Theorem run_writes_and_requests (w : world) :
  (forall p content mode,
      In (WriteFileSync p content mode) (st_trace (snd (run w))) ->
      p = CACHE_FILE w /\ mode = 384%N)
  /\ (forall url method headers body,
         In (Fetch url method headers body) (st_trace (snd (run w))) ->
         prefix "https://identitytoolkit.googleapis.com/v1/accounts:signInWithCustomToken?key=" url
         = true
         /\ method = "POST"
         /\ headers = [("Content-Type", "application/json")]).
Proof.
  destruct (sanctioned_main w (initial_state w)) as [evs [E F]].
  fold (run w) in E. cbn [initial_state st_trace app] in E. rewrite E.
  rewrite Forall_forall in F.
  split; [intros p content mode Hin | intros url method headers body Hin];
    exact (F _ Hin).
Qed.

(** ** A run without any service account: lines 213-241 *)

(** Lines 214-233, when [.firebase] is not a directory: the path prompt. *)
Lemma main_resolve_serviceAccount_no_directory w sa st :
  truthy sa = false ->
  (forall names, st_fs st (path_resolve w ".firebase") <> Some (Dir names)) ->
  exists evs st',
    main_resolve_serviceAccount w sa st
    = (Ret (if truthy (VStr (trim (answers w (st_asked st))))
            then VStr (trim (answers w (st_asked st))) else sa), st')
    /\ st_trace st' = (st_trace st ++ evs)%list /\ Forall local evs
    /\ st_fs st' = st_fs st /\ st_apps st' = st_apps st.
Proof.
  intros Hsa Hdir. unfold main_resolve_serviceAccount. rewrite Hsa. cbn [negb]. cbv zeta.
  rewrite (bind_eq _ _ _ _ _ (existsSync_eq _ st)).
  unfold statSync_isDirectory, with_trace. run_monad.
  destruct (st_fs st (path_resolve w ".firebase")) as [[c | names] |] eqn:E; cbn; rewrite ?E; cbn;
    [| now destruct (Hdir names) |];
    rewrite prompt_eq; cbn [st_asked st_fs st_trace st_apps st_projectId];
    (destruct (trim (answers w (st_asked st)) =? "")%string; cbn [negb];
     eexists; eexists; (split; [reflexivity |]); cbn [st_trace st_fs st_apps];
     rewrite <- ?List.app_assoc; (split; [reflexivity |]);
     (split; [repeat constructor | auto])).
Qed.

(** X23. With a uid and a key at hand but no service account anywhere (no
    flag, no variable, no [.firebase] directory, a blank answer to the path
    prompt), the run ends with code 2 after printing how to provide one.  All
    it has done before is console output and file reads: the SDK is never
    called. *)
Theorem no_service_account_exits_2 (w : world) (chunks : list string) :
  truthy (argv_uid w) = true ->
  truthy (js_or (argv_apiKey w) (env w "FIREBASE_API_KEY")) = true ->
  truthy (argv_serviceAccount w) = false ->
  truthy (env w "GOOGLE_APPLICATION_CREDENTIALS") = false ->
  (forall names, disk w (path_resolve w ".firebase") <> Some (Dir names)) ->
  Forall (fun c => In c white_space_code_points) chunks ->
  answers w 0 = concat EmptyString chunks ->
  exists before,
    fst (run w) = Exit 2
    /\ st_trace (snd (run w))
       = (before
          ++ [LogError ["Failed to initialize Firebase Admin:";
                        "No service account provided. Pass --serviceAccount or set GOOGLE_APPLICATION_CREDENTIALS env var, or put a service account JSON into .firebase/"]])%list
    /\ Forall local before.
Proof.
  intros Hu Hk Hs He Hd Hws Ha. unfold run, main.
  assert (Hf : truthy (js_or (argv_serviceAccount w)
                         (env w "GOOGLE_APPLICATION_CREDENTIALS")) = false)
    by (now rewrite truthy_js_or, Hs, He).
  assert (Hin : exists st3 evs,
             main_inputs w (initial_state w)
             = (Ret (argv_uid w,
                     js_or (argv_serviceAccount w) (env w "GOOGLE_APPLICATION_CREDENTIALS"),
                     js_or (argv_apiKey w) (env w "FIREBASE_API_KEY")), st3)
             /\ st_trace st3 = evs /\ Forall local evs
             /\ st_fs st3 = disk w /\ st_apps st3 = 0).
  { unfold main_inputs. cbv zeta.
    rewrite (bind_eq _ _ _ _ _
               (main_load_cache_flag w _ _ _ (initial_state w) ltac:(
                  rewrite !truthy_js_or, Hu; reflexivity))).
    cbv beta iota.
    destruct (keeps_readCache w (initial_state w)) as [Hfs1 Hap1].
    destruct (emits_readCache w (initial_state w)) as [evs1 [Ht1 Hl1]].
    assert (Hq1 : st_asked (snd (readCache w (initial_state w))) = 0)
      by (now rewrite readCache_eq).
    set (st1 := snd (readCache w (initial_state w))) in *.
    rewrite (bind_eq _ _ _ _ _ (main_resolve_uid_flag w _ st1 Hu)).
    assert (Ek : main_resolve_apiKey w (js_or (argv_apiKey w) (env w "FIREBASE_API_KEY")) st1
                 = (Ret (js_or (argv_apiKey w) (env w "FIREBASE_API_KEY")), st1))
      by (unfold main_resolve_apiKey; now rewrite Hk).
    rewrite (bind_eq _ _ _ _ _ Ek).
    destruct (main_resolve_serviceAccount_no_directory w
                (js_or (argv_serviceAccount w) (env w "GOOGLE_APPLICATION_CREDENTIALS")) st1 Hf)
      as [evs2 [st3 [E3 [Ht3 [Hl3 [Hfs3 Hap3]]]]]].
    { intros names. rewrite Hfs1. apply Hd. }
    rewrite Hq1, Ha, (trim_blank chunks Hws) in E3. cbn [truthy String.eqb negb] in E3.
    rewrite (bind_eq _ _ _ _ _ E3).
    exists st3, (evs1 ++ evs2)%list. split; [reflexivity |].
    split; [rewrite Ht3, Ht1; reflexivity |].
    split; [now apply Forall_app |].
    split; [now rewrite Hfs3, Hfs1 | now rewrite Hap3, Hap1]. }
  destruct Hin as [st3 [evs [Ein [Ht [Hl [Hfs Hap]]]]]].
  rewrite (bind_eq _ _ _ _ _ Ein). cbv beta iota.
  assert (Einit : initAdmin w (js_or (argv_serviceAccount w)
                                 (env w "GOOGLE_APPLICATION_CREDENTIALS")) st3
                  = (Throw no_service_account_provided,
                     with_trace st3
                       (ExistsSync (path_resolve w ".firebase")
                        :: match st_fs st3 (path_resolve w ".firebase") with
                           | Some _ => [StatSync (path_resolve w ".firebase")]
                           | None => []
                           end))).
  { rewrite (initAdmin_fresh w _ st3 Hap). apply bind_throw.
    apply initAdmin_credential_no_directory; [exact Hf | exact He |].
    intros names. rewrite Hfs. apply Hd. }
  unfold main_init. rewrite (bind_exit _ _ _ 2%Z
    (with_trace st3
       ((ExistsSync (path_resolve w ".firebase")
         :: match st_fs st3 (path_resolve w ".firebase") with
            | Some _ => [StatSync (path_resolve w ".firebase")]
            | None => []
            end)
        ++ [LogError ["Failed to initialize Firebase Admin:";
                      err_message no_service_account_provided]]))).
  - cbn [fst snd with_trace st_trace]. rewrite Ht.
    eexists. split; [reflexivity |]. rewrite List.app_assoc. split; [reflexivity |].
    apply Forall_app. split; [exact Hl |].
    destruct (st_fs st3 (path_resolve w ".firebase")); repeat constructor.
  - rewrite (try_catch_throw _ _ _ _ _ Einit). unfold console_error.
    rewrite (bind_eq _ _ _ _ _ (emit_eq _ _)). now rewrite with_trace_app.
Qed.

Lemma no_service_account_exits_2_witness :
  exists before,
    fst (run plain_world) = Exit 2
    /\ st_trace (snd (run plain_world))
       = (before
          ++ [LogError ["Failed to initialize Firebase Admin:";
                        "No service account provided. Pass --serviceAccount or set GOOGLE_APPLICATION_CREDENTIALS env var, or put a service account JSON into .firebase/"]])%list
    /\ Forall local before.
Proof.
  apply (no_service_account_exits_2 plain_world []).
  - reflexivity.
  - reflexivity.
  - reflexivity.
  - reflexivity.
  - intros names. vm_compute. discriminate.
  - constructor.
  - reflexivity.
Defined.

(** ** The whole run, when everything is given and everything works *)

(** Lines 105-109 and 143-147 on a JSON file that exists and that the SDK
    accepts. *)
Lemma initAdmin_explicit_ok w p st text sa :
  p <> EmptyString -> st_apps st = 0 ->
  st_fs st (path_resolve w p) = Some (File text) ->
  read_denied w (path_resolve w p) = false ->
  json_extension (path_basename w (path_resolve w p)) = true ->
  json_parse (stripBOM text) = Some sa ->
  credential_cert w sa = None ->
  initializeApp w (mk_options (Cert sa) (projectId_option w (st_projectId st))) = None ->
  initAdmin w (VStr p) st
  = (Ret tt,
     mk_state (st_fs st)
       (st_trace st
        ++ [ExistsSync (path_resolve w p); Require (path_resolve w p); CredentialCert sa;
            InitializeApp (mk_options (Cert sa) (projectId_option w (st_projectId st)))])
       (st_asked st) 1 (st_projectId st)).
Proof.
  intros Hp Happs Hfile Hread Hjson Hparse Hcert Hinit. apply truthy_VStr in Hp.
  rewrite (initAdmin_fresh w _ st Happs).
  assert (Ec : initAdmin_credential w (VStr p) st
               = (Ret (Cert sa),
                  with_trace st [ExistsSync (path_resolve w p); Require (path_resolve w p);
                                 CredentialCert sa])).
  { unfold initAdmin_credential, path_resolve_value, existsSync, require,
      admin_credential_cert, lift_check, with_trace.
    rewrite Hp. run_monad. rewrite Hfile. cbn. rewrite Hfile, Hread, Hjson, Hparse. cbn.
    rewrite Hcert. cbn. rewrite <- !List.app_assoc. reflexivity. }
  rewrite (bind_eq _ _ _ _ _ Ec). unfold get_projectId.
  match goal with
  | |- bind ?m ?k ?s = _ =>
      assert (Eg : m s = (Ret (st_projectId st), s)) by reflexivity;
      rewrite (bind_eq _ _ _ _ _ Eg)
  end.
  rewrite projectId_option_eq, admin_initializeApp_eq, Hinit.
  cbn [with_trace st_fs st_trace st_asked st_apps st_projectId].
  now rewrite Happs, <- List.app_assoc.
Qed.

(** X24. The whole run.  With the uid, the path and the key on the command
    line, a service-account file that exists, has the extension [.json],
    parses and is accepted by the SDK, a minting call that returns a token
    and an endpoint that answers with a success status and a JSON body in
    plain text (ASCII strings and names, safe integers), the run returns
    normally, and what it has done is exactly this, in this order: read the
    cache (without offering it), checked and loaded the file, built the
    credential, initialised the SDK, minted the token, printed it, sent the
    exchange request, printed the answer and written the setup to the cache
    file. *)
Theorem run_succeeds (w : world) (u p k text tok : string) (sa data : value) (res : response) :
  argv_uid w = VStr u -> u <> EmptyString ->
  argv_serviceAccount w = VStr p -> p <> EmptyString ->
  argv_apiKey w = VStr k -> k <> EmptyString ->
  disk w (path_resolve w p) = Some (File text) ->
  read_denied w (path_resolve w p) = false ->
  json_extension (path_basename w (path_resolve w p)) = true ->
  json_parse (stripBOM text) = Some sa ->
  credential_cert w sa = None ->
  initializeApp w (mk_options (Cert sa) (projectId_option w (argv_projectId w))) = None ->
  auth_createCustomToken w (VStr u) = inl tok ->
  import_node_fetch w = None ->
  node_fetch w (exchange_url (VStr k)) (exchange_body tok) = inl res ->
  res_ok res = true ->
  json_parse (res_body res) = Some data ->
  plain_json data = true ->
  fst (run w) = Ret tt
  /\ st_trace (snd (run w))
     = (ExistsSync (CACHE_FILE w)
        :: match disk w (CACHE_FILE w) with
           | Some _ => [ReadFileSync (CACHE_FILE w)]
           | None => []
           end
        ++ [ExistsSync (path_resolve w p); Require (path_resolve w p); CredentialCert sa;
            InitializeApp (mk_options (Cert sa) (projectId_option w (argv_projectId w)));
            CreateCustomToken (VStr u);
            Log [(String esc "[32m" ++ nl ++ "Custom token created:" ++ String esc "[0m")%string;
                 (String esc "[2m" ++ tok ++ String esc "[0m")%string];
            ImportFetch;
            exchange_request (VStr k) tok;
            Log [(String esc "[32m" ++ nl ++ "Exchanged token result:"
                  ++ String esc "[0m")%string];
            Log [(String esc "[33m" ++ to_string (stringify_pretty "" data)
                  ++ String esc "[0m")%string];
            WriteFileSync (CACHE_FILE w)
              (cache_text (saved_setup w (VStr u) (VStr p) (VStr k) (argv_projectId w)))
              384])%list.
Proof.
  intros Hu Hu' Hs Hs' Hk Hk' Hfile Hread Hjson Hparse Hcert Hinit Hmint Himp Hnet Hok Hbody _.
  apply truthy_VStr in Hu'. pose proof Hs' as Hs''. apply truthy_VStr in Hs''.
  apply truthy_VStr in Hk'.
  unfold run, main.
  assert (Ein : main_inputs w (initial_state w)
                = (Ret (VStr u, VStr p, VStr k), snd (readCache w (initial_state w)))).
  { unfold main_inputs. cbv zeta.
    rewrite (bind_eq _ _ _ _ _
               (main_load_cache_flag w _ _ _ (initial_state w) ltac:(
                  rewrite !truthy_js_or, Hu, Hu'; reflexivity))).
    cbv beta iota. rewrite Hu, Hs, Hk.
    rewrite (js_or_truthy (VStr p)), (js_or_truthy (VStr k)) by assumption.
    rewrite (bind_eq _ _ _ _ _ (main_resolve_uid_flag w _ _ Hu')).
    rewrite (bind_eq _ _ _ _ _ (main_resolve_apiKey_given w _ _ Hk')).
    now rewrite (bind_eq _ _ _ _ _ (main_resolve_serviceAccount_given w _ _ Hs'')). }
  rewrite (bind_eq _ _ _ _ _ Ein). cbv beta iota.
  rewrite readCache_eq. cbn [snd initial_state st_fs st_trace st_asked st_apps st_projectId app].
  set (st1 := mk_state (disk w)
                (ExistsSync (CACHE_FILE w)
                 :: match disk w (CACHE_FILE w) with
                    | Some _ => [ReadFileSync (CACHE_FILE w)]
                    | None => []
                    end) 0 0 (argv_projectId w)).
  unfold main_init.
  rewrite (bind_eq _ _ _ _ _
             (try_catch_ret _ _ _ _ _
                (initAdmin_explicit_ok w p st1 text sa Hs' eq_refl Hfile Hread Hjson Hparse
                   Hcert Hinit))).
  subst st1.
  cbn [st_fs st_trace st_asked st_apps st_projectId].
  rewrite main_tokens_eq, Hmint, exchange_eq, Hk', Himp, Hnet, Hbody, Hok. cbn [negb].
  cbn [with_trace st_fs st_trace st_asked st_apps st_projectId].
  split.
  - apply writeCache_returns.
  - rewrite writeCache_trace by apply saved_setup_nodup.
    unfold with_trace. cbn [st_trace]. rewrite <- !List.app_assoc. cbn [app].
    rewrite token_line_text, result_lines_text. reflexivity.
Qed.

Lemma run_succeeds_witness :
  fst (run projectId_flag_world) = Ret tt
  /\ st_trace (snd (run projectId_flag_world))
     = [ExistsSync "/work/.token-helper-cache";
        ExistsSync "/work/sa.json"; Require "/work/sa.json";
        CredentialCert service_account_value;
        InitializeApp (mk_options (Cert service_account_value) (VStr "flag-project"));
        CreateCustomToken (VStr "u1");
        Log [(String esc "[32m" ++ nl ++ "Custom token created:" ++ String esc "[0m")%string;
             (String esc "[2m" ++ "CUSTOM.TOKEN" ++ String esc "[0m")%string];
        ImportFetch;
        exchange_request (VStr "k1") "CUSTOM.TOKEN";
        Log [(String esc "[32m" ++ nl ++ "Exchanged token result:" ++ String esc "[0m")%string];
        Log [(String esc "[33m"
              ++ "{" ++ nl
              ++ "  " ++ q "idToken" ++ ": " ++ q "ID" ++ "," ++ nl
              ++ "  " ++ q "refreshToken" ++ ": " ++ q "RT" ++ "," ++ nl
              ++ "  " ++ q "expiresIn" ++ ": " ++ q "3600" ++ "," ++ nl
              ++ "  " ++ q "localId" ++ ": " ++ q "u1" ++ nl
              ++ "}" ++ String esc "[0m")%string];
        WriteFileSync "/work/.token-helper-cache"
          (cache_text (saved_setup projectId_flag_world (VStr "u1") (VStr "/work/sa.json")
                         (VStr "k1") (VStr "flag-project"))) 384].
Proof.
  apply (run_succeeds projectId_flag_world "u1" "/work/sa.json" "k1" service_account_json
           "CUSTOM.TOKEN" service_account_value
           (VObj [("idToken", VStr "ID"); ("refreshToken", VStr "RT");
                  ("expiresIn", VStr "3600"); ("localId", VStr "u1")])
           ok_response).
  - reflexivity.
  - discriminate.
  - reflexivity.
  - discriminate.
  - reflexivity.
  - discriminate.
  - reflexivity.
  - reflexivity.
  - vm_compute. reflexivity.
  - vm_compute. reflexivity.
  - reflexivity.
  - reflexivity.
  - reflexivity.
  - reflexivity.
  - reflexivity.
  - reflexivity.
  - vm_compute. reflexivity.
  - vm_compute. reflexivity.
Defined.

(** ** Flags and the saved setup: lines 186-188 *)

(** X25. Any flag on the command line turns the saved setup off.  With
    [--uid], [--serviceAccount], [--apiKey] or [--projectId] given, the cache
    file is still read but never offered: no question is asked, the inputs
    come out as they went in, even those that are missing and that the saved
    setup could fill, and [argv.projectId] is not touched. *)
Theorem flags_disable_saved_setup (w : world) (uid serviceAccount apiKey : value)
    (st : state) :
  truthy (argv_uid w) = true \/ truthy (argv_serviceAccount w) = true
  \/ truthy (argv_apiKey w) = true \/ truthy (st_projectId st) = true ->
  fst (main_load_cache w uid serviceAccount apiKey st) = Ret (uid, serviceAccount, apiKey)
  /\ st_asked (snd (main_load_cache w uid serviceAccount apiKey st)) = st_asked st
  /\ st_projectId (snd (main_load_cache w uid serviceAccount apiKey st)) = st_projectId st
  /\ Forall (fun e => e = ExistsSync (CACHE_FILE w) \/ e = ReadFileSync (CACHE_FILE w))
       (skipn (List.length (st_trace st))
          (st_trace (snd (main_load_cache w uid serviceAccount apiKey st)))).
Proof.
  intros H.
  assert (Hf : truthy (js_or (js_or (js_or (argv_uid w) (argv_serviceAccount w))
                                (argv_apiKey w)) (st_projectId st)) = true).
  { rewrite !truthy_js_or.
    destruct H as [-> | [-> | [-> | ->]]]; now rewrite ?orb_true_r. }
  rewrite (main_load_cache_flag w uid serviceAccount apiKey st Hf), readCache_eq.
  cbn [fst snd st_asked st_projectId st_trace].
  split; [reflexivity |]. split; [reflexivity |]. split; [reflexivity |].
  rewrite skipn_app, skipn_all, Nat.sub_diag. cbn [app skipn].
  destruct (st_fs st (CACHE_FILE w)); repeat (apply Forall_cons || apply Forall_nil); auto.
Qed.

Lemma flags_disable_saved_setup_witness :
  fst (main_load_cache cache_and_flag_world (VStr "u1") VUndefined VUndefined
         (initial_state cache_and_flag_world))
  = Ret (VStr "u1", VUndefined, VUndefined)
  /\ st_asked (snd (main_load_cache cache_and_flag_world (VStr "u1") VUndefined VUndefined
                      (initial_state cache_and_flag_world)))
     = st_asked (initial_state cache_and_flag_world)
  /\ st_projectId (snd (main_load_cache cache_and_flag_world (VStr "u1") VUndefined VUndefined
                          (initial_state cache_and_flag_world)))
     = st_projectId (initial_state cache_and_flag_world)
  /\ Forall (fun e => e = ExistsSync (CACHE_FILE cache_and_flag_world)
                      \/ e = ReadFileSync (CACHE_FILE cache_and_flag_world))
       (skipn (List.length (st_trace (initial_state cache_and_flag_world)))
          (st_trace (snd (main_load_cache cache_and_flag_world (VStr "u1") VUndefined VUndefined
                            (initial_state cache_and_flag_world))))).
Proof.
  apply (flags_disable_saved_setup cache_and_flag_world (VStr "u1") VUndefined VUndefined
           (initial_state cache_and_flag_world)).
  left. reflexivity.
Defined.

(** ** The cache is a conservative addition *)

Section Oblivious.

Context {A B : Type}.

Lemma oblivious_ret (a : A) : oblivious (ret a).
Proof. intros pre st. reflexivity. Qed.

Lemma oblivious_throw (e : error) : oblivious (@throw A e).
Proof. intros pre st. reflexivity. Qed.

Lemma oblivious_exit (c : Z) : oblivious (@process_exit A c).
Proof. intros pre st. reflexivity. Qed.

Lemma oblivious_bind (m : M A) (k : A -> M B) :
  oblivious m -> (forall a, oblivious (k a)) -> oblivious (bind m k).
Proof.
  intros Hm Hk pre st. unfold bind. rewrite (Hm pre st).
  destruct (m st) as [[a | e | c] st1]; cbn [fst snd]; [apply Hk | reflexivity | reflexivity].
Qed.

Lemma oblivious_try_catch (m : M A) (h : error -> M A) :
  oblivious m -> (forall e, oblivious (h e)) -> oblivious (try_catch m h).
Proof.
  intros Hm Hh pre st. unfold try_catch. rewrite (Hm pre st).
  destruct (m st) as [[a | e | c] st1]; cbn [fst snd]; [reflexivity | apply Hh | reflexivity].
Qed.

End Oblivious.

Lemma oblivious_emit (e : event) : oblivious (emit e).
Proof.
  intros pre st. unfold emit, prepend. cbn [fst snd st_fs st_trace st_asked st_apps st_projectId].
  now rewrite List.app_assoc.
Qed.

(** One layer of a monadic definition. *)
Ltac oblivious_step :=
  lazymatch goal with
  | |- oblivious (ret _) => apply oblivious_ret
  | |- oblivious (throw _) => apply oblivious_throw
  | |- oblivious (process_exit _) => apply oblivious_exit
  | |- oblivious (emit _) => apply oblivious_emit
  | |- oblivious (bind _ _) => apply oblivious_bind; [| intros ?]
  | |- oblivious (try_catch _ _) => apply oblivious_try_catch; [| intros ?]
  | |- oblivious (if ?b then _ else _) => destruct b
  | |- oblivious (match ?x with _ => _ end) => destruct x
  end.

(** A step that reads the disk, the counters or [argv.projectId]. *)
Ltac oblivious_leaf :=
  let pre := fresh "pre" in
  let st := fresh "st" in
  intros pre st; unfold prepend;
  cbn [fst snd st_fs st_trace st_asked st_apps st_projectId];
  repeat match goal with
         | |- context [match ?x with _ => _ end] => destruct x
         end;
  reflexivity.

Section ObliviousProgram.

Variable w : world.

Lemma oblivious_existsSync p : oblivious (existsSync p).
Proof. unfold existsSync. repeat oblivious_step. oblivious_leaf. Qed.

Lemma oblivious_statSync p : oblivious (statSync_isDirectory p).
Proof. unfold statSync_isDirectory. repeat oblivious_step. oblivious_leaf. Qed.

Lemma oblivious_readdirSync p : oblivious (readdirSync w p).
Proof. unfold readdirSync. repeat oblivious_step. oblivious_leaf. Qed.

Lemma oblivious_readFileSync p : oblivious (readFileSync w p).
Proof. unfold readFileSync. repeat oblivious_step. oblivious_leaf. Qed.

Lemma oblivious_require p : oblivious (require w p).
Proof. unfold require, lift_sum. repeat oblivious_step. oblivious_leaf. Qed.

Lemma oblivious_question text : oblivious (question w text).
Proof. unfold question. repeat oblivious_step. oblivious_leaf. Qed.

Lemma oblivious_prompt q : oblivious (prompt w q).
Proof. unfold prompt. repeat (apply oblivious_question || oblivious_step). Qed.

Lemma oblivious_looks_like full : oblivious (looks_like_service_account w full).
Proof.
  unfold looks_like_service_account. repeat (apply oblivious_readFileSync || oblivious_step).
Qed.

Lemma oblivious_pick dir files : oblivious (pick_service_account w dir files).
Proof.
  induction files as [| f files IH]; cbn [pick_service_account];
    repeat (apply oblivious_looks_like || apply IH || oblivious_step).
Qed.

Lemma oblivious_main_resolve_uid u : oblivious (main_resolve_uid w u).
Proof.
  unfold main_resolve_uid, console_error. repeat (apply oblivious_prompt || oblivious_step).
Qed.

Lemma oblivious_main_resolve_apiKey a : oblivious (main_resolve_apiKey w a).
Proof. unfold main_resolve_apiKey. repeat (apply oblivious_prompt || oblivious_step). Qed.

Lemma oblivious_main_resolve_serviceAccount s : oblivious (main_resolve_serviceAccount w s).
Proof.
  unfold main_resolve_serviceAccount, console_log. cbv zeta.
  repeat (apply oblivious_prompt || apply oblivious_existsSync || apply oblivious_statSync
          || apply oblivious_readdirSync || apply oblivious_pick || oblivious_step).
Qed.

Lemma oblivious_initAdmin s : oblivious (initAdmin w s).
Proof.
  unfold initAdmin, initAdmin_credential, path_resolve_value, admin_credential_cert,
    admin_credential_applicationDefault, admin_initializeApp, get_apps, get_projectId,
    lift_check.
  cbv zeta.
  repeat (apply oblivious_existsSync || apply oblivious_statSync
          || apply oblivious_readdirSync || apply oblivious_require || apply oblivious_pick
          || oblivious_step);
    oblivious_leaf.
Qed.

Lemma oblivious_main_init s : oblivious (main_init w s).
Proof.
  unfold main_init, console_error. repeat (apply oblivious_initAdmin || oblivious_step).
Qed.

Lemma oblivious_exchange tok a : oblivious (exchangeCustomTokenForIdToken w tok a).
Proof.
  unfold exchangeCustomTokenForIdToken, loadFetch, res_json, lift_sum, lift_check. cbv zeta.
  repeat oblivious_step.
Qed.

Lemma oblivious_main_inputs : oblivious (WithoutCache.main_inputs w).
Proof.
  unfold WithoutCache.main_inputs. cbv zeta.
  repeat (apply oblivious_main_resolve_uid || apply oblivious_main_resolve_apiKey
          || apply oblivious_main_resolve_serviceAccount || oblivious_step).
Qed.

Lemma oblivious_main_tokens u a : oblivious (WithoutCache.main_tokens w u a).
Proof.
  unfold WithoutCache.main_tokens, createCustomToken, console_log, console_error, lift_sum.
  repeat (apply oblivious_exchange || oblivious_step).
Qed.

Lemma oblivious_main : oblivious (WithoutCache.main w).
Proof.
  unfold WithoutCache.main.
  apply oblivious_bind; [apply oblivious_main_inputs |]. intros [[u s] a].
  apply oblivious_bind; [apply oblivious_main_init | intros _; apply oblivious_main_tokens].
Qed.

End ObliviousProgram.

Lemma try_catch_bind_ret {A B} (m : M A) (k : A -> M B) h st a st' :
  m st = (Ret a, st') -> try_catch (bind m k) h st = try_catch (k a) h st'.
Proof. intros H. unfold try_catch, bind. now rewrite H. Qed.

Lemma main_tokens_plain_eq w uid apiKey st :
  WithoutCache.main_tokens w uid apiKey st
  = match auth_createCustomToken w uid with
    | inr e => (Exit 3, with_trace st [CreateCustomToken uid; error_line (error_text e)])
    | inl tok =>
        match exchangeCustomTokenForIdToken w tok apiKey
                (with_trace st [CreateCustomToken uid; token_line tok]) with
        | (Ret data, st1) => (Ret tt, with_trace st1 (result_lines data))
        | (Throw err, st1) => (Exit 3, with_trace st1 [error_line (error_text err)])
        | (Exit c, st1) => (Exit c, st1)
        end
    end.
Proof.
  unfold WithoutCache.main_tokens.
  destruct (auth_createCustomToken w uid) as [tok | e] eqn:Hm.
  - rewrite (try_catch_bind_ret _ _ _ _ _ _ (createCustomToken_ok w uid st tok Hm)).
    unfold console_log.
    rewrite (try_catch_bind_ret _ _ _ _ _ _ (emit_eq _ _)).
    rewrite with_trace_app. cbn [app]. fold (token_line tok).
    destruct (exchangeCustomTokenForIdToken w tok apiKey
                (with_trace st [CreateCustomToken uid; token_line tok]))
      as [[data | err | c] st1] eqn:Hx.
    + rewrite (try_catch_bind_ret _ _ _ _ _ _ Hx).
      unfold try_catch, bind, emit, with_trace, result_lines. cbn.
      now rewrite <- List.app_assoc.
    + rewrite (try_catch_throw _ _ _ _ _ (bind_throw _ _ _ _ _ Hx)).
      unfold console_error. now rewrite (bind_eq _ _ _ _ _ (emit_eq _ _)).
    + now rewrite (try_catch_exit _ _ _ _ _ (bind_exit _ _ _ _ _ Hx)).
  - unfold createCustomToken, with_trace, error_line. run_monad. rewrite Hm. cbn.
    rewrite <- List.app_assoc. reflexivity.
Qed.

Lemma bind_cong_k {A B} (m : M A) (k k' : A -> M B) st :
  (forall a st', k a st' = k' a st') -> bind m k st = bind m k' st.
Proof. intros H. unfold bind. destruct (m st) as [[a | e | c] st1]; auto. Qed.

Lemma writeCache_attempt w obj st :
  exists content,
    st_trace (snd (writeCache w obj st))
    = (st_trace st ++ [WriteFileSync (CACHE_FILE w) content 384])%list.
Proof.
  unfold writeCache, encodeSafe, writeFileSync. cbn [stringify]. run_monad.
  destruct (st_fs st (CACHE_FILE w)) as [[c | names] |]; cbn;
    try (destruct (write_denied w (CACHE_FILE w)); cbn); eexists; reflexivity.
Qed.

(** The minting and exchange step with the cache is the earlier one,
    followed on success by the write of the cache. *)
Lemma main_tokens_adds_write w uid serviceAccount apiKey st :
  main_tokens w uid serviceAccount apiKey st
  = match WithoutCache.main_tokens w uid apiKey st with
    | (Ret _, st1) =>
        writeCache w (VObj (saved_setup w uid serviceAccount apiKey (st_projectId st))) st1
    | r => r
    end.
Proof.
  rewrite main_tokens_eq, main_tokens_plain_eq.
  destruct (auth_createCustomToken w uid) as [tok | e]; [| reflexivity].
  destruct (exchange_appends w tok apiKey (with_trace st [CreateCustomToken uid; token_line tok]))
    as [evs Hx].
  destruct (exchangeCustomTokenForIdToken w tok apiKey _) as [[data | err | c] st1];
    cbn [snd] in Hx; subst st1; reflexivity.
Qed.

(** When the cache step lets the inputs through, what follows is the
    earlier program, run after the events of the cache read. *)
Lemma main_load_cache_skipped w uid serviceAccount apiKey st :
  truthy (js_or (js_or (js_or (argv_uid w) (argv_serviceAccount w)) (argv_apiKey w))
            (st_projectId st)) = true
  \/ fst (readCache w st) = Ret VNull ->
  main_load_cache w uid serviceAccount apiKey st
  = (Ret (uid, serviceAccount, apiKey), snd (readCache w st)).
Proof.
  intros [H | H]; [now apply main_load_cache_flag |].
  unfold main_load_cache.
  destruct (readCache w st) as [r st1] eqn:E. cbn [fst snd] in *. subst r.
  now rewrite (bind_eq _ _ _ _ _ E).
Qed.

(** X26. The cache is a conservative addition to the earlier program.  When
    a flag is given, or the cache reads as absent (no file, an unreadable,
    blank or corrupt one), a run of the program with the cache ends as the run
    of the earlier program ends, and does what it does, in the same order,
    with two additions: the read of the cache file at the start and, when the
    run succeeds, the write of the cache file at the end. *)
Theorem cache_is_conservative (w : world) :
  truthy (js_or (js_or (js_or (argv_uid w) (argv_serviceAccount w)) (argv_apiKey w))
            (argv_projectId w)) = true
  \/ fst (readCache w (initial_state w)) = Ret VNull ->
  fst (run w) = fst (WithoutCache.run w)
  /\ exists tail,
       st_trace (snd (run w))
       = (st_trace (snd (readCache w (initial_state w)))
          ++ st_trace (snd (WithoutCache.run w)) ++ tail)%list
       /\ ((fst (run w) = Ret tt /\ exists content, tail = [WriteFileSync (CACHE_FILE w) content 384])
           \/ (fst (run w) <> Ret tt /\ tail = [])).
Proof.
  intros H.
  set (pre := st_trace (snd (readCache w (initial_state w)))).
  assert (Est : snd (readCache w (initial_state w)) = prepend pre (initial_state w)).
  { unfold pre. rewrite readCache_eq. unfold prepend.
    cbn [snd initial_state st_fs st_trace st_asked st_apps st_projectId app].
    now rewrite List.app_nil_r. }
  assert (Erun : run w
                 = bind (WithoutCache.main_inputs w)
                     (fun inputs =>
                        let '(u, s, a) := inputs in
                        bind (main_init w s) (fun _ => main_tokens w u s a))
                     (prepend pre (initial_state w))).
  { unfold run, main, main_inputs. cbv zeta. rewrite bind_assoc.
    rewrite (bind_eq _ _ _ _ _ (main_load_cache_skipped w _ _ _ (initial_state w) H)).
    rewrite Est. cbv beta iota. unfold WithoutCache.main_inputs. cbv zeta.
    rewrite !bind_assoc. apply bind_cong_k. intros u st1. rewrite !bind_assoc.
    apply bind_cong_k. intros a st2. rewrite !bind_assoc.
    apply bind_cong_k. intros s st3. reflexivity. }
  rewrite Erun. unfold WithoutCache.run, WithoutCache.main, bind.
  rewrite (oblivious_main_inputs w pre (initial_state w)).
  destruct (WithoutCache.main_inputs w (initial_state w)) as [[[[u s] a] | e | c] st1];
    cbn [fst snd];
    try (split; [reflexivity |]; exists []; rewrite List.app_nil_r;
         split; [reflexivity | right; split; [discriminate | reflexivity]]).
  rewrite (oblivious_main_init w s pre st1).
  destruct (main_init w s st1) as [[[] | e | c] st2]; cbn [fst snd];
    try (split; [reflexivity |]; exists []; rewrite List.app_nil_r;
         split; [reflexivity | right; split; [discriminate | reflexivity]]).
  rewrite main_tokens_adds_write, (oblivious_main_tokens w u a pre st2).
  destruct (WithoutCache.main_tokens w u a st2) as [[[] | e | c] st3]; cbn [fst snd];
    try (split; [reflexivity |]; exists []; rewrite List.app_nil_r;
         split; [reflexivity | right; split; [discriminate | reflexivity]]).
  pose proof (writeCache_returns w
                (VObj (saved_setup w u s a (st_projectId (prepend pre st2))))
                (prepend pre st3)) as Hr.
  destruct (writeCache_attempt w
              (VObj (saved_setup w u s a (st_projectId (prepend pre st2))))
              (prepend pre st3)) as [content Ht].
  destruct (writeCache w _ (prepend pre st3)) as [r st4]. cbn [fst snd] in *. subst r.
  split; [reflexivity |]. exists [WriteFileSync (CACHE_FILE w) content 384].
  split; [rewrite Ht; unfold prepend; cbn [st_trace]; now rewrite <- List.app_assoc |].
  left. split; [reflexivity |]. now exists content.
Qed.

Lemma cache_is_conservative_witness :
  fst (run env_credentials_world) = fst (WithoutCache.run env_credentials_world)
  /\ exists tail,
       st_trace (snd (run env_credentials_world))
       = (st_trace (snd (readCache env_credentials_world (initial_state env_credentials_world)))
          ++ st_trace (snd (WithoutCache.run env_credentials_world)) ++ tail)%list
       /\ ((fst (run env_credentials_world) = Ret tt
            /\ exists content,
                 tail = [WriteFileSync (CACHE_FILE env_credentials_world) content 384])
           \/ (fst (run env_credentials_world) <> Ret tt /\ tail = [])).
Proof.
  apply (cache_is_conservative env_credentials_world). left. reflexivity.
Defined.

(** ** The earlier program and the disk *)

Section ReadOnly.

Variable w : world.

Lemma local_not_write e : local e -> is_write e = false.
Proof. unfold local. destruct e; cbn; intros H; try discriminate H; reflexivity. Qed.

Lemma credential_not_write e : credential_step e = true -> is_write e = false.
Proof. destruct e; cbn; intros H; try discriminate H; reflexivity. Qed.

Lemma read_only_main_init s : emits (fun e => is_write e = false) (main_init w s).
Proof.
  unfold main_init, initAdmin, console_error, get_apps, get_projectId, admin_initializeApp,
    lift_check.
  repeat (apply (emits_weaken _ _ _ credential_not_write
                   (logs_emits _ _ (logs_initAdmin_credential w s)))
          || frame_step);
    try reflexivity; frame_raw.
Qed.

Lemma read_only_main_tokens u a : emits (fun e => is_write e = false) (WithoutCache.main_tokens w u a).
Proof.
  unfold WithoutCache.main_tokens, createCustomToken, exchangeCustomTokenForIdToken, loadFetch,
    res_json, console_log, console_error, lift_sum, lift_check.
  cbv zeta. repeat frame_step; reflexivity.
Qed.

Lemma read_only_main_inputs : emits (fun e => is_write e = false) (WithoutCache.main_inputs w).
Proof.
  unfold WithoutCache.main_inputs. cbv zeta.
  repeat (apply (emits_weaken _ _ _ local_not_write (emits_main_resolve_uid w _))
          || apply (emits_weaken _ _ _ local_not_write (emits_main_resolve_apiKey w _))
          || apply (emits_weaken _ _ _ local_not_write (emits_main_resolve_serviceAccount w _))
          || frame_step).
Qed.

Lemma keeps_main_inputs_plain : keeps (WithoutCache.main_inputs w).
Proof.
  unfold WithoutCache.main_inputs. cbv zeta.
  repeat (apply keeps_main_resolve_uid || apply keeps_main_resolve_apiKey
          || apply keeps_main_resolve_serviceAccount || frame_step).
Qed.

End ReadOnly.

(** X27. The earlier program is read-only: no run of it writes a file, and
    every run leaves the disk as it found it.  (A module that [require] loads
    is taken to have no effect of its own.) *)
Theorem earlier_program_is_read_only (w : world) :
  st_fs (snd (WithoutCache.run w)) = disk w
  /\ forall p content mode,
       ~ In (WriteFileSync p content mode) (st_trace (snd (WithoutCache.run w))).
Proof.
  split.
  - unfold WithoutCache.run, WithoutCache.main.
    destruct (keeps_main_inputs_plain w (initial_state w)) as [Hfs1 _].
    destruct (WithoutCache.main_inputs w (initial_state w)) as [[[[u s] a] | e | c] st1] eqn:E1;
      cbn [snd initial_state st_fs] in Hfs1;
      [rewrite (bind_eq _ _ _ _ _ E1) | now rewrite (bind_throw _ _ _ _ _ E1)
       | now rewrite (bind_exit _ _ _ _ _ E1)].
    pose proof (main_init_fs w s st1) as Hfs2. rewrite Hfs1 in Hfs2.
    destruct (main_init w s st1) as [[[] | e | c] st2] eqn:E2; cbn [snd] in Hfs2;
      [rewrite (bind_eq _ _ _ _ _ E2) | now rewrite (bind_throw _ _ _ _ _ E2)
       | now rewrite (bind_exit _ _ _ _ _ E2)].
    rewrite main_tokens_plain_eq.
    destruct (auth_createCustomToken w u) as [tok | e]; [| exact Hfs2].
    destruct (exchange_appends w tok a (with_trace st2 [CreateCustomToken u; token_line tok]))
      as [evs Hx].
    destruct (exchangeCustomTokenForIdToken w tok a _) as [[data | err | c] st3];
      cbn [snd] in Hx; subst st3; exact Hfs2.
  - intros p content mode Hin.
    assert (He : emits (fun e => is_write e = false) (WithoutCache.main w)).
    { unfold WithoutCache.main.
      apply emits_bind; [apply read_only_main_inputs |]. intros [[u s] a].
      apply emits_bind; [apply read_only_main_init | intros _; apply read_only_main_tokens]. }
    destruct (He (initial_state w)) as [evs [E F]].
    unfold WithoutCache.run in Hin. rewrite E in Hin. cbn [initial_state st_trace app] in Hin.
    rewrite Forall_forall in F. specialize (F _ Hin). discriminate F.
Qed.
